(** * sync-to-wiki: the documentation-to-wiki converter

    A shallow embedding of [.github/scripts/sync-to-wiki.py] and the
    properties of its link rewriting, image resolution, navigation walk and
    sidebar generation.

    Text is a [string]: the UTF-8 bytes of the Python [str].  Every literal
    and every class of characters the script looks for is ASCII, so searching
    bytes and searching code points agree; the one exception is white space
    ([\s] in the front-matter pattern, and [str.strip()]), which takes code
    points beyond ASCII and is embedded code point by code point.

    What the script reads from outside (environment, [git], working
    directory, files) is a [World]; what it does to the outside (files
    written, warnings printed, an exception that ends it) is an [io].
    Writing a file is taken to succeed, and the keys of a mapping of the
    navigation to be strings.  The two steps that come before the run,
    [get_docs_directory] and [clean_wiki_dir], are embedded on their own:
    the first reads a [Startup], the second passes the listing of the wiki
    directory along. *)

From Equations Require Import Equations.
From Stdlib Require Import List Arith Lia Bool Ascii String.
Import ListNotations.
Open Scope string_scope.

Definition inspect {A} (a : A) : {b | a = b} := exist _ a eq_refl.

(** ** Strings *)

Module Str.

(** [''.join(l)] *)
Definition join (l : list string) : string := fold_right append "" l.

Definition nonempty (s : string) : bool :=
  match s with "" => false | String _ _ => true end.

Fixpoint drop (n : nat) (s : string) : string :=
  match n, s with
  | O, _ => s
  | S _, "" => ""
  | S n', String _ s' => drop n' s'
  end.

Fixpoint take (n : nat) (s : string) : string :=
  match n, s with
  | O, _ => ""
  | S _, "" => ""
  | S n', String c s' => String c (take n' s')
  end.

Fixpoint forallb (p : ascii -> bool) (s : string) : bool :=
  match s with
  | "" => true
  | String c s' => p c && forallb p s'
  end.

Fixpoint map (f : ascii -> ascii) (s : string) : string :=
  match s with
  | "" => ""
  | String c s' => String (f c) (map f s')
  end.

Fixpoint repeat (c : ascii) (n : nat) : string :=
  match n with
  | O => ""
  | S n' => String c (repeat c n')
  end.

(** [s.startswith(p)], returning what follows the prefix. *)
Fixpoint strip_prefix (p s : string) : option string :=
  match p, s with
  | "", _ => Some s
  | String a p', String b s' => if Ascii.eqb a b then strip_prefix p' s' else None
  | String _ _, "" => None
  end.

Definition startswith (s p : string) : bool :=
  match strip_prefix p s with Some _ => true | None => false end.

(** [p in s] *)
Fixpoint contains (p s : string) : bool :=
  startswith s p ||
  match s with
  | "" => false
  | String _ s' => contains p s'
  end.

Definition first (s : string) : option ascii :=
  match s with "" => None | String c _ => Some c end.

Fixpoint last (s : string) : option ascii :=
  match s with
  | "" => None
  | String c s' => match last s' with None => Some c | Some d => Some d end
  end.

End Str.

(** The measure that makes the scans below terminate: what is left after a
    prefix is shorter by the prefix. *)
Lemma strip_prefix_length (p s r : string) :
  Str.strip_prefix p s = Some r -> length s = length p + length r.
Proof.
  revert s; induction p as [|a p IH]; intros [|b s]; simpl; try discriminate.
  - now intros [= <-].
  - now intros [= <-].
  - destruct (Ascii.eqb a b); [|discriminate]. intros H. now rewrite (IH _ H).
Qed.

(** ** Python's [str] methods used by the script *)

(** [s.replace(old, new)]: every occurrence of [old], found from the left
    and without overlap, becomes [new]; an empty [old] puts [new] around
    every character. *)
Equations? str_replace (s old new : string) : string by wf (length s) lt :=
  str_replace "" old new := if Str.nonempty old then "" else new;
  str_replace (String c s') old new
    with inspect (Str.strip_prefix old (String c s')) := {
    | exist _ (Some rest) H with inspect (Str.nonempty old) := {
      | exist _ true Hne => new ++ str_replace rest old new;
      | exist _ false Hne => new ++ String c (str_replace s' old new) };
    | exist _ None H => String c (str_replace s' old new) }.
Proof.
  pose proof (strip_prefix_length old (String c s') rest H) as L.
  destruct old; [discriminate|]. simpl in L. lia.
Qed.

(** Membership of a character in the [chars] argument of [strip]. *)
Fixpoint char_in (chars : string) (c : ascii) : bool :=
  match chars with
  | "" => false
  | String a chars' => Ascii.eqb c a || char_in chars' c
  end.

Fixpoint lstrip_while (p : ascii -> bool) (s : string) : string :=
  match s with
  | "" => ""
  | String c s' => if p c then lstrip_while p s' else s
  end.

Fixpoint rstrip_while (p : ascii -> bool) (s : string) : string :=
  match s with
  | "" => ""
  | String c s' =>
      match rstrip_while p s' with
      | "" => if p c then "" else String c ""
      | r => String c r
      end
  end.

(** [s.strip(chars)] *)
Definition str_strip (s chars : string) : string :=
  rstrip_while (char_in chars) (lstrip_while (char_in chars) s).

(** *** White space

    The code points for which [str.isspace()] holds, which are the ones
    [\s] matches in a pattern on [str] and the ones [str.strip()] removes:
    U+0009 to U+000D, U+001C to U+0020, U+0085, U+00A0, U+1680, U+2000 to
    U+200A, U+2028, U+2029, U+202F, U+205F and U+3000, each in UTF-8. *)

Fixpoint bytes (l : list nat) : string :=
  match l with
  | [] => ""
  | n :: l' => String (ascii_of_nat n) (bytes l')
  end.

Definition space_tokens : list string :=
  List.map bytes
    [[9]; [10]; [11]; [12]; [13]; [28]; [29]; [30]; [31]; [32];
     [194; 133]; [194; 160]; [225; 154; 128];
     [226; 128; 128]; [226; 128; 129]; [226; 128; 130]; [226; 128; 131];
     [226; 128; 132]; [226; 128; 133]; [226; 128; 134]; [226; 128; 135];
     [226; 128; 136]; [226; 128; 137]; [226; 128; 138];
     [226; 128; 168]; [226; 128; 169]; [226; 128; 175]; [226; 129; 159];
     [227; 128; 128]].

(** The number of bytes of the white-space code point [s] begins with, [0]
    when it begins with none. *)
Definition space_width (s : string) : nat :=
  match find (Str.startswith s) space_tokens with
  | Some t => length t
  | None => 0
  end.

(** What is left after a code point is shorter. *)
Lemma space_width_drop (s : string) (n : nat) :
  space_width s = S n -> length (Str.drop (S n) s) < length s.
Proof.
  destruct s as [|c s]; [discriminate|]. intros _. cbn [Str.drop length].
  revert s. induction n as [|n IH]; intros s; [cbn [Str.drop]; lia|].
  destruct s as [|d s]; cbn [Str.drop length]; [lia|].
  specialize (IH s). lia.
Qed.

(** [s.lstrip()] *)
Equations lstrip_space (s : string) : string by wf (length s) lt :=
  lstrip_space s with inspect (space_width s) := {
    | exist _ 0 _ => s
    | exist _ (S n) H => lstrip_space (Str.drop (S n) s) }.
Next Obligation. now apply space_width_drop. Qed.

(** [s.rstrip()]: a code point of white space goes when all that follows
    it goes. *)
Equations rstrip_space (s : string) : string by wf (length s) lt :=
  rstrip_space "" := "";
  rstrip_space (String c s') with inspect (space_width (String c s')) := {
    | exist _ 0 _ => String c (rstrip_space s')
    | exist _ (S n) H =>
        match rstrip_space (Str.drop (S n) (String c s')) with
        | "" => ""
        | r => Str.take (S n) (String c s') ++ r
        end }.
Next Obligation. exact (space_width_drop (String c s') n H). Qed.

(** [s.strip()] *)
Definition str_strip_space (s : string) : string :=
  rstrip_space (lstrip_space s).

(** ** The [re] module: backtracking matcher for the script's patterns *)

Module Re.

(** A pattern is a sequence of items.  Repetition is only ever applied to a
    character class in the script, so that is all [Star] and [Plus] take;
    the class of white space, which is not one of bytes, has an item of its
    own. *)
Inductive item :=
| Chr (c : ascii)                          (* a literal character *)
| Bol                                      (* [^], without re.MULTILINE *)
| Star (greedy : bool) (cls : ascii -> bool) (* [cls*] and [cls*?] *)
| Plus (cls : ascii -> bool)               (* [cls+] *)
| Spaces                                   (* [\s*] *)
| GOpen                                    (* [(] *)
| GClose.                                  (* [)] *)

Definition pattern := list item.

Fixpoint lit (s : string) : pattern :=
  match s with
  | "" => []
  | String c s' => Chr c :: lit s'
  end.

(** Character classes. *)
Definition any : ascii -> bool := fun _ => true.               (* [.] with DOTALL *)
Definition one_of (chars : string) : ascii -> bool := char_in chars.
Definition none_of (chars : string) : ascii -> bool := fun c => negb (char_in chars c).

(** The group being captured grows with every character consumed. *)
Definition push (cur : option string) (c : ascii) : option string :=
  match cur with
  | Some g => Some (g ++ String c "")
  | None => None
  end.

Definition pushes (cur : option string) (t : string) : option string :=
  match cur with
  | Some g => Some (g ++ t)
  | None => None
  end.

Section Repetition.
Context {R : Type}.
Variable cls : ascii -> bool.
(** What follows the repetition: given whether we still stand at the
    beginning of the text, the open group and the remaining input. *)
Variable k : bool -> option string -> string -> option R.

(** Greedy: take one more character first, fall back to the rest. *)
Fixpoint star_greedy (bol : bool) (cur : option string) (s : string) : option R :=
  match s with
  | String c s' =>
      if cls c then
        match star_greedy false (push cur c) s' with
        | Some r => Some r
        | None => k bol cur s
        end
      else k bol cur s
  | "" => k bol cur s
  end.

(** Lazy: try the rest first, take one more character on failure. *)
Fixpoint star_lazy (bol : bool) (cur : option string) (s : string) : option R :=
  match k bol cur s with
  | Some r => Some r
  | None =>
      match s with
      | String c s' => if cls c then star_lazy false (push cur c) s' else None
      | "" => None
      end
  end.
End Repetition.

(** [\s*]: one more code point of white space first, the rest on
    failure. *)
Equations spaces_greedy {R} (k : bool -> option string -> string -> option R)
    (bol : bool) (cur : option string) (s : string) : option R
    by wf (length s) lt :=
  spaces_greedy k bol cur s with inspect (space_width s) := {
    | exist _ 0 _ => k bol cur s
    | exist _ (S n) H =>
        match spaces_greedy k false (pushes cur (Str.take (S n) s))
                (Str.drop (S n) s) with
        | Some r => Some r
        | None => k bol cur s
        end }.
Next Obligation. now apply space_width_drop. Qed.

(** [match_here p caps bol cur s] matches [p] at the head of [s] and returns
    the captured groups with the input left after the match. *)
Fixpoint match_here (p : pattern) (caps : list string) (bol : bool)
    (cur : option string) (s : string) {struct p} : option (list string * string) :=
  match p with
  | [] => Some (caps, s)
  | Chr a :: p' =>
      match s with
      | String c s' =>
          if Ascii.eqb a c then match_here p' caps false (push cur c) s' else None
      | "" => None
      end
  | Bol :: p' => if bol then match_here p' caps bol cur s else None
  | Star true cls :: p' => star_greedy cls (match_here p' caps) bol cur s
  | Star false cls :: p' => star_lazy cls (match_here p' caps) bol cur s
  | Plus cls :: p' =>
      match s with
      | String c s' =>
          if cls c then star_greedy cls (match_here p' caps) false (push cur c) s'
          else None
      | "" => None
      end
  | Spaces :: p' => spaces_greedy (match_here p' caps) bol cur s
  | GOpen :: p' => match_here p' caps bol (Some "") s
  | GClose :: p' =>
      match_here p' (caps ++ [match cur with Some g => g | None => "" end]) bol None s
  end.

(** A match object: [m.start()], [m.group(0)] and the numbered groups. *)
Record Match := { m_start : nat; m_group0 : string; m_groups : list string }.

Definition group (m : Match) (n : nat) : string :=
  match n with
  | O => m_group0 m
  | S i => nth i (m_groups m) ""
  end.

(** The text cut into the matches [re.sub] finds, scanning from the left,
    and the characters between them. *)
Inductive piece :=
| Gap (c : ascii)
| Hit (m : Match).

Definition try_at (p : pattern) (pos : nat) (s : string) :=
  match_here p [] (Nat.eqb pos 0) None s.

Equations? pieces (p : pattern) (pos : nat) (s : string) : list piece
    by wf (length s) lt :=
  pieces p pos "" with try_at p pos "" := {
    | Some (caps, _) => [Hit {| m_start := pos; m_group0 := ""; m_groups := caps |}]
    | None => [] };
  pieces p pos (String c s') with inspect (try_at p pos (String c s')) := {
    | exist _ (Some (caps, rest)) H
        with inspect (Nat.ltb (length rest) (length (String c s'))) := {
      | exist _ true Hlt =>
          let n := length (String c s') - length rest in
          Hit {| m_start := pos; m_group0 := Str.take n (String c s'); m_groups := caps |}
            :: pieces p (pos + n) rest
      | exist _ false _ =>
          (* an empty match: replaced, then the scan moves one character on *)
          Hit {| m_start := pos; m_group0 := ""; m_groups := caps |}
            :: Gap c :: pieces p (S pos) s' };
    | exist _ None _ => Gap c :: pieces p (S pos) s' }.
Proof.
  apply Nat.ltb_lt in Hlt. exact Hlt.
Qed.

Definition src (pc : piece) : string :=
  match pc with
  | Gap c => String c ""
  | Hit m => m_group0 m
  end.

Definition out (repl : Match -> string) (pc : piece) : string :=
  match pc with
  | Gap c => String c ""
  | Hit m => repl m
  end.

(** [re.finditer(p, text)] *)
Definition finditer (p : pattern) (text : string) : list Match :=
  flat_map (fun pc => match pc with Gap _ => [] | Hit m => [m] end) (pieces p 0 text).

(** [re.sub(p, repl, text)] with a callable [repl]. *)
Definition sub (p : pattern) (repl : Match -> string) (text : string) : string :=
  Str.join (List.map (out repl) (pieces p 0 text)).

End Re.

(** ** The script *)

Import Re.

Definition char_eq_opt (o : option ascii) (c : ascii) : bool :=
  match o with
  | Some a => Ascii.eqb a c
  | None => false
  end.

(** *** Link rewriting: [convert_mkdocs_to_wiki_link] *)

(** [r'\[([^\]]+)\]\(([^)]+)\)'] *)
Definition link_re : pattern :=
  (lit "[" ++ [GOpen; Plus (none_of "]"); GClose] ++ lit "](" ++
   [GOpen; Plus (none_of ")"); GClose] ++ lit ")")%list.

(** [r'^[./]+'] *)
Definition leading_dots_re : pattern := [Bol; Plus (one_of "./")].

(** The page name a link target is rewritten to (the body of
    [replace_link] from [link_path] to [wiki_page]). *)
Definition wiki_page (link_path : string) : string :=
  (* Remove .md extension and convert path to wiki page name *)
  let wiki_page :=
    str_replace (str_replace (str_replace link_path ".md" "") "/" "-") "_" "-" in
  (* Remove leading dots and slashes *)
  let wiki_page := Re.sub leading_dots_re (fun _ => "") wiki_page in
  (* Remove leading and trailing dashes *)
  let wiki_page := str_strip wiki_page "-" in
  (* Remove index references *)
  str_replace wiki_page "-index" "".

(** [link_path.startswith(('http://', 'https://', '#'))] *)
Definition is_external_link (link_path : string) : bool :=
  Str.startswith link_path "http://" || Str.startswith link_path "https://"
  || Str.startswith link_path "#".

(** [match.start() > 0 and text[match.start() - 1] == '!'] *)
Definition preceded_by_bang (text : string) (m : Match) : bool :=
  Nat.ltb 0 (m_start m) && char_eq_opt (get (m_start m - 1) text) "!".

Definition replace_link (text : string) (m : Match) : string :=
  if preceded_by_bang text m then group m 0
  else
    let link_text := group m 1 in
    let link_path := group m 2 in
    if is_external_link link_path then group m 0
    else "[" ++ link_text ++ "](" ++ wiki_page link_path ++ ")".

Definition convert_mkdocs_to_wiki_link (text : string) : string :=
  Re.sub link_re (replace_link text) text.

(** *** Front matter: the first step of [process_markdown_file] and of
    [create_home_page] *)

Definition newline : ascii := ascii_of_nat 10.
Definition nl : string := String newline "".

(** [r'^---\s*\n.*?\n---\s*\n'] with [re.DOTALL] *)
Definition front_matter_re : pattern :=
  ([Bol] ++ lit "---" ++ [Spaces; Chr newline; Star false any; Chr newline]
   ++ lit "---" ++ [Spaces; Chr newline])%list.

Definition remove_front_matter (content : string) : string :=
  Re.sub front_matter_re (fun _ => "") content.

(** *** Exceptions, paths and the world the script runs in *)

(** The exceptions the script's [except] clauses name; [RuntimeError] stands
    for any exception none of them names. *)
Inductive exn :=
| ValueError | OSError | AttributeError
| CalledProcessError | TimeoutExpired | RuntimeError.

Inductive result (A : Type) :=
| Ok (a : A)
| Raise (e : exn).
Arguments Ok {A} a.
Arguments Raise {A} e.

(** [pathlib] on POSIX: a path is its components, rooted or not. *)
Module Path.

Record t := { is_absolute : bool; parts : list string }.

Fixpoint split_slash (s : string) : list string :=
  match s with
  | "" => [""]
  | String c s' =>
      if Ascii.eqb c "/" then "" :: split_slash s'
      else match split_slash s' with
           | [] => [String c ""]
           | p :: ps => String c p :: ps
           end
  end.

(** Empty components and [.] are dropped when a path is built; [..] stays. *)
Definition keep (component : string) : bool :=
  negb (String.eqb component "" || String.eqb component ".").

(** [Path(s)] *)
Definition of_string (s : string) : t :=
  {| is_absolute := Str.startswith s "/";
     parts := filter keep (split_slash s) |}.

(** [p.parent] *)
Definition parent (p : t) : t :=
  {| is_absolute := is_absolute p; parts := removelast (parts p) |}.

(** [p / s] for a string [s]: an absolute [s] replaces [p]. *)
Definition join (p : t) (s : string) : t :=
  let q := of_string s in
  if is_absolute q then q
  else {| is_absolute := is_absolute p; parts := (parts p ++ parts q)%list |}.

(** [str(p)] *)
Definition to_string (p : t) : string :=
  let body := String.concat "/" (parts p) in
  if is_absolute p then "/" ++ body
  else match parts p with
       | [] => "."
       | _ => body
       end.

Fixpoint strip_parts (root l : list string) : option (list string) :=
  match root, l with
  | [], _ => Some l
  | r :: root', x :: l' => if String.eqb r x then strip_parts root' l' else None
  | _ :: _, [] => None
  end.

(** [p.relative_to(root)] *)
Definition relative_to (p root : t) : result t :=
  if Bool.eqb (is_absolute p) (is_absolute root) then
    match strip_parts (parts root) (parts p) with
    | Some l => Ok {| is_absolute := false; parts := l |}
    | None => Raise ValueError
    end
  else Raise ValueError.

(** Resolution of [..] on a tree without symbolic links: each one drops the
    component before it, and at the root it is dropped itself. *)
Definition normalize (l : list string) : list string :=
  rev (fold_left (fun stack x => if String.eqb x ".." then tl stack else x :: stack) l []).

(** What [p.resolve()] gives when no component on the way is a symbolic
    link and the working directory is [cwd]. *)
Definition lexical_resolve (cwd : t) (p : t) : t :=
  {| is_absolute := true;
     parts := normalize (if is_absolute p then parts p
                         else (parts cwd ++ parts p)%list) |}.

End Path.

(** The lines the script prints as warnings. *)
Inductive warning :=
| NotGitHubUrl (image_path : string)
| NoRepositoryName (image_path : string) (e : exn)
| NoImagePath (image_path : string) (source_file : Path.t) (e : exn)
| FileMissing (file_path : Path.t).

(** A run of a part of the script: the files it has written and the
    warnings it has printed so far, and its value or the exception that
    ended it.  The lines of progress the script prints ([Created page: ...])
    are not recorded. *)
Record io (A : Type) := IO {
  value : result A;
  written : list (string * string);
  printed : list warning;
}.
Arguments IO {A} value written printed.
Arguments value {A} i.
Arguments written {A} i.
Arguments printed {A} i.

Definition ret {A} (a : A) : io A := IO (Ok a) [] [].
Definition lift {A} (r : result A) : io A := IO r [] [].
Definition warn (w : warning) : io unit := IO (Ok tt) [] [w].
Definition write_file (name content : string) : io unit :=
  IO (Ok tt) [(name, content)] [].

Definition bind {A B} (m : io A) (k : A -> io B) : io B :=
  match value m with
  | Ok a =>
      let r := k a in
      IO (value r) (written m ++ written r)%list (printed m ++ printed r)%list
  | Raise e => IO (Raise e) (written m) (printed m)
  end.

Notation "x <- c ;; k" := (bind c (fun x => k))
  (at level 61, c at next level, right associativity).
Notation "c ;;; k" := (bind c (fun _ => k))
  (at level 61, right associativity).

(** The navigation of [mkdocs.yml] as [yaml.safe_load] returns it: strings,
    lists and mappings, and [NOther] for any other value. *)
Unset Elimination Schemes.
Inductive nav :=
| NStr (s : string)
| NList (l : list nav)
| NDict (items : list (string * nav))
| NOther.
Set Elimination Schemes.

(** The fields the script reads from the configuration. *)
Record config := {
  site_name : option string;
  site_description : option string;
  nav_items : option (list nav);
}.

(** What the script reads from its surroundings.  [resolve] is the operating
    system's answer to [Path.resolve()], [read_file] the contents of the
    files that exist, [docs_md_files] what [DOCS_DIR.rglob("*.md")] yields,
    relative to [DOCS_DIR], with the answer of [is_file()].

    Two things are taken for granted here.  A file that exists can be read:
    [exists()] and [open()] are one answer, so a path that exists and cannot
    be opened (a directory, a file that is not UTF-8) is outside a [World].
    And [mkdocs.yml], when it is there, loads as a mapping whose [nav], if
    any, is a list; [get_docs_directory] below, which reads the same file
    first, is embedded without that assumption. *)
Record World := {
  DOCS_DIR : Path.t;
  mkdocs_yml : option config;
  environ_GITHUB_REPOSITORY : option string;
  git_remote_origin_url : result string;
  cwd : result Path.t;
  resolve : Path.t -> result Path.t;
  read_file : Path.t -> option string;
  docs_md_files : list (Path.t * bool);
}.

(** *** Image paths: [convert_image_paths] *)

Definition GITHUB_HTTPS_PREFIX := "https://github.com/".
Definition GITHUB_HTTP_PREFIX := "http://github.com/".
Definition GITHUB_GIT_PREFIX := "git@github.com:".

(** The pattern of image references: [!\[], the group [[^\]]*], [\]\(],
    the group [[^)]+] and [\)]. *)
Definition image_re : pattern :=
  (lit "![" ++ [GOpen; Star true (none_of "]"); GClose] ++ lit "](" ++
   [GOpen; Plus (none_of ")"); GClose] ++ lit ")")%list.

(** The repository named by the URL of the remote, [None] when
    [repo_part] stays empty. *)
Definition repo_of_remote_url (remote_url : string) : option string :=
  let repo_part :=
    match Str.strip_prefix GITHUB_HTTPS_PREFIX remote_url with
    | Some r => r
    | None =>
        match Str.strip_prefix GITHUB_HTTP_PREFIX remote_url with
        | Some r => r
        | None =>
            match Str.strip_prefix GITHUB_GIT_PREFIX remote_url with
            | Some r => r
            | None => ""
            end
        end
    end in
  if Str.nonempty repo_part
  then Some (str_replace (str_strip repo_part "/") ".git" "")
  else None.

(** [github_repo] of [replace_image]: from the environment, else from git;
    [inr] is the warning after which the reference is returned as it is. *)
Definition lookup_github_repo (w : World) (image_path : string)
  : result (string + warning) :=
  let from_git :=
    match git_remote_origin_url w with
    | Ok stdout =>
        match repo_of_remote_url (str_strip_space stdout) with
        | Some repo => Ok (inl repo)
        | None => Ok (inr (NotGitHubUrl image_path))
        end
    | Raise CalledProcessError => Ok (inr (NoRepositoryName image_path CalledProcessError))
    | Raise TimeoutExpired => Ok (inr (NoRepositoryName image_path TimeoutExpired))
    | Raise e => Raise e
    end in
  match environ_GITHUB_REPOSITORY w with
  | Some repo => if Str.nonempty repo then Ok (inl repo) else from_git
  | None => from_git
  end.

Definition result_bind {A B} (r : result A) (k : A -> result B) : result B :=
  match r with
  | Ok a => k a
  | Raise e => Raise e
  end.

(** The body of the second [try] of [replace_image]. *)
Definition wiki_image_path (w : World) (source_file : Path.t)
    (github_repo image_path : string) : result string :=
  let source_dir := Path.parent source_file in
  result_bind (resolve w (Path.join source_dir image_path)) (fun image_abs_path =>
  result_bind (cwd w) (fun repo_root =>
  result_bind (Path.relative_to image_abs_path repo_root) (fun image_rel_path =>
  let image_rel_path_str := str_replace (Path.to_string image_rel_path) "\" "/" in
  Ok ("https://raw.githubusercontent.com/" ++ github_repo ++ "/main/"
      ++ image_rel_path_str)))).

Definition is_external_image (image_path : string) : bool :=
  Str.startswith image_path "http://" || Str.startswith image_path "https://".

Definition replace_image (w : World) (source_file : Path.t) (m : Match) : io string :=
  let alt_text := group m 1 in
  let image_path := group m 2 in
  if is_external_image image_path then ret (group m 0)
  else
    github_repo <- lift (lookup_github_repo w image_path) ;;
    match github_repo with
    | inr warning => warn warning ;;; ret (group m 0)
    | inl github_repo =>
        match wiki_image_path w source_file github_repo image_path with
        | Ok url => ret ("![" ++ alt_text ++ "](" ++ url ++ ")")
        | Raise ValueError => warn (NoImagePath image_path source_file ValueError) ;;; ret (group m 0)
        | Raise OSError => warn (NoImagePath image_path source_file OSError) ;;; ret (group m 0)
        | Raise AttributeError =>
            warn (NoImagePath image_path source_file AttributeError) ;;; ret (group m 0)
        | Raise e => lift (Raise e)
        end
    end.

(** [re.sub] with a callable that prints and may raise: the pieces are
    replaced from left to right. *)
Fixpoint sub_io (repl : Match -> io string) (l : list piece) : io string :=
  match l with
  | [] => ret ""
  | Gap c :: l' => rest <- sub_io repl l' ;; ret (String c rest)
  | Hit m :: l' => new <- repl m ;; rest <- sub_io repl l' ;; ret (new ++ rest)
  end.

Definition convert_image_paths (w : World) (text : string) (source_file : Path.t)
  : io string :=
  sub_io (replace_image w source_file) (pieces image_re 0 text).

(** *** One document: [process_markdown_file] and [create_wiki_page] *)

Definition WIKI_DIR : Path.t := Path.of_string "wiki".

Definition open_read (w : World) (p : Path.t) : io string :=
  lift (match read_file w p with
        | Some content => Ok content
        | None => Raise OSError
        end).

Definition process_markdown_file (w : World) (source_path : Path.t)
    (output_path : string) : io unit :=
  content <- open_read w source_path ;;
  (* Remove YAML front matter *)
  let content := remove_front_matter content in
  (* Convert links *)
  let content := convert_mkdocs_to_wiki_link content in
  (* Convert image paths *)
  content <- convert_image_paths w content source_path ;;
  (* Write to wiki *)
  write_file output_path content.

Definition create_wiki_page (w : World) (title : string) (file_path : Path.t)
    (wiki_name : string) : io unit :=
  match read_file w file_path with
  | None => warn (FileMissing file_path)
  | Some _ =>
      let output_path := Path.to_string (Path.join WIKI_DIR (wiki_name ++ ".md")) in
      process_markdown_file w file_path output_path
  end.

(** *** The navigation walk: [parse_nav_item] *)

(** A page of the sidebar: [(title, wiki_name)]. *)
Definition page : Type := string * string.

(** [wiki_name] of a path of the navigation. *)
Definition nav_wiki_name (value : string) : string :=
  let wiki_name :=
    str_replace (str_replace (str_replace value ".md" "") "/" "-") "_" "-" in
  str_replace wiki_name "-index" "".

Fixpoint parse_nav_item (w : World) (item : nav) (prefix : string) {struct item}
  : io (list page) :=
  match item with
  | NDict items =>
      (fix each_item (kvs : list (string * nav)) : io (list page) :=
         match kvs with
         | [] => ret []
         | (key, value) :: kvs' =>
             pages <-
               match value with
               | NStr value =>
                   (* Single page: "Title": "path/to/file.md" *)
                   let file_path := Path.join (DOCS_DIR w) value in
                   let wiki_name := nav_wiki_name value in
                   let full_title :=
                     if Str.nonempty prefix then prefix ++ " " ++ key else key in
                   create_wiki_page w full_title file_path wiki_name ;;;
                   ret [(full_title, wiki_name)]
               | NList sub_items =>
                   (* Section with multiple pages *)
                   (fix each_sub (l : list nav) : io (list page) :=
                      match l with
                      | [] => ret []
                      | sub_item :: l' =>
                          sub_pages <- parse_nav_item w sub_item key ;;
                          more <- each_sub l' ;;
                          ret (sub_pages ++ more)%list
                      end) sub_items
               | _ => ret []
               end ;;
             more <- each_item kvs' ;;
             ret (pages ++ more)%list
         end) items
  | NStr item =>
      (* Direct file reference *)
      let file_path := Path.join (DOCS_DIR w) item in
      let wiki_name := nav_wiki_name item in
      create_wiki_page w "" file_path wiki_name ;;;
      ret [("", wiki_name)]
  | _ => ret []
  end.

(** *** The sidebar: [create_sidebar] *)

Definition config_site_name (w : World) : string :=
  match mkdocs_yml w with
  | Some c => match site_name c with Some n => n | None => "Documentation" end
  | None => "Documentation"
  end.

(** The bytes between [# ] and the site name in the heading. *)
Definition sidebar_icon : string := bytes [195; 176; 197; 184; 226; 128; 156; 197; 161].

Definition sidebar_heading (site_name : string) : string :=
  ("# " ++ sidebar_icon ++ " " ++ site_name ++ " Wiki" ++ nl ++ nl)
  ++ ("## Table of Contents" ++ nl ++ nl).

(** One turn of the loop over [pages]. *)
Definition sidebar_step (sidebar_content : string) (p : page) : string :=
  let '(title, wiki_name) := p in
  if Str.nonempty wiki_name && Str.nonempty title  (* Skip empty entries *)
  then sidebar_content ++ ("- [" ++ title ++ "](" ++ wiki_name ++ ")" ++ nl)
  else sidebar_content.

Definition sidebar_content (site_name : string) (pages : list page) : string :=
  fold_left sidebar_step pages (sidebar_heading site_name).

Definition create_sidebar (w : World) (pages : list page) : io unit :=
  write_file (Path.to_string (Path.join WIKI_DIR "_Sidebar.md"))
             (sidebar_content (config_site_name w) pages).

(** *** The home page: [create_home_page] *)

Definition home_content (w : World) : string :=
  let readme_path := Path.of_string "README.md" in
  let docs_index := Path.join (DOCS_DIR w) "index.md" in
  match read_file w docs_index with
  | Some content => remove_front_matter content
  | None =>
      match read_file w readme_path with
      | Some content => content
      | None =>
          let site_name := config_site_name w in
          let site_description :=
            match mkdocs_yml w with
            | Some c => match site_description c with Some d => d | None => "" end
            | None => ""
            end in
          let home_content := "# " ++ site_name ++ nl ++ nl in
          let home_content :=
            if Str.nonempty site_description
            then home_content ++ (site_description ++ nl ++ nl)
            else home_content in
          home_content ++ ("Welcome to the wiki!" ++ nl)
      end
  end.

Definition create_home_page (w : World) : io unit :=
  (* Convert links for wiki *)
  let home_content := convert_mkdocs_to_wiki_link (home_content w) in
  write_file (Path.to_string (Path.join WIKI_DIR "Home.md")) home_content.

(** *** [main]

    The part of [main] that writes: from the home page to the sidebar.
    Before it [main] calls [clean_wiki_dir], embedded on its own below;
    after it [main] prints two lines, the second of which asks for
    [WIKI_DIR.absolute()].  Neither writes a file. *)

(** [wiki_name] of a file found by the scan of the fallback. *)
Definition fallback_wiki_name (rel_path : Path.t) : string :=
  str_replace (str_replace (str_replace (Path.to_string rel_path) ".md" "") "/" "-")
              "_" "-".

(** The loop of the fallback over [DOCS_DIR.rglob("*.md")]. *)
Fixpoint fallback_pages (w : World) (found : list (Path.t * bool)) : io (list page) :=
  match found with
  | [] => ret []
  | (rel_path, is_file) :: found' =>
      pages <-
        (if is_file then
           let md_file :=
             {| Path.is_absolute := Path.is_absolute (DOCS_DIR w);
                Path.parts := (Path.parts (DOCS_DIR w) ++ Path.parts rel_path)%list |} in
           let wiki_name := fallback_wiki_name rel_path in
           create_wiki_page w wiki_name md_file wiki_name ;;;
           ret [(wiki_name, wiki_name)]
         else ret []) ;;
      more <- fallback_pages w found' ;;
      ret (pages ++ more)%list
  end.

(** The loop over the items of [nav]. *)
Fixpoint nav_pages (w : World) (nav : list nav) : io (list page) :=
  match nav with
  | [] => ret []
  | item :: nav' =>
      item_pages <- parse_nav_item w item "" ;;
      more <- nav_pages w nav' ;;
      ret (item_pages ++ more)%list
  end.

(** The pages [main] collects before it writes the sidebar. *)
Definition collect_pages (w : World) : io (list page) :=
  match mkdocs_yml w with
  | None =>
      (* Fallback: just copy all markdown files *)
      fallback_pages w (docs_md_files w)
  | Some config =>
      (* Process navigation structure *)
      nav_pages w (match nav_items config with Some nav => nav | None => [] end)
  end.

Definition main (w : World) : io unit :=
  create_home_page w ;;;
  pages <- collect_pages w ;;
  create_sidebar w pages.

(** *** Before the run: [get_docs_directory] and [clean_wiki_dir] *)

(** What [yaml.safe_load] gives for [mkdocs.yml], as far as
    [get_docs_directory] looks at it: a mapping with the value under
    [docs_dir], a string or not, if the key is there; or a value that has no
    [get] ([None] for an empty file, a list, a scalar). *)
Inductive yaml_value :=
| YStr (s : string)
| YOther.

Inductive loaded :=
| Mapping (docs_dir : option yaml_value)
| NotMapping.

(** How opening and loading the file ends. *)
Inductive load_outcome :=
| Loaded (config : loaded)
| YAMLError
| LoadRaises (e : exn).

(** What the script finds when it is started: [path_exists s] is the answer
    of [Path(s).exists()]. *)
Record Startup := {
  mkdocs_yml_exists : bool;
  load_mkdocs_yml : load_outcome;
  path_exists : string -> bool;
}.

(** The two lines [get_docs_directory] may print. *)
Inductive notice :=
| UsingDocs (configured_dir : string)
| CouldNotRead.

(** [IOError] is [OSError]; a value without [get] raises [AttributeError],
    and a [docs_dir] that is no string raises in [Path], which no clause
    names. *)
Definition get_docs_directory (s : Startup) : result string * list notice :=
  let docs_dir := "docs" in
  if mkdocs_yml_exists s then
    match load_mkdocs_yml s with
    | Loaded (Mapping value) =>
        let configured_dir :=
          match value with Some v => v | None => YStr "docs" end in
        match configured_dir with
        | YStr configured_dir =>
            (* If the configured directory exists, use it *)
            if path_exists s configured_dir then (Ok configured_dir, [])
            (* Otherwise, try the default 'docs' directory *)
            else if path_exists s "docs" then (Ok "docs", [UsingDocs configured_dir])
            else (Ok docs_dir, [])
        | YOther => (Raise RuntimeError, [])
        end
    | Loaded NotMapping => (Raise AttributeError, [])
    | YAMLError | LoadRaises OSError => (Ok docs_dir, [CouldNotRead])
    | LoadRaises e => (Raise e, [])
    end
  else (Ok docs_dir, []).

(** An entry of the wiki directory: its name, the answer of [is_dir()], and
    whether the operating system lets it be removed. *)
Record entry := { entry_name : string; is_dir : bool; removable : bool }.

Inductive removal :=
| Rmtree (name : string)
| Unlink (name : string).

(** The directory without the entry of that name. *)
Definition without (name : string) (dir : list entry) : list entry :=
  filter (fun e => negb (String.eqb (entry_name e) name)) dir.

(** The loop over [WIKI_DIR.iterdir()]: how it ends, the directory it
    leaves and the removals it has done.  A removal that is refused raises
    [OSError] and ends the loop. *)
Fixpoint clean_items (items dir : list entry)
  : result unit * list entry * list removal :=
  match items with
  | [] => (Ok tt, dir, [])
  | item :: items' =>
      if negb (String.eqb (entry_name item) ".git") then
        if removable item then
          let '(r, dir', done) := clean_items items' (without (entry_name item) dir) in
          (r, dir',
           (if is_dir item then Rmtree (entry_name item)
            else Unlink (entry_name item)) :: done)
        else (Raise OSError, dir, [])
      else clean_items items' dir
  end.

(** [None] is a wiki directory that does not exist: it is left so. *)
Definition clean_wiki_dir (wiki : option (list entry))
  : result unit * option (list entry) * list removal :=
  match wiki with
  | None => (Ok tt, None, [])
  | Some dir =>
      let '(r, dir', done) := clean_items dir dir in (r, Some dir', done)
  end.

(** ** The vocabulary of the properties *)

(** What is left after a match is a suffix of the input. *)
Definition suffix_of (rest s : string) : Prop := exists m, s = m ++ rest.

(** A text of white space only: [s.lstrip()] leaves nothing of it. *)
Definition white (s : string) : bool := negb (Str.nonempty (lstrip_space s)).

(** Two code points of white space that are not ASCII: U+00A0 and U+2028. *)
Definition no_break_space : string := bytes [194; 160].
Definition line_separator : string := bytes [226; 128; 168].

(** [derive p m]: the text [m] has the shape the pattern [p] describes. *)
Inductive derive : pattern -> string -> Prop :=
| derive_nil : derive [] ""
| derive_chr a p m : derive p m -> derive (Chr a :: p) (String a m)
| derive_bol p m : derive p m -> derive (Bol :: p) m
| derive_star g cls p x m :
    Str.forallb cls x = true -> derive p m -> derive (Star g cls :: p) (x ++ m)
| derive_plus cls p x m :
    Str.nonempty x = true -> Str.forallb cls x = true -> derive p m ->
    derive (Plus cls :: p) (x ++ m)
| derive_spaces p x m :
    white x = true -> derive p m -> derive (Spaces :: p) (x ++ m)
| derive_gopen p m : derive p m -> derive (GOpen :: p) m
| derive_gclose p m : derive p m -> derive (GClose :: p) m.

(** [consumed p s r]: the result [r] of a match on [s] leaves a suffix of
    [s], and what it took has the shape of [p] after some run [x] of the
    class being repeated. *)
Definition consumed (cls : ascii -> bool) (p : pattern) (s : string)
    (r : list string * string) : Prop :=
  exists x m, s = x ++ m ++ snd r /\ Str.forallb cls x = true /\ derive p m.

Definition consumed_white (p : pattern) (s : string)
    (r : list string * string) : Prop :=
  exists x m, s = x ++ m ++ snd r /\ white x = true /\ derive p m.

Fixpoint gaps (s : string) : list piece :=
  match s with
  | "" => []
  | String c s' => Gap c :: gaps s'
  end.

(** A closing delimiter, in the words of the pattern: a newline, three
    dashes, any white space, a newline.  The newline being white space
    itself, what follows the dashes is to begin with white space that holds
    one. *)
Equations newline_after_space (s : string) : bool by wf (length s) lt :=
  newline_after_space s with inspect (space_width s) := {
    | exist _ 0 _ => false
    | exist _ (S n) H =>
        Str.startswith s nl || newline_after_space (Str.drop (S n) s) }.
Next Obligation. now apply space_width_drop. Qed.

Definition closes_here (s : string) : bool :=
  match Str.strip_prefix (nl ++ "---") s with
  | Some r => newline_after_space r
  | None => false
  end.

Fixpoint has_closing_delimiter (s : string) : bool :=
  closes_here s ||
  match s with
  | "" => false
  | String _ s' => has_closing_delimiter s'
  end.

(** An entry that is listed, and its line. *)
Definition listed (p : page) : bool := Str.nonempty (snd p) && Str.nonempty (fst p).

Definition sidebar_line (p : page) : string :=
  "- [" ++ fst p ++ "](" ++ snd p ++ ")" ++ nl.

(** The names the fallback gives the files the scan finds. *)
Definition fallback_names (found : list (Path.t * bool)) : list string :=
  List.map (fun f => fallback_wiki_name (fst f)) (filter snd found).

(** A checkout without [mkdocs.yml], with one document. *)
Definition bare_checkout : World := {|
  DOCS_DIR := Path.of_string "docs";
  mkdocs_yml := None;
  environ_GITHUB_REPOSITORY := Some "alice/docs";
  git_remote_origin_url := Ok "git@github.com:alice/docs.git";
  cwd := Ok (Path.of_string "/work/docs");
  resolve := fun p => Ok (Path.lexical_resolve (Path.of_string "/work/docs") p);
  read_file := fun p =>
    if String.eqb (Path.to_string p) "docs/guide/page.md" then Some "# Page" else None;
  docs_md_files := [(Path.of_string "guide/page.md", true)];
|}.

(** The three replacements every page name starts with. *)
Definition dashed (value : string) : string :=
  str_replace (str_replace (str_replace value ".md" "") "/" "-") "_" "-".

(** A checkout without [mkdocs.yml] whose home page links to the index page
    of a section. *)
Definition section_checkout : World := {|
  DOCS_DIR := Path.of_string "docs";
  mkdocs_yml := None;
  environ_GITHUB_REPOSITORY := Some "alice/docs";
  git_remote_origin_url := Ok "git@github.com:alice/docs.git";
  cwd := Ok (Path.of_string "/work/docs");
  resolve := fun p => Ok (Path.lexical_resolve (Path.of_string "/work/docs") p);
  read_file := fun p =>
    if String.eqb (Path.to_string p) "docs/index.md" then Some "[Guide](guide/index.md)"
    else if String.eqb (Path.to_string p) "docs/guide/index.md" then Some "# Guide"
    else None;
  docs_md_files := [(Path.of_string "index.md", true);
                    (Path.of_string "guide/index.md", true)];
|}.

(** The same documents with a navigation, one of them in a directory whose
    name starts with an underscore. *)
Definition drafts_checkout : World := {|
  DOCS_DIR := Path.of_string "docs";
  mkdocs_yml := Some {|
    site_name := Some "Docs";
    site_description := None;
    nav_items := Some [NDict [("Plan", NStr "_drafts/plan.md")]] |};
  environ_GITHUB_REPOSITORY := Some "alice/docs";
  git_remote_origin_url := Ok "git@github.com:alice/docs.git";
  cwd := Ok (Path.of_string "/work/docs");
  resolve := fun p => Ok (Path.lexical_resolve (Path.of_string "/work/docs") p);
  read_file := fun p =>
    if String.eqb (Path.to_string p) "docs/index.md" then Some "[Plan](_drafts/plan.md)"
    else if String.eqb (Path.to_string p) "docs/_drafts/plan.md" then Some "# Plan"
    else None;
  docs_md_files := [(Path.of_string "index.md", true);
                    (Path.of_string "_drafts/plan.md", true)];
|}.

(** Every piece starts where the one before it ends. *)
Fixpoint well_placed (pos : nat) (l : list piece) : Prop :=
  match l with
  | [] => True
  | Gap _ :: l' => well_placed (S pos) l'
  | Hit m :: l' => m_start m = pos /\ well_placed (pos + length (m_group0 m)) l'
  end.

(** A checkout whose documentation index shows a badge that is a link. *)
Definition badge_checkout : World := {|
  DOCS_DIR := Path.of_string "docs";
  mkdocs_yml := None;
  environ_GITHUB_REPOSITORY := Some "alice/docs";
  git_remote_origin_url := Ok "git@github.com:alice/docs.git";
  cwd := Ok (Path.of_string "/work/docs");
  resolve := fun p => Ok (Path.lexical_resolve (Path.of_string "/work/docs") p);
  read_file := fun p =>
    if String.eqb (Path.to_string p) "docs/index.md"
    then Some "[![CI](badges/ci.svg)](ci.md)"
    else None;
  docs_md_files := [(Path.of_string "index.md", true)];
|}.

(** A checkout whose documentation index shows a picture. *)
Definition picture_checkout : World := {|
  DOCS_DIR := Path.of_string "docs";
  mkdocs_yml := None;
  environ_GITHUB_REPOSITORY := Some "alice/docs";
  git_remote_origin_url := Ok "git@github.com:alice/docs.git";
  cwd := Ok (Path.of_string "/work/docs");
  resolve := fun p => Ok (Path.lexical_resolve (Path.of_string "/work/docs") p);
  read_file := fun p =>
    if String.eqb (Path.to_string p) "docs/index.md"
    then Some "Welcome ![map](assets/map.png) to the [guide](guide/start.md)"
    else None;
  docs_md_files := [(Path.of_string "index.md", true)];
|}.

(** A checkout without documentation index: the home page is made from
    [README.md], which shows a picture without alternative text after a
    pair of brackets that is no link. *)
Definition gallery_checkout : World := {|
  DOCS_DIR := Path.of_string "docs";
  mkdocs_yml := None;
  environ_GITHUB_REPOSITORY := Some "alice/docs";
  git_remote_origin_url := Ok "git@github.com:alice/docs.git";
  cwd := Ok (Path.of_string "/work/docs");
  resolve := fun p => Ok (Path.lexical_resolve (Path.of_string "/work/docs") p);
  read_file := fun p =>
    if String.eqb (Path.to_string p) "README.md"
    then Some "See [x] ![](shots/first_run.png) and [notes](dev_notes.md)"
    else None;
  docs_md_files := [];
|}.

(** A component that [Path.cwd()] can have: not the parent directory. *)
Definition plain_component (c : string) : bool := negb (String.eqb c "..").

(** A checkout whose repository is known from the remote only. *)
Definition remote_checkout : World := {|
  DOCS_DIR := Path.of_string "docs";
  mkdocs_yml := None;
  environ_GITHUB_REPOSITORY := None;
  git_remote_origin_url := Ok ("git@github.com:alice/docs.git" ++ nl);
  cwd := Ok (Path.of_string "/home/runner/work/docs");
  resolve := fun p => Ok (Path.lexical_resolve (Path.of_string "/home/runner/work/docs") p);
  read_file := fun _ => None;
  docs_md_files := [];
|}.

Definition environ_unset (w : World) : Prop :=
  environ_GITHUB_REPOSITORY w = None \/ environ_GITHUB_REPOSITORY w = Some "".

(** The failures [replace_image] answers with a warning: the repository is
    not known ([git] fails or times out, or the remote is not on GitHub),
    or the path cannot be resolved (the operating system refuses, or the
    resolved path is not under the working directory). *)
Inductive unresolved (w : World) (source_file : Path.t) (image_path : string)
  : warning -> Prop :=
| git_failed :
    environ_unset w ->
    git_remote_origin_url w = Raise CalledProcessError ->
    unresolved w source_file image_path (NoRepositoryName image_path CalledProcessError)
| git_timed_out :
    environ_unset w ->
    git_remote_origin_url w = Raise TimeoutExpired ->
    unresolved w source_file image_path (NoRepositoryName image_path TimeoutExpired)
| remote_not_github stdout :
    environ_unset w ->
    git_remote_origin_url w = Ok stdout ->
    repo_of_remote_url (str_strip_space stdout) = None ->
    unresolved w source_file image_path (NotGitHubUrl image_path)
| resolve_refused repo e :
    lookup_github_repo w image_path = Ok (inl repo) ->
    resolve w (Path.join (Path.parent source_file) image_path) = Raise e ->
    e = OSError \/ e = ValueError ->
    unresolved w source_file image_path (NoImagePath image_path source_file e)
| cwd_refused repo image_abs_path :
    lookup_github_repo w image_path = Ok (inl repo) ->
    resolve w (Path.join (Path.parent source_file) image_path) = Ok image_abs_path ->
    cwd w = Raise OSError ->
    unresolved w source_file image_path (NoImagePath image_path source_file OSError)
| outside_root repo image_abs_path repo_root :
    lookup_github_repo w image_path = Ok (inl repo) ->
    resolve w (Path.join (Path.parent source_file) image_path) = Ok image_abs_path ->
    cwd w = Ok repo_root ->
    Path.is_absolute image_abs_path <> Path.is_absolute repo_root
    \/ Path.strip_parts (Path.parts repo_root) (Path.parts image_abs_path) = None ->
    unresolved w source_file image_path (NoImagePath image_path source_file ValueError).

(** Whether the first, the last character is one of those stripped. *)
Definition first_in (p : ascii -> bool) (s : string) : bool :=
  match Str.first s with Some c => p c | None => false end.

Definition last_in (p : ascii -> bool) (s : string) : bool :=
  match Str.last s with Some c => p c | None => false end.

(** A trimmed name: no [.md], no separator, no underscore, neither dot nor
    dash in front, no dash at the end.  A clean name: trimmed and without
    [-index]. *)
Definition trimmed (s : string) : bool :=
  negb (Str.contains ".md" s) && negb (Str.contains "/" s)
  && negb (Str.contains "_" s)
  && negb (first_in (char_in ".-") s) && negb (last_in (char_in "-") s).

Definition clean (s : string) : bool :=
  trimmed s && negb (Str.contains "-index" s).

(** Neither a separator nor an underscore. *)
Definition flat_char (c : ascii) : bool :=
  negb (Ascii.eqb "/" c) && negb (Ascii.eqb "_" c).



(** The text is free of the character [o]. *)
Definition no_char (o : ascii) (s : string) : bool :=
  Str.forallb (fun c => negb (Ascii.eqb o c)) s.

(** A separator or an underscore becomes a dash, any other character stays. *)
Definition to_dash (c : ascii) : ascii :=
  if Ascii.eqb "/" c || Ascii.eqb "_" c then "-" else c.

(** A piece found [n] characters further on. *)
Definition shift (n : nat) (pc : piece) : piece :=
  match pc with
  | Gap c => Gap c
  | Hit m => Hit {| m_start := n + m_start m;
                    m_group0 := m_group0 m;
                    m_groups := m_groups m |}
  end.

(** The same world with another answer of [git]. *)
Definition with_git (w : World) (answer : result string) : World := {|
  DOCS_DIR := DOCS_DIR w;
  mkdocs_yml := mkdocs_yml w;
  environ_GITHUB_REPOSITORY := environ_GITHUB_REPOSITORY w;
  git_remote_origin_url := answer;
  cwd := cwd w;
  resolve := resolve w;
  read_file := read_file w;
  docs_md_files := docs_md_files w;
|}.

(** [GITHUB_REPOSITORY] is set, and not to the empty string. *)
Definition environ_set (w : World) : bool :=
  match environ_GITHUB_REPOSITORY w with
  | Some repo => Str.nonempty repo
  | None => false
  end.

(** The title of a page under a section. *)
Definition full_title (prefix key : string) : string :=
  if Str.nonempty prefix then prefix ++ " " ++ key else key.

(** The entries of a navigation item, read off the item alone. *)
Fixpoint nav_entries (item : nav) (prefix : string) {struct item} : list page :=
  match item with
  | NDict items =>
      flat_map (fun kv : string * nav =>
                  let (key, value) := kv in
                  match value with
                  | NStr value => [(full_title prefix key, nav_wiki_name value)]
                  | NList sub_items =>
                      flat_map (fun sub_item => nav_entries sub_item key) sub_items
                  | _ => []
                  end) items
  | NStr item => [("", nav_wiki_name item)]
  | _ => []
  end.

Fixpoint nav_size (item : nav) : nat :=
  match item with
  | NList l => S (list_sum (List.map nav_size l))
  | NDict items => S (list_sum (List.map (fun kv => nav_size (snd kv)) items))
  | _ => 1
  end.

(** The loop over the items of a section. *)
Fixpoint each_of (f : nav -> io (list page)) (l : list nav) : io (list page) :=
  match l with
  | [] => ret []
  | x :: l' => a <- f x ;; b <- each_of f l' ;; ret (a ++ b)%list
  end.

(** A navigation with a section in a section, a page that is missing and a
    bare path. *)
Definition nested_nav : list nav :=
  [NDict [("Home", NStr "index.md")];
   NDict [("Guide", NList [NDict [("Start", NStr "guide/start.md")];
                          NDict [("Advanced", NList [NDict [("Tuning", NStr "guide/adv/tuning.md")]])];
                          NStr "guide/notes.md"])]].

Definition nested_checkout : World := {|
  DOCS_DIR := Path.of_string "docs";
  mkdocs_yml := Some {| site_name := Some "Docs"; site_description := None;
                        nav_items := Some nested_nav |};
  environ_GITHUB_REPOSITORY := Some "alice/docs";
  git_remote_origin_url := Raise OSError;
  cwd := Ok (Path.of_string "/work/docs");
  resolve := fun p => Ok (Path.lexical_resolve (Path.of_string "/work/docs") p);
  read_file := fun p =>
    if String.eqb (Path.to_string p) "docs/index.md" then Some "# Home"
    else if String.eqb (Path.to_string p) "docs/guide/start.md"
         then Some "See [tuning](adv/tuning.md) and ![fig](../img/fig.png)"
    else None;
  docs_md_files := [(Path.of_string "index.md", true);
                    (Path.of_string "guide/start.md", true)];
|}.

(** No value of the mapping is a page: all are sections (or ignored). *)
Definition sections_only (kvs : list (string * nav)) : bool :=
  List.forallb (fun kv => match snd kv with NStr _ => false | _ => true end) kvs.

(** The exceptions the second [try] of [replace_image] names. *)
Definition caught (e : exn) : bool :=
  match e with
  | ValueError | OSError | AttributeError => true
  | _ => false
  end.

(** An answer of the operating system that [replace_image] can take. *)
Definition settled {A} (r : result A) : bool :=
  match r with
  | Ok _ => true
  | Raise e => caught e
  end.

(** An answer of [git] that [replace_image] can take. *)
Definition git_settled (r : result string) : bool :=
  match r with
  | Ok _ | Raise CalledProcessError | Raise TimeoutExpired => true
  | _ => false
  end.

(** A world in which [replace_image] meets nothing it does not catch: the
    repository is in the environment or [git] answers, exits with an error
    or times out, and the working directory and the resolution of paths
    succeed or fail with [ValueError], [OSError] or [AttributeError]. *)
Definition calm (w : World) : Prop :=
  (environ_set w = true \/ git_settled (git_remote_origin_url w) = true)
  /\ settled (cwd w) = true
  /\ forall p, settled (resolve w p) = true.

(** The run ends with a value. *)
Definition returns {A} (m : io A) : Prop := exists a, value m = Ok a.

(** A checkout in which [git] times out and the working directory is
    gone. *)
Definition rough_checkout : World := {|
  DOCS_DIR := Path.of_string "docs";
  mkdocs_yml := Some {| site_name := None; site_description := None;
                        nav_items := Some nested_nav |};
  environ_GITHUB_REPOSITORY := Some "";
  git_remote_origin_url := Raise TimeoutExpired;
  cwd := Raise OSError;
  resolve := fun p => Ok p;
  read_file := read_file nested_checkout;
  docs_md_files := docs_md_files nested_checkout;
|}.

(** The entries [main] has to collect: those of the navigation, or, without
    [mkdocs.yml], those of the scan. *)
Definition site_entries (w : World) : list page :=
  match mkdocs_yml w with
  | None => List.map (fun n => (n, n)) (fallback_names (docs_md_files w))
  | Some config =>
      flat_map (fun item => nav_entries item "")
               (match nav_items config with Some nav => nav | None => [] end)
  end.

(** The file of a page, directly in the wiki directory. *)
Definition page_file (p : page) : string := "wiki/" ++ snd p ++ ".md".

(** The entry that is kept, and the removal of one that is not. *)
Definition is_git (e : entry) : bool := String.eqb (entry_name e) ".git".

Definition removal_of (e : entry) : removal :=
  if is_dir e then Rmtree (entry_name e) else Unlink (entry_name e).

Definition removed_name (r : removal) : string :=
  match r with Rmtree name | Unlink name => name end.

(** The loop removes an entry of that name. *)
Definition gone (items : list entry) (e : entry) : bool :=
  existsb (fun item => negb (is_git item)
                       && String.eqb (entry_name e) (entry_name item)) items.

(** A checkout whose [mkdocs.yml] names a directory that is not there. *)
Definition stale_startup : Startup := {|
  mkdocs_yml_exists := true;
  load_mkdocs_yml := Loaded (Mapping (Some (YStr "manual")));
  path_exists := fun s => String.eqb s "docs";
|}.

(** A wiki directory of an earlier run. *)
Definition old_wiki : list entry :=
  [ {| entry_name := "Home.md"; is_dir := false; removable := true |};
    {| entry_name := ".git"; is_dir := true; removable := false |};
    {| entry_name := "images"; is_dir := true; removable := true |};
    {| entry_name := "_Sidebar.md"; is_dir := false; removable := true |} ].

(** The same with a page that cannot be removed. *)
Definition locked_wiki : list entry :=
  [ {| entry_name := "Home.md"; is_dir := false; removable := true |};
    {| entry_name := "guide.md"; is_dir := false; removable := false |};
    {| entry_name := ".git"; is_dir := true; removable := true |};
    {| entry_name := "images"; is_dir := true; removable := true |} ].

(** A pattern without [^]. *)
Definition anchor_free (p : pattern) : bool :=
  List.forallb (fun it => match it with Bol => false | _ => true end) p.

(** A text cut at the links the scan finds: a character outside them, or a
    link with its label, its target and the target it gets. *)
Inductive segment :=
| Outside (c : ascii)
| Link (label target new_target : string).

Definition seg_source (g : segment) : string :=
  match g with
  | Outside c => String c ""
  | Link label target _ => "[" ++ label ++ "](" ++ target ++ ")"
  end.

Definition seg_result (g : segment) : string :=
  match g with
  | Outside c => String c ""
  | Link label _ new_target => "[" ++ label ++ "](" ++ new_target ++ ")"
  end.

(** The target is kept, or it is the page name of a target that is not
    external. *)
Definition kept_or_named (g : segment) : Prop :=
  match g with
  | Outside _ => True
  | Link _ target new_target =>
      new_target = target
      \/ (is_external_link target = false /\ new_target = wiki_page target)
  end.

(** The segment of a piece of the scan for links. *)
Definition segment_of (text : string) (pc : piece) : segment :=
  match pc with
  | Gap c => Outside c
  | Hit m =>
      Link (group m 1) (group m 2)
           (if preceded_by_bang text m || is_external_link (group m 2)
            then group m 2 else wiki_page (group m 2))
  end.

(** The same cut at the image references: [Link] holds the alternative
    text, the path and the path the reference gets. *)
Definition image_source (g : segment) : string :=
  match g with
  | Outside c => String c ""
  | Link alt_text image_path _ => "![" ++ alt_text ++ "](" ++ image_path ++ ")"
  end.

Definition image_result (g : segment) : string :=
  match g with
  | Outside c => String c ""
  | Link alt_text _ new_path => "![" ++ alt_text ++ "](" ++ new_path ++ ")"
  end.

(** A raw URL on the branch [main], without backslash after the branch. *)
Definition raw_url (url : string) : Prop :=
  exists github_repo rel_path,
    url = "https://raw.githubusercontent.com/" ++ github_repo ++ "/main/" ++ rel_path
    /\ no_char "\" rel_path = true.

(** The path is kept, or it was not external and is now a raw URL. *)
Definition kept_or_resolved (g : segment) : Prop :=
  match g with
  | Outside _ => True
  | Link _ image_path new_path =>
      new_path = image_path
      \/ (is_external_image image_path = false /\ raw_url new_path)
  end.

(** The documents of a navigation item, in the order of the walk: the name
    of the page and the file it is made from. *)
Fixpoint nav_documents (docs_dir : Path.t) (item : nav) {struct item}
  : list (string * Path.t) :=
  match item with
  | NDict items =>
      flat_map (fun kv : string * nav =>
                  match snd kv with
                  | NStr value => [(nav_wiki_name value, Path.join docs_dir value)]
                  | NList sub_items => flat_map (nav_documents docs_dir) sub_items
                  | _ => []
                  end) items
  | NStr item => [(nav_wiki_name item, Path.join docs_dir item)]
  | _ => []
  end.

(** The documents of the site: those of the navigation, or, without
    [mkdocs.yml], the files of the scan. *)
Definition site_documents (w : World) : list (string * Path.t) :=
  match mkdocs_yml w with
  | None =>
      List.map (fun f : Path.t * bool =>
                  (fallback_wiki_name (fst f),
                   {| Path.is_absolute := Path.is_absolute (DOCS_DIR w);
                      Path.parts := (Path.parts (DOCS_DIR w) ++ Path.parts (fst f))%list |}))
               (filter snd (docs_md_files w))
  | Some config =>
      flat_map (nav_documents (DOCS_DIR w))
               (match nav_items config with Some nav => nav | None => [] end)
  end.

(** The document is there. *)
Definition document_exists (w : World) (d : string * Path.t) : bool :=
  match read_file w (snd d) with Some _ => true | None => false end.

(** The names of the files a run has written, in the order of writing. *)
Definition written_names {A} (m : io A) : list string := List.map fst (written m).

(** The names of the files of the documents that are there. *)
Definition files_of (w : World) (docs : list (string * Path.t)) : list string :=
  List.map (fun d => "wiki/" ++ fst d ++ ".md") (filter (document_exists w) docs).

(** ** Facts about strings *)

Section StrFacts.

Lemma app_nil_r (s : string) : s ++ "" = s.
Proof. induction s as [|c s IH]; simpl; congruence. Qed.

Lemma app_assoc (a b c : string) : (a ++ b) ++ c = a ++ (b ++ c).
Proof. induction a as [|x a IH]; simpl; congruence. Qed.

Lemma length_app (a b : string) : length (a ++ b) = length a + length b.
Proof. induction a as [|x a IH]; simpl; congruence. Qed.

Lemma take_drop (n : nat) (s : string) : Str.take n s ++ Str.drop n s = s.
Proof.
  revert s; induction n as [|n IH]; intros [|c s]; simpl; try reflexivity.
  now rewrite IH.
Qed.

Lemma length_drop (n : nat) (s : string) : length (Str.drop n s) = length s - n.
Proof.
  revert s; induction n as [|n IH]; intros [|c s]; simpl; try reflexivity.
  apply IH.
Qed.

Lemma length_take (n : nat) (s : string) : length (Str.take n s) = Nat.min n (length s).
Proof.
  revert s; induction n as [|n IH]; intros [|c s]; simpl; try reflexivity.
  now rewrite IH.
Qed.

Lemma take_app_length (a b : string) : Str.take (length a) (a ++ b) = a.
Proof. induction a as [|x a IH]; simpl; [now destruct b | congruence]. Qed.

Lemma drop_app_length (a b : string) : Str.drop (length a) (a ++ b) = b.
Proof. induction a as [|x a IH]; simpl; auto. Qed.

Lemma strip_prefix_app (p s r : string) :
  Str.strip_prefix p s = Some r <-> s = p ++ r.
Proof.
  revert s; induction p as [|a p IH]; intros s; simpl.
  - split; [intros [= ->] | intros ->]; reflexivity.
  - destruct s as [|b s]; [split; discriminate|].
    destruct (Ascii.eqb_spec a b) as [->|Hne].
    + rewrite IH. split; [intros -> | intros [= ->]]; reflexivity.
    + split; [discriminate | intros [= E _]; congruence].
Qed.

Lemma startswith_app (s p : string) :
  Str.startswith s p = true <-> exists r, s = p ++ r.
Proof.
  unfold Str.startswith. destruct (Str.strip_prefix p s) as [r|] eqn:E.
  - apply strip_prefix_app in E. split; eauto.
  - split; [discriminate|]. intros [r Hr].
    apply strip_prefix_app in Hr. congruence.
Qed.

Lemma contains_app (p s : string) :
  Str.contains p s = true <-> exists a b, s = a ++ p ++ b.
Proof.
  induction s as [|c s IH]; simpl.
  - rewrite orb_false_r, startswith_app. split.
    + intros [r Hr]. exists "", r. exact Hr.
    + intros (a & b & H). destruct a; simpl in H; [eauto|discriminate].
  - rewrite orb_true_iff, startswith_app, IH. split.
    + intros [[r Hr] | (a & b & H)].
      * exists "", r. exact Hr.
      * exists (String c a), b. simpl. congruence.
    + intros (a & b & H). destruct a as [|x a]; simpl in H.
      * left. eauto.
      * right. injection H as _ H. eauto.
Qed.

End StrFacts.

(** ** Facts about white space *)

Section WhiteFacts.

Lemma string_length_ind (P : string -> Prop) :
  (forall s, (forall t, length t < length s -> P t) -> P s) -> forall s, P s.
Proof.
  intros H s. remember (length s) as n eqn:E. revert s E.
  induction n as [n IH] using lt_wf_ind. intros s ->.
  apply H. intros t Ht. exact (IH _ Ht t eq_refl).
Qed.

Lemma space_width_cases (s : string) :
  space_width s = 0
  \/ exists t r, In t space_tokens /\ s = t ++ r /\ space_width s = length t.
Proof.
  unfold space_width.
  destruct (find (Str.startswith s) space_tokens) as [t|] eqn:E; [|now left].
  right. apply find_some in E as [Hin Hs].
  apply startswith_app in Hs as [r Hr]. exists t, r. auto.
Qed.

(** No code point of white space begins another. *)
Lemma space_width_token (t s : string) :
  In t space_tokens -> space_width (t ++ s) = length t /\ 0 < length t.
Proof.
  intros H. simpl in H.
  repeat (destruct H as [<-|H]; [split; [reflexivity | cbn [length]; lia]|]).
  contradiction.
Qed.

Lemma lstrip_space_eq (s : string) :
  lstrip_space s
  = match space_width s with
    | 0 => s
    | S n => lstrip_space (Str.drop (S n) s)
    end.
Proof.
  rewrite lstrip_space_equation_1. unfold inspect.
  assert (C : forall x (e : space_width s = x),
             lstrip_space_unfold_clause_1 s (exist _ x e)
             = match x with
               | 0 => s
               | S n => lstrip_space (Str.drop (S n) s)
               end)
    by (intros [|n] e; reflexivity).
  apply C.
Qed.

Lemma newline_after_space_eq (s : string) :
  newline_after_space s
  = match space_width s with
    | 0 => false
    | S n => Str.startswith s nl || newline_after_space (Str.drop (S n) s)
    end.
Proof.
  rewrite newline_after_space_equation_1. unfold inspect.
  assert (C : forall x (e : space_width s = x),
             newline_after_space_unfold_clause_1 s (exist _ x e)
             = match x with
               | 0 => false
               | S n => Str.startswith s nl || newline_after_space (Str.drop (S n) s)
               end)
    by (intros [|n] e; reflexivity).
  apply C.
Qed.

Lemma spaces_greedy_eq {R} (k : bool -> option string -> string -> option R)
    (bol : bool) (cur : option string) (s : string) :
  spaces_greedy k bol cur s
  = match space_width s with
    | 0 => k bol cur s
    | S n =>
        match spaces_greedy k false (pushes cur (Str.take (S n) s))
                (Str.drop (S n) s) with
        | Some r => Some r
        | None => k bol cur s
        end
    end.
Proof.
  rewrite spaces_greedy_equation_1. unfold inspect.
  assert (C : forall x (e : space_width s = x),
             spaces_greedy_unfold_clause_1 R k bol cur s (exist _ x e)
             = match x with
               | 0 => k bol cur s
               | S n =>
                   match spaces_greedy k false (pushes cur (Str.take (S n) s))
                           (Str.drop (S n) s) with
                   | Some r => Some r
                   | None => k bol cur s
                   end
               end)
    by (intros [|n] e; reflexivity).
  apply C.
Qed.

Lemma lstrip_space_token (t s : string) :
  In t space_tokens -> lstrip_space (t ++ s) = lstrip_space s.
Proof.
  intros H. destruct (space_width_token t s H) as [W L].
  rewrite lstrip_space_eq, W. destruct (length t) as [|n] eqn:E; [lia|].
  now rewrite <- E, drop_app_length.
Qed.

Lemma white_token (t w : string) :
  In t space_tokens -> white (t ++ w) = white w.
Proof. intros H. unfold white. now rewrite lstrip_space_token. Qed.

(** White space is a sequence of code points of white space. *)
Lemma white_ind (P : string -> Prop) :
  P "" ->
  (forall t w, In t space_tokens -> white w = true -> P w -> P (t ++ w)) ->
  forall s, white s = true -> P s.
Proof.
  intros Hnil Hcons s. induction s as [s IH] using string_length_ind. intros Hs.
  destruct (space_width_cases s) as [W|(t & r & Hin & -> & W)].
  - unfold white in Hs. rewrite lstrip_space_eq, W in Hs.
    destruct s; [exact Hnil | discriminate].
  - rewrite (white_token t r Hin) in Hs.
    destruct (space_width_token t r Hin) as [_ L].
    apply (Hcons t r Hin Hs). apply IH; [|exact Hs].
    rewrite length_app. lia.
Qed.

Lemma white_app (a b : string) :
  white a = true -> white b = true -> white (a ++ b) = true.
Proof.
  intros Ha Hb. revert a Ha. apply white_ind; [exact Hb|].
  intros t w Hin _ IH. now rewrite app_assoc, white_token.
Qed.

Lemma newline_token : In nl space_tokens.
Proof. simpl. tauto. Qed.

(** What does not begin with white space does not begin with a newline. *)
Lemma space_width_newline (c : ascii) (s : string) :
  space_width (String c s) = 0 -> Ascii.eqb newline c = false.
Proof.
  intros H. destruct (Ascii.eqb_spec newline c) as [<-|]; [|reflexivity].
  destruct (space_width_token nl s newline_token) as [W _].
  cbn [append nl] in W. rewrite W in H. discriminate.
Qed.

End WhiteFacts.

(** ** Facts about the matcher *)

Section MatcherFacts.

(** The defining equations of [str_replace] and [pieces], without the
    bookkeeping of the termination argument. *)
Lemma str_replace_cons (c : ascii) (s old new : string) :
  Str.nonempty old = true ->
  str_replace (String c s) old new =
  match Str.strip_prefix old (String c s) with
  | Some rest => new ++ str_replace rest old new
  | None => String c (str_replace s old new)
  end.
Proof.
  intros Hne. simp str_replace.
  destruct (inspect (Str.strip_prefix old (String c s))) as [[rest|] H];
    simp str_replace;
    (etransitivity; [|rewrite H; reflexivity]); [|reflexivity].
  destruct (inspect (Str.nonempty old)) as [[|] H']; simp str_replace.
  - reflexivity.
  - congruence.
Qed.

Lemma str_replace_nil (old new : string) :
  Str.nonempty old = true -> str_replace "" old new = "".
Proof. intros H. simp str_replace. now rewrite H. Qed.

Lemma pieces_cons (p : pattern) (pos : nat) (c : ascii) (s : string) :
  pieces p pos (String c s) =
  match try_at p pos (String c s) with
  | Some (caps, rest) =>
      if Nat.ltb (length rest) (S (length s)) then
        Hit {| m_start := pos;
               m_group0 := Str.take (S (length s) - length rest) (String c s);
               m_groups := caps |}
          :: pieces p (pos + (S (length s) - length rest)) rest
      else
        Hit {| m_start := pos; m_group0 := ""; m_groups := caps |}
          :: Gap c :: pieces p (S pos) s
  | None => Gap c :: pieces p (S pos) s
  end.
Proof.
  simp pieces.
  destruct (inspect (try_at p pos (String c s))) as [[[caps rest]|] H];
    simp pieces;
    (etransitivity; [|rewrite H; reflexivity]); [|reflexivity].
  destruct (inspect (Nat.ltb (length rest) (length (String c s)))) as [[|] H'];
    simp pieces; simpl in H'; rewrite H'; reflexivity.
Qed.

Lemma pieces_nil (p : pattern) (pos : nat) :
  pieces p pos "" =
  match try_at p pos "" with
  | Some (caps, _) => [Hit {| m_start := pos; m_group0 := ""; m_groups := caps |}]
  | None => []
  end.
Proof. simp pieces. destruct (try_at p pos "") as [[caps rest]|]; reflexivity. Qed.

Lemma suffix_of_refl (s : string) : suffix_of s s.
Proof. now exists "". Qed.

Lemma suffix_of_cons (c : ascii) (rest s : string) :
  suffix_of rest s -> suffix_of rest (String c s).
Proof. intros [m ->]. now exists (String c m). Qed.

Lemma suffix_of_length (rest s : string) :
  suffix_of rest s -> length rest <= length s.
Proof. intros [m ->]. rewrite length_app. lia. Qed.

Lemma suffix_of_same_length (rest s : string) :
  suffix_of rest s -> length s <= length rest -> rest = s.
Proof.
  intros [m ->] H. rewrite length_app in H.
  destruct m; [reflexivity | simpl in H; lia].
Qed.

Lemma consumed_cons cls p c s r :
  cls c = true -> consumed cls p s r -> consumed cls p (String c s) r.
Proof.
  intros Hc (x & m & -> & Hx & Hm). exists (String c x), m.
  simpl. rewrite Hc, Hx. auto.
Qed.

Lemma star_greedy_consumed cls p (k : bool -> option string -> string -> option _) :
  (forall bol cur s r, k bol cur s = Some r -> consumed cls p s r) ->
  forall s bol cur r, star_greedy cls k bol cur s = Some r -> consumed cls p s r.
Proof.
  intros Hk. induction s as [|c s IH]; simpl; intros bol cur r H; [eauto|].
  destruct (cls c) eqn:Hc; [|eauto].
  destruct (star_greedy cls k false (push cur c) s) as [r'|] eqn:E; [|eauto].
  injection H as <-. apply consumed_cons; eauto.
Qed.

Lemma star_lazy_consumed cls p (k : bool -> option string -> string -> option _) :
  (forall bol cur s r, k bol cur s = Some r -> consumed cls p s r) ->
  forall s bol cur r, star_lazy cls k bol cur s = Some r -> consumed cls p s r.
Proof.
  intros Hk. induction s as [|c s IH]; simpl; intros bol cur r H.
  - destruct (k bol cur "") eqn:E; [|discriminate]. injection H as <-. eauto.
  - destruct (k bol cur (String c s)) eqn:E.
    + injection H as <-. eauto.
    + destruct (cls c) eqn:Hc; [|discriminate]. apply consumed_cons; eauto.
Qed.

Lemma spaces_greedy_consumed p (k : bool -> option string -> string -> option _) :
  (forall bol cur s r, k bol cur s = Some r -> consumed_white p s r) ->
  forall s bol cur r, spaces_greedy k bol cur s = Some r -> consumed_white p s r.
Proof.
  intros Hk s. induction s as [s IH] using string_length_ind.
  intros bol cur r H. rewrite spaces_greedy_eq in H.
  destruct (space_width_cases s) as [W|(t & rest & Hin & -> & W)].
  - rewrite W in H. eauto.
  - destruct (space_width_token t rest Hin) as [_ L].
    rewrite W in H. destruct (length t) as [|n] eqn:E; [lia|].
    rewrite <- E, take_app_length, drop_app_length in H.
    destruct (spaces_greedy k false (pushes cur t) rest) as [r'|] eqn:G; [|eauto].
    injection H as ->.
    apply IH in G; [|rewrite length_app; lia].
    destruct G as (x & m & -> & Hx & Hm). exists (t ++ x), m.
    rewrite app_assoc, white_token by assumption. auto.
Qed.

(** A successful match took a text of the pattern's shape off the input. *)
Lemma match_here_sound (p : pattern) :
  forall caps bol cur s caps' rest,
    match_here p caps bol cur s = Some (caps', rest) ->
    exists m, s = m ++ rest /\ derive p m.
Proof.
  induction p as [|it p IH]; intros caps bol cur s caps' rest H; simpl in H.
  - injection H as _ <-. exists "". split; [reflexivity | constructor].
  - assert (Hk : forall cls caps bol cur s r,
               match_here p caps bol cur s = Some r -> consumed cls p s r).
    { intros cls ? ? ? ? [? ?] E. destruct (IH _ _ _ _ _ _ E) as (m & -> & Hm).
      exists "", m. auto. }
    assert (Hw : forall caps bol cur s r,
               match_here p caps bol cur s = Some r -> consumed_white p s r).
    { intros ? ? ? ? [? ?] E. destruct (IH _ _ _ _ _ _ E) as (m & -> & Hm).
      exists "", m. auto. }
    destruct it as [a| |[|] cls|cls| | |].
    + destruct s as [|c s]; [discriminate|].
      destruct (Ascii.eqb_spec a c) as [->|]; [|discriminate].
      destruct (IH _ _ _ _ _ _ H) as (m & -> & Hm).
      exists (String c m). split; [reflexivity | now constructor].
    + destruct bol; [|discriminate].
      destruct (IH _ _ _ _ _ _ H) as (m & -> & Hm).
      exists m. split; [reflexivity | now constructor].
    + destruct (star_greedy_consumed cls p _ (Hk cls caps) _ _ _ _ H)
        as (x & m & -> & Hx & Hm).
      exists (x ++ m). rewrite app_assoc. split; [reflexivity | now constructor].
    + destruct (star_lazy_consumed cls p _ (Hk cls caps) _ _ _ _ H)
        as (x & m & -> & Hx & Hm).
      exists (x ++ m). rewrite app_assoc. split; [reflexivity | now constructor].
    + destruct s as [|c s]; [discriminate|].
      destruct (cls c) eqn:Hc; [|discriminate].
      destruct (star_greedy_consumed cls p _ (Hk cls caps) _ _ _ _ H)
        as (x & m & -> & Hx & Hm).
      exists (String c x ++ m). split.
      * simpl. now rewrite app_assoc.
      * constructor; simpl; auto. now rewrite Hc, Hx.
    + destruct (spaces_greedy_consumed p _ (Hw caps) _ _ _ _ H)
        as (x & m & -> & Hx & Hm).
      exists (x ++ m). rewrite app_assoc. split; [reflexivity | now constructor].
    + destruct (IH _ _ _ _ _ _ H) as (m & -> & Hm).
      exists m. split; [reflexivity | now constructor].
    + destruct (IH _ _ _ _ _ _ H) as (m & -> & Hm).
      exists m. split; [reflexivity | now constructor].
Qed.

Lemma match_here_suffix (p : pattern) :
  forall caps bol cur s caps' rest,
    match_here p caps bol cur s = Some (caps', rest) -> suffix_of rest s.
Proof.
  intros caps bol cur s caps' rest H.
  apply match_here_sound in H as (m & -> & _). now exists m.
Qed.

(** The pieces are a cutting of the text: joined back they give it again. *)
Lemma pieces_src (p : pattern) (s : string) :
  forall pos, Str.join (List.map src (pieces p pos s)) = s.
Proof.
  induction s as [s IH] using string_length_ind.
  intros pos. destruct s as [|c s].
  - rewrite pieces_nil. destruct (try_at p pos "") as [[caps rest]|]; reflexivity.
  - rewrite pieces_cons.
    destruct (try_at p pos (String c s)) as [[caps rest]|] eqn:E.
    + apply match_here_suffix in E.
      destruct (Nat.ltb_spec (length rest) (S (length s))) as [Hlt|Hge].
      * cbn [List.map Str.join fold_right src m_group0].
        fold (Str.join (List.map src
          (pieces p (pos + (S (length s) - length rest)) rest))).
        rewrite IH by (simpl; lia).
        destruct E as [m E]. rewrite E at 2.
        f_equal. rewrite E.
        replace (S (length s) - length rest) with (length m).
        -- apply take_app_length.
        -- apply (f_equal length) in E. rewrite length_app in E. simpl in E. lia.
      * cbn [List.map Str.join fold_right src m_group0 append].
        fold (Str.join (List.map src (pieces p (S pos) s))).
        rewrite IH by (simpl; lia). reflexivity.
    + cbn [List.map Str.join fold_right src append].
      fold (Str.join (List.map src (pieces p (S pos) s))).
      rewrite IH by (simpl; lia). reflexivity.
Qed.

End MatcherFacts.

(** ** Facts about [replace] and [strip] *)

Section ReplaceFacts.

Variables old new : string.
Hypothesis old_nonempty : Str.nonempty old = true.

Lemma forallb_app (p : ascii -> bool) (a b : string) :
  Str.forallb p (a ++ b) = Str.forallb p a && Str.forallb p b.
Proof.
  induction a as [|c a IH]; simpl; [reflexivity|].
  now rewrite IH, andb_assoc.
Qed.

Lemma contains_tail (c : ascii) (s : string) :
  Str.contains old (String c s) = false ->
  Str.strip_prefix old (String c s) = None /\ Str.contains old s = false.
Proof.
  cbn [Str.contains]. unfold Str.startswith. intros H.
  apply orb_false_iff in H as [H1 H2]. split; [|exact H2].
  now destruct (Str.strip_prefix old (String c s)).
Qed.

(** Nothing to replace: the text stays. *)
Lemma str_replace_absent (s : string) :
  Str.contains old s = false -> str_replace s old new = s.
Proof.
  induction s as [|c s IH]; intros H.
  - now apply str_replace_nil.
  - apply contains_tail in H as [H1 H2].
    rewrite str_replace_cons, H1, (IH H2) by assumption. reflexivity.
Qed.


Lemma str_replace_here (b : string) :
  str_replace (old ++ b) old new = new ++ str_replace b old new.
Proof.
  destruct (old ++ b) as [|c s] eqn:E.
  - destruct old; discriminate.
  - rewrite str_replace_cons by assumption. rewrite <- E.
    now rewrite (proj2 (strip_prefix_app old (old ++ b) b) eq_refl).
Qed.

End ReplaceFacts.

Section RemoveFacts.

Variable old : string.
Hypothesis old_nonempty : Str.nonempty old = true.

(** Removing occurrences does not lengthen the text ... *)
Lemma str_remove_length (s : string) :
  length (str_replace s old "") <= length s.
Proof.
  induction s as [s IH] using string_length_ind. destruct s as [|c s].
  - now rewrite str_replace_nil.
  - rewrite str_replace_cons by assumption.
    destruct (Str.strip_prefix old (String c s)) as [rest|] eqn:E.
    + apply strip_prefix_length in E.
      assert (0 < length old) by (destruct old; [discriminate | simpl; lia]).
      cbn [append]. specialize (IH rest). lia.
    + cbn [length]. specialize (IH s). cbn [length] in IH. lia.
Qed.

(** ... and shortens it when there is one. *)
Lemma str_remove_shorter (s : string) :
  Str.contains old s = true -> length (str_replace s old "") < length s.
Proof.
  induction s as [|c s IH]; intros H.
  - destruct old; discriminate.
  - rewrite str_replace_cons by assumption.
    destruct (Str.strip_prefix old (String c s)) as [rest|] eqn:E.
    + apply strip_prefix_length in E.
      assert (0 < length old) by (destruct old; [discriminate | simpl; lia]).
      cbn [append]. pose proof (str_remove_length rest). lia.
    + cbn [Str.contains] in H. unfold Str.startswith in H. rewrite E in H.
      cbn [orb] in H. cbn [length]. specialize (IH H). lia.
Qed.

Lemma str_remove_same_length (s : string) :
  length (str_replace s old "") = length s -> Str.contains old s = false.
Proof.
  intros H. destruct (Str.contains old s) eqn:E; [|reflexivity].
  apply str_remove_shorter in E. lia.
Qed.

(** What holds of every character still holds after the removal. *)
Lemma str_remove_forallb (p : ascii -> bool) (s : string) :
  Str.forallb p s = true -> Str.forallb p (str_replace s old "") = true.
Proof.
  induction s as [s IH] using string_length_ind. intros H. destruct s as [|c s].
  - now rewrite str_replace_nil.
  - rewrite str_replace_cons by assumption.
    destruct (Str.strip_prefix old (String c s)) as [rest|] eqn:E.
    + pose proof (strip_prefix_length _ _ _ E) as L.
      assert (0 < length old) by (destruct old; [discriminate | simpl; lia]).
      apply strip_prefix_app in E. rewrite E, forallb_app in H.
      apply andb_true_iff in H as [_ H]. cbn [append]. apply IH; [lia | exact H].
    + cbn [Str.forallb] in *. apply andb_true_iff in H as [Hc H].
      rewrite Hc. apply IH; [simpl; lia | exact H].
Qed.

End RemoveFacts.

Section CharFacts.

(** Replacing one character by another is a map over the text. *)
Lemma str_replace_char (a b : ascii) (s : string) :
  str_replace s (String a "") (String b "")
  = Str.map (fun c => if Ascii.eqb a c then b else c) s.
Proof.
  induction s as [|c s IH].
  - now rewrite str_replace_nil.
  - rewrite str_replace_cons by reflexivity. cbn [Str.strip_prefix Str.map].
    destruct (Ascii.eqb a c); cbn [append]; now rewrite IH.
Qed.

Lemma length_map (f : ascii -> ascii) (s : string) : length (Str.map f s) = length s.
Proof. induction s as [|c s IH]; simpl; congruence. Qed.

Lemma forallb_map (p : ascii -> bool) (f : ascii -> ascii) (s : string) :
  Str.forallb p (Str.map f s) = Str.forallb (fun c => p (f c)) s.
Proof. induction s as [|c s IH]; simpl; congruence. Qed.

Lemma forallb_impl (p q : ascii -> bool) (s : string) :
  (forall c, p c = true -> q c = true) ->
  Str.forallb p s = true -> Str.forallb q s = true.
Proof.
  intros Hpq. induction s as [|c s IH]; simpl; [reflexivity|].
  intros H. apply andb_true_iff in H as [Hc H]. now rewrite (Hpq _ Hc), IH.
Qed.

(** A text holds the character [a] exactly when not all is other than [a]. *)
Lemma contains_char (a : ascii) (s : string) :
  Str.contains (String a "") s = negb (Str.forallb (fun c => negb (Ascii.eqb a c)) s).
Proof.
  induction s as [|c s IH]; [reflexivity|].
  cbn [Str.contains Str.forallb]. rewrite IH. unfold Str.startswith.
  cbn [Str.strip_prefix]. destruct (Ascii.eqb a c); reflexivity.
Qed.

End CharFacts.

Section StripFacts.

Variable p : ascii -> bool.

Lemma lstrip_length (s : string) : length (lstrip_while p s) <= length s.
Proof.
  induction s as [|c s IH]; simpl; [lia|]. destruct (p c); simpl; lia.
Qed.

Lemma lstrip_fixed (s : string) : lstrip_while p s = s <-> first_in p s = false.
Proof.
  destruct s as [|c s]; [now split|]. unfold first_in. cbn [Str.first lstrip_while].
  destruct (p c); [|now split]. split; [|discriminate].
  intros H. apply (f_equal length) in H. pose proof (lstrip_length s).
  cbn [length] in H. lia.
Qed.

Lemma lstrip_same_length (s : string) :
  length (lstrip_while p s) = length s -> first_in p s = false.
Proof.
  destruct s as [|c s]; [reflexivity|]. unfold first_in. cbn [Str.first lstrip_while].
  destruct (p c); [|reflexivity]. intros H. pose proof (lstrip_length s).
  cbn [length] in H. lia.
Qed.

Lemma lstrip_forallb (q : ascii -> bool) (s : string) :
  Str.forallb q s = true -> Str.forallb q (lstrip_while p s) = true.
Proof.
  induction s as [|c s IH]; [reflexivity|]. cbn [lstrip_while]. intros H.
  destruct (p c); [|exact H]. cbn [Str.forallb] in H.
  apply andb_true_iff in H as [_ H]. auto.
Qed.

Lemma rstrip_length (s : string) : length (rstrip_while p s) <= length s.
Proof.
  induction s as [|c s IH]; cbn [rstrip_while length]; [lia|].
  destruct (rstrip_while p s) as [|d r]; [destruct (p c)|]; cbn [length] in *; lia.
Qed.

Lemma rstrip_empty (s : string) :
  rstrip_while p s = "" -> Str.forallb p s = true.
Proof.
  induction s as [|c s IH]; [reflexivity|]. cbn [rstrip_while Str.forallb].
  destruct (rstrip_while p s) as [|d r]; [|discriminate].
  destruct (p c); [intros _; now apply IH | discriminate].
Qed.

Lemma last_forallb (s : string) (c : ascii) :
  Str.forallb p s = true -> Str.last s = Some c -> p c = true.
Proof.
  induction s as [|x s IH]; [discriminate|]. cbn [Str.forallb Str.last].
  intros H. apply andb_true_iff in H as [Hx Hs].
  destruct (Str.last s) as [d|]; intros [= <-]; auto.
Qed.

Lemma rstrip_fixed (s : string) : rstrip_while p s = s <-> last_in p s = false.
Proof.
  unfold last_in. induction s as [|c s IH]; [now split|].
  cbn [rstrip_while Str.last].
  destruct (rstrip_while p s) as [|d r] eqn:E.
  - pose proof (rstrip_empty _ E) as Hall.
    destruct (Str.last s) as [x|] eqn:L.
    + pose proof (last_forallb _ _ Hall L) as Hx. rewrite Hx.
      split; [|discriminate]. destruct (p c); [discriminate|].
      intros [= <-]. discriminate.
    + destruct s; [|cbn [Str.last] in L; destruct (Str.last s); discriminate].
      destruct (p c); split; congruence.
  - destruct (Str.last s) as [x|] eqn:L.
    + rewrite <- IH. split; [now intros [= ->] | now intros ->].
    + destruct s; [discriminate|].
      cbn [Str.last] in L. destruct (Str.last s); discriminate.
Qed.

Lemma rstrip_same_length (s : string) :
  length (rstrip_while p s) = length s -> rstrip_while p s = s.
Proof.
  induction s as [|c s IH]; [reflexivity|]. cbn [rstrip_while length].
  pose proof (rstrip_length s) as L.
  destruct (rstrip_while p s) as [|d r] eqn:E.
  - destruct (p c); cbn [length] in *; intros H; [lia|].
    destruct s; [reflexivity | cbn [length] in H; lia].
  - cbn [length] in *. intros H. f_equal. apply IH. lia.
Qed.

Lemma rstrip_forallb (q : ascii -> bool) (s : string) :
  Str.forallb q s = true -> Str.forallb q (rstrip_while p s) = true.
Proof.
  induction s as [|c s IH]; [reflexivity|]. cbn [rstrip_while Str.forallb].
  intros H. apply andb_true_iff in H as [Hc Hs]. specialize (IH Hs).
  destruct (rstrip_while p s) as [|d r].
  - destruct (p c); [reflexivity|]. cbn [Str.forallb]. now rewrite Hc.
  - cbn [Str.forallb] in *. now rewrite Hc, IH.
Qed.

End StripFacts.

(** ** Patterns anchored at the beginning *)

Section Anchored.

Lemma join_out_gaps repl s : Str.join (List.map (out repl) (gaps s)) = s.
Proof. induction s as [|c s IH]; simpl; [reflexivity|]. now rewrite IH. Qed.

(** Past the first position [^] fails, so nothing more is found. *)
Lemma pieces_bol_later (p : pattern) (s : string) :
  forall pos, 0 < pos -> pieces (Bol :: p) pos s = gaps s.
Proof.
  induction s as [|c s IH]; intros pos Hpos.
  - rewrite pieces_nil. unfold try_at. simpl.
    destruct (Nat.eqb_spec pos 0); [lia | reflexivity].
  - rewrite pieces_cons. unfold try_at. simpl.
    destruct (Nat.eqb_spec pos 0); [lia|]. now rewrite IH by lia.
Qed.

(** [re.sub] of an anchored pattern by the empty string: the match at the
    beginning is cut off, or the text is returned as it is. *)
Lemma sub_bol_empty (p : pattern) (s : string) :
  Re.sub (Bol :: p) (fun _ => "") s =
  match match_here p [] true None s with
  | Some (_, rest) => rest
  | None => s
  end.
Proof.
  unfold Re.sub. destruct s as [|c s].
  - rewrite pieces_nil. unfold try_at. simpl.
    destruct (match_here p [] true None "") as [[caps rest]|] eqn:E; [|reflexivity].
    apply match_here_suffix in E. destruct E as [m E].
    destruct m; [simpl in E; subst; reflexivity | discriminate].
  - rewrite pieces_cons. unfold try_at. cbn [match_here Nat.eqb].
    destruct (match_here p [] true None (String c s)) as [[caps rest]|] eqn:E.
    + pose proof (match_here_suffix _ _ _ _ _ _ _ E) as Hsuf.
      destruct (Nat.ltb_spec (length rest) (S (length s))) as [Hlt|Hge].
      * rewrite pieces_bol_later by lia.
        cbn [List.map Str.join fold_right out append].
        apply join_out_gaps.
      * rewrite pieces_bol_later by lia.
        cbn [List.map Str.join fold_right out append].
        fold (Str.join (List.map (out (fun _ => "")) (gaps s))).
        rewrite join_out_gaps.
        symmetry. apply (suffix_of_same_length _ _ Hsuf). simpl. lia.
    + rewrite pieces_bol_later by lia.
      cbn [List.map Str.join fold_right out append].
      fold (Str.join (List.map (out (fun _ => "")) (gaps s))).
      now rewrite join_out_gaps.
Qed.

End Anchored.

(** ** Front matter *)

Section FrontMatter.

Lemma newline_after_space_app (w b : string) :
  white w = true -> newline_after_space (w ++ nl ++ b) = true.
Proof.
  revert w. apply white_ind.
  - destruct (space_width_token nl b newline_token) as [W _].
    cbn [append]. rewrite newline_after_space_eq, W. reflexivity.
  - intros t w Hin _ IH. rewrite app_assoc.
    destruct (space_width_token t (w ++ nl ++ b) Hin) as [W L].
    rewrite newline_after_space_eq, W.
    destruct (length t) as [|n] eqn:E; [lia|].
    rewrite <- E, drop_app_length, IH. apply orb_true_r.
Qed.

Lemma newline_after_space_inv (s : string) :
  newline_after_space s = true ->
  exists w b, s = w ++ nl ++ b /\ white w = true.
Proof.
  induction s as [s IH] using string_length_ind. intros H.
  rewrite newline_after_space_eq in H.
  destruct (space_width_cases s) as [W|(t & rest & Hin & -> & W)].
  - rewrite W in H. discriminate.
  - destruct (space_width_token t rest Hin) as [_ L].
    rewrite W in H. destruct (length t) as [|n] eqn:E; [lia|].
    rewrite <- E, drop_app_length in H. apply orb_true_iff in H as [H|H].
    + apply startswith_app in H as [r Hr]. exists "", r. auto.
    + apply IH in H; [|rewrite length_app; lia].
      destruct H as (w & b & -> & Hw). exists (t ++ w), b.
      rewrite app_assoc, white_token by assumption. auto.
Qed.

Lemma has_closing_delimiter_later (a t : string) :
  closes_here t = true -> has_closing_delimiter (a ++ t) = true.
Proof.
  intros Ht. induction a as [|c a IH].
  - destruct t; cbn [append has_closing_delimiter]; now rewrite Ht.
  - cbn [append has_closing_delimiter]. rewrite IH. apply orb_true_r.
Qed.

Lemma has_closing_delimiter_app (a w b : string) :
  white w = true ->
  has_closing_delimiter (a ++ nl ++ "---" ++ w ++ nl ++ b) = true.
Proof.
  intros Hw. apply has_closing_delimiter_later. unfold closes_here.
  replace (Str.strip_prefix (nl ++ "---") (nl ++ "---" ++ w ++ nl ++ b))
    with (Some (w ++ nl ++ b)).
  - now apply newline_after_space_app.
  - symmetry. apply strip_prefix_app. reflexivity.
Qed.

(** The boolean says what it should: the text holds a closing delimiter. *)
Lemma has_closing_delimiter_spec (s : string) :
  has_closing_delimiter s = true <->
  exists a w b, s = a ++ nl ++ "---" ++ w ++ nl ++ b /\ white w = true.
Proof.
  split.
  - induction s as [|c s IH]; cbn [has_closing_delimiter].
    + rewrite orb_false_r. unfold closes_here. simpl. discriminate.
    + intros H. apply orb_true_iff in H as [H|H].
      * unfold closes_here in H.
        destruct (Str.strip_prefix (nl ++ "---") (String c s)) as [r|] eqn:E;
          [|discriminate].
        apply strip_prefix_app in E.
        destruct (newline_after_space_inv _ H) as (w & b & -> & Hw).
        exists "", w, b. rewrite E. simpl. auto.
      * destruct (IH H) as (a & w & b & -> & Hw).
        exists (String c a), w, b. auto.
  - intros (a & w & b & -> & Hw). now apply has_closing_delimiter_app.
Qed.

Lemma front_matter_shape (m : string) :
  derive (tl front_matter_re) m ->
  exists w1 x w2,
    m = "---" ++ w1 ++ nl ++ x ++ nl ++ "---" ++ w2 ++ nl
    /\ white w1 = true /\ white w2 = true.
Proof.
  unfold front_matter_re. cbn [tl List.app lit].
  intros H.
  repeat match goal with
         | H : derive (_ :: _) _ |- _ => inversion H; subst; clear H
         | H : derive [] _ |- _ => inversion H; subst; clear H
         end.
  match goal with
  | H1 : white ?w1 = true, H2 : white ?w2 = true,
    H3 : Str.forallb any ?x = true |- _ => exists w1, x, w2
  end.
  repeat split; try assumption.
Qed.

End FrontMatter.

(** C10.  The front-matter step cuts a leading block only when both
    delimiters are there: a document that does not start with three dashes,
    or that holds no closing delimiter (a newline, three dashes, optional
    white space and a newline), is returned as it is, its opening dashes
    included.  White space is what [\s] takes in a pattern on [str]: the
    no-break space and the other separators of Unicode with the ASCII
    ones. *)
Theorem front_matter_needs_both_delimiters (content : string) :
  Str.startswith content "---" = false \/ has_closing_delimiter content = false ->
  remove_front_matter content = content.
Proof.
  intros H. unfold remove_front_matter.
  change front_matter_re with (Bol :: tl front_matter_re).
  rewrite sub_bol_empty.
  destruct (match_here (tl front_matter_re) [] true None content)
    as [[caps rest]|] eqn:E; [exfalso | reflexivity].
  apply match_here_sound in E as (m & -> & Hm).
  apply front_matter_shape in Hm as (w1 & x & w2 & -> & Hw1 & Hw2).
  destruct H as [H|H].
  - assert (T : Str.startswith
                  (("---" ++ w1 ++ nl ++ x ++ nl ++ "---" ++ w2 ++ nl) ++ rest)
                  "---" = true) by reflexivity.
    congruence.
  - assert (T : has_closing_delimiter
                  (("---" ++ w1 ++ nl ++ x ++ nl ++ "---" ++ w2 ++ nl) ++ rest)
                = true).
    { replace (("---" ++ w1 ++ nl ++ x ++ nl ++ "---" ++ w2 ++ nl) ++ rest)
        with (("---" ++ w1 ++ nl ++ x) ++ nl ++ "---" ++ w2 ++ nl ++ rest).
      - now apply has_closing_delimiter_app.
      - repeat (rewrite !app_assoc || cbn [append]). reflexivity. }
    congruence.
Qed.

Lemma front_matter_needs_both_delimiters_witness :
  (Str.startswith ("---" ++ nl ++ "title: Home" ++ nl ++ "# Home") "---" = false
   \/ has_closing_delimiter ("---" ++ nl ++ "title: Home" ++ nl ++ "# Home") = false)
  /\ remove_front_matter ("---" ++ nl ++ "title: Home" ++ nl ++ "# Home")
     = "---" ++ nl ++ "title: Home" ++ nl ++ "# Home".
Proof.
  split.
  - right. reflexivity.
  - apply front_matter_needs_both_delimiters. right. reflexivity.
Defined.

(** With both delimiters the block goes, and the blank lines after it. *)
Example front_matter_removed :
  remove_front_matter
    ("---" ++ nl ++ "title: Home" ++ nl ++ "---" ++ nl ++ nl ++ "# Home" ++ nl)
  = "# Home" ++ nl.
Proof. reflexivity. Qed.

(** A no-break space after the dashes is white space to the pattern, as a
    line separator is; a letter is not. *)
Example front_matter_removed_no_break_space :
  remove_front_matter
    ("---" ++ line_separator ++ nl ++ "title: Home" ++ nl
     ++ "---" ++ no_break_space ++ nl ++ "# Home")
  = "# Home"
  /\ remove_front_matter
       ("---" ++ nl ++ "title: Home" ++ nl ++ "---x" ++ nl ++ "# Home")
     = "---" ++ nl ++ "title: Home" ++ nl ++ "---x" ++ nl ++ "# Home".
Proof. split; vm_compute; reflexivity. Qed.

(** ** The sidebar *)

Section Sidebar.

Lemma sidebar_loop (pages : list page) :
  forall content,
    fold_left sidebar_step pages content
    = content ++ Str.join (List.map sidebar_line (filter listed pages)).
Proof.
  induction pages as [|[title wiki_name] pages IH]; intros content.
  - simpl. now rewrite app_nil_r.
  - cbn [fold_left filter]. rewrite IH. unfold sidebar_step.
    change (listed (title, wiki_name))
      with (Str.nonempty wiki_name && Str.nonempty title).
    destruct (Str.nonempty wiki_name && Str.nonempty title).
    + cbn [List.map Str.join fold_right]. rewrite app_assoc. reflexivity.
    + reflexivity.
Qed.

(** C8.  What [create_sidebar] writes is one file, [_Sidebar.md], whose
    content is the heading followed by one line per entry whose title and
    identifier are both non-empty, in the order of the entries; the other
    entries give no line. *)
Theorem sidebar_one_line_per_listed_entry (w : World) (pages : list page) :
  create_sidebar w pages
  = IO (Ok tt)
       [("wiki/_Sidebar.md",
         sidebar_heading (config_site_name w)
         ++ Str.join (List.map sidebar_line (filter listed pages)))]
       [].
Proof.
  unfold create_sidebar, sidebar_content. rewrite sidebar_loop. reflexivity.
Qed.

End Sidebar.

(** ** Runs *)

Section Runs.

Lemma value_bind {A B} (m : io A) (k : A -> io B) (b : B) :
  value (bind m k) = Ok b <-> exists a, value m = Ok a /\ value (k a) = Ok b.
Proof.
  unfold bind. destruct (value m) as [a|e]; simpl.
  - split; [eauto | intros (a' & [= <-] & H); exact H].
  - split; [discriminate | intros (a' & [=] & _)].
Qed.

Lemma value_ret {A} (a b : A) : value (ret a) = Ok b <-> a = b.
Proof. simpl. split; [intros [= ->] | intros ->]; reflexivity. Qed.

End Runs.

(** ** The fallback *)

Section Fallback.

Lemma fallback_pages_value (w : World) (found : list (Path.t * bool)) :
  forall pages,
    value (fallback_pages w found) = Ok pages ->
    pages = List.map (fun n => (n, n)) (fallback_names found).
Proof.
  induction found as [|[rel_path is_file] found IH]; intros pages H.
  - now injection H as <-.
  - cbn [fallback_pages] in H.
    apply value_bind in H as (here & Hhere & H).
    apply value_bind in H as (more & Hmore & H).
    apply value_ret in H as <-.
    rewrite (IH _ Hmore). unfold fallback_names. cbn [filter snd].
    destruct is_file.
    + apply value_bind in Hhere as (u & _ & Hhere).
      apply value_ret in Hhere as <-. reflexivity.
    + apply value_ret in Hhere as <-. reflexivity.
Qed.

Lemma filter_listed_named (names : list string) :
  filter listed (List.map (fun n => (n, n)) names)
  = List.map (fun n => (n, n)) (filter Str.nonempty names).
Proof.
  induction names as [|n names IH]; [reflexivity|].
  cbn [List.map filter]. unfold listed at 1. cbn [fst snd].
  rewrite IH. now destruct (Str.nonempty n).
Qed.

(** C4, as the code has it.  Every page of the fallback is recorded with its
    identifier as title, and gives the sidebar the line of that identifier
    unless the identifier is empty. *)
Theorem fallback_pages_titled_by_name (w : World) (found : list (Path.t * bool))
    (pages : list page) :
  value (fallback_pages w found) = Ok pages ->
  pages = List.map (fun n => (n, n)) (fallback_names found)
  /\ forall site_name,
       sidebar_content site_name pages
       = sidebar_heading site_name
         ++ Str.join (List.map (fun n => sidebar_line (n, n))
                               (filter Str.nonempty (fallback_names found))).
Proof.
  intros H. apply fallback_pages_value in H. subst pages.
  split; [reflexivity|]. intros site_name.
  unfold sidebar_content.
  rewrite sidebar_loop, filter_listed_named, List.map_map. reflexivity.
Qed.

Lemma fallback_pages_titled_by_name_witness :
  value (fallback_pages bare_checkout (docs_md_files bare_checkout))
    = Ok [("guide-page", "guide-page")]
  /\ [("guide-page", "guide-page")]
     = List.map (fun n => (n, n)) (fallback_names (docs_md_files bare_checkout))
  /\ forall site_name,
       sidebar_content site_name [("guide-page", "guide-page")]
       = sidebar_heading site_name
         ++ Str.join (List.map (fun n => sidebar_line (n, n))
              (filter Str.nonempty (fallback_names (docs_md_files bare_checkout)))).
Proof.
  split; [reflexivity|].
  apply (fallback_pages_titled_by_name bare_checkout). reflexivity.
Defined.

(** C4, as it is stated, fails: without [mkdocs.yml] the page found by the
    scan is recorded under a title, and the sidebar lists it. *)
Lemma fallback_page_is_listed :
  value (collect_pages bare_checkout) = Ok [("guide-page", "guide-page")]
  /\ sidebar_content "Documentation" [("guide-page", "guide-page")]
     = sidebar_heading "Documentation" ++ "- [guide-page](guide-page)" ++ nl
  /\ written (main bare_checkout)
     = [("wiki/Home.md", "# Documentation" ++ nl ++ nl ++ "Welcome to the wiki!" ++ nl);
        ("wiki/guide-page.md", "# Page");
        ("wiki/_Sidebar.md",
         sidebar_heading "Documentation" ++ "- [guide-page](guide-page)" ++ nl)].
Proof. repeat split; reflexivity. Qed.

End Fallback.

(** ** The page name of a link target *)

Section LeadingDots.

Lemma star_greedy_all (cls : ascii -> bool) (caps : list string) (s : string) :
  forall bol cur,
    star_greedy cls (fun _ _ rest => Some (caps, rest)) bol cur s
    = Some (caps, lstrip_while cls s).
Proof.
  induction s as [|c s IH]; intros bol cur; simpl; [reflexivity|].
  destruct (cls c); [|reflexivity]. now rewrite IH.
Qed.

(** [re.sub(r'^[./]+', '', s)] strips the leading run of dots and slashes. *)
Lemma sub_leading_dots (s : string) :
  Re.sub leading_dots_re (fun _ => "") s = lstrip_while (one_of "./") s.
Proof.
  unfold leading_dots_re. rewrite sub_bol_empty.
  destruct s as [|c s]; [reflexivity|].
  cbn [match_here lstrip_while].
  destruct (one_of "./" c); [|reflexivity].
  now rewrite star_greedy_all.
Qed.

Lemma wiki_page_steps (link_path : string) :
  wiki_page link_path
  = str_replace
      (str_strip (lstrip_while (one_of "./") (dashed link_path)) "-")
      "-index" "".
Proof. unfold wiki_page. now rewrite sub_leading_dots. Qed.

End LeadingDots.

(** ** File names and link targets *)

Section FileNames.

(** C1 at two inputs.  In the fallback the file of [guide/index.md] is
    written as [guide-index.md] while a link to it is rewritten to [guide];
    in the navigation walk the file of [_drafts/plan.md] is written as
    [-drafts-plan.md] while a link to it is rewritten to [drafts-plan]. *)
Theorem written_name_differs_from_link_target :
  List.map fst (written (main section_checkout))
    = ["wiki/Home.md"; "wiki/index.md"; "wiki/guide-index.md"; "wiki/_Sidebar.md"]
  /\ List.nth 0 (List.map snd (written (main section_checkout))) "" = "[Guide](guide)"
  /\ fallback_wiki_name (Path.of_string "guide/index.md") = "guide-index"
  /\ wiki_page "guide/index.md" = "guide"
  /\ List.map fst (written (main drafts_checkout))
    = ["wiki/Home.md"; "wiki/-drafts-plan.md"; "wiki/_Sidebar.md"]
  /\ List.nth 0 (List.map snd (written (main drafts_checkout))) "" = "[Plan](drafts-plan)"
  /\ nav_wiki_name "_drafts/plan.md" = "-drafts-plan"
  /\ wiki_page "_drafts/plan.md" = "drafts-plan".
Proof. repeat split; reflexivity. Qed.

(** On a path whose dashed form has nothing to strip at either end, the
    navigation walk and the link rewriting give the same name. *)
Lemma nav_wiki_name_agrees (value : string) :
  lstrip_while (one_of "./") (dashed value) = dashed value ->
  str_strip (dashed value) "-" = dashed value ->
  nav_wiki_name value = wiki_page value.
Proof.
  intros H1 H2. rewrite wiki_page_steps, H1, H2. reflexivity.
Qed.

End FileNames.

(** ** Matches in their place *)

Section InPlace.

Lemma join_app (l1 l2 : list string) :
  Str.join (l1 ++ l2) = Str.join l1 ++ Str.join l2.
Proof.
  induction l1 as [|x l1 IH]; simpl; [reflexivity|].
  now rewrite IH, app_assoc.
Qed.

Lemma pieces_well_placed (p : pattern) (s : string) :
  forall pos, well_placed pos (pieces p pos s).
Proof.
  induction s as [s IH] using string_length_ind.
  intros pos. destruct s as [|c s].
  - rewrite pieces_nil. destruct (try_at p pos "") as [[caps rest]|]; simpl; auto.
  - rewrite pieces_cons.
    destruct (try_at p pos (String c s)) as [[caps rest]|] eqn:E.
    + apply match_here_suffix in E. apply suffix_of_length in E.
      destruct (Nat.ltb_spec (length rest) (S (length s))) as [Hlt|Hge].
      * cbn [well_placed m_start m_group0]. split; [reflexivity|].
        rewrite length_take.
        replace (Nat.min (S (length s) - length rest) (length (String c s)))
          with (S (length s) - length rest) by (cbn [length]; lia).
        apply IH. cbn [length]. lia.
      * cbn [well_placed m_start m_group0 length]. split; [reflexivity|].
        rewrite Nat.add_0_r. apply IH. simpl. lia.
    + cbn [well_placed]. apply IH. simpl. lia.
Qed.

Lemma well_placed_start (before after : list piece) (m : Match) :
  forall pos,
    well_placed pos (before ++ Hit m :: after) ->
    m_start m = pos + length (Str.join (List.map src before)).
Proof.
  induction before as [|pc before IH]; intros pos H.
  - simpl in *. destruct H as [-> _]. lia.
  - destruct pc as [c|m']; cbn [List.app well_placed] in H.
    + rewrite (IH _ H). simpl. lia.
    + destruct H as [_ H]. rewrite (IH _ H).
      cbn [List.map Str.join fold_right src]. rewrite length_app.
      unfold Str.join. lia.
Qed.

(** A match the scan finds lies in the text where [m.start()] says, and
    [re.sub] puts its replacement between what it makes of the text before
    and of the text after. *)
Lemma found_match_in_place (p : pattern) (repl : Match -> string)
    (text : string) (before after : list piece) (m : Match) :
  pieces p 0 text = (before ++ Hit m :: after)%list ->
  text = Str.join (List.map src before) ++ m_group0 m ++ Str.join (List.map src after)
  /\ m_start m = length (Str.join (List.map src before))
  /\ Re.sub p repl text
     = Str.join (List.map (out repl) before) ++ repl m
       ++ Str.join (List.map (out repl) after).
Proof.
  intros H. split; [|split].
  - rewrite <- (pieces_src p text 0) at 1. rewrite H.
    rewrite List.map_app, join_app. reflexivity.
  - pose proof (pieces_well_placed p text 0) as W. rewrite H in W.
    now rewrite (well_placed_start _ _ _ _ W).
  - unfold Re.sub. rewrite H, List.map_app, join_app. reflexivity.
Qed.

Lemma replace_link_protected (text : string) (m : Match) :
  preceded_by_bang text m = true \/ is_external_link (group m 2) = true ->
  replace_link text m = m_group0 m.
Proof.
  intros [H|H]; unfold replace_link; [now rewrite H|].
  destruct (preceded_by_bang text m); [reflexivity|]. now rewrite H.
Qed.

End InPlace.

(** ** Links that are left alone *)

Section ProtectedLinks.

(** C5, as the code has it.  A link the scan of the text finds, whose
    target begins with [http://], [https://] or [#] or which stands right
    after a [!], is in the output as it was in the text, between the
    rewritten text before it and the rewritten text after it. *)
Theorem found_protected_link_unchanged (text : string)
    (before after : list piece) (m : Match) :
  pieces link_re 0 text = (before ++ Hit m :: after)%list ->
  preceded_by_bang text m = true \/ is_external_link (group m 2) = true ->
  text = Str.join (List.map src before) ++ m_group0 m ++ Str.join (List.map src after)
  /\ m_start m = length (Str.join (List.map src before))
  /\ convert_mkdocs_to_wiki_link text
     = Str.join (List.map (out (replace_link text)) before) ++ m_group0 m
       ++ Str.join (List.map (out (replace_link text)) after).
Proof.
  intros Hfound Hprot.
  destruct (found_match_in_place link_re (replace_link text) _ _ _ _ Hfound)
    as (Htext & Hstart & Hsub).
  repeat split; try assumption.
  unfold convert_mkdocs_to_wiki_link. rewrite Hsub.
  now rewrite (replace_link_protected _ _ Hprot).
Qed.

Lemma found_protected_link_unchanged_witness :
  let text := "See [docs](guide/intro.md), ![logo](img/logo.png) and [site](https://example.org/a_b)." in
  let m := {| m_start := 29; m_group0 := "[logo](img/logo.png)";
              m_groups := ["logo"; "img/logo.png"] |} in
  preceded_by_bang text m = true
  /\ convert_mkdocs_to_wiki_link text
     = "See [docs](guide-intro), !" ++ m_group0 m
       ++ " and [site](https://example.org/a_b).".
Proof.
  cbv zeta. split; [reflexivity|].
  refine (proj2 (proj2 (found_protected_link_unchanged _
    (pieces link_re 0 "See [docs](guide/intro.md), !")
    (pieces link_re 49 " and [site](https://example.org/a_b).")
    _ _ _))).
  - reflexivity.
  - left. reflexivity.
Defined.

(** C5, as it is stated, fails on an image inside a link: the scan finds
    the match that begins at the outer bracket, and with it rewrites the
    path of the image, which stands right after a [!]. *)
Lemma image_inside_link_is_rewritten :
  get 1 "[![logo](img/logo.png)](index.md)" = Some "!"%char
  /\ Str.take 20 (Str.drop 2 "[![logo](img/logo.png)](index.md)") = "[logo](img/logo.png)"
  /\ convert_mkdocs_to_wiki_link "[![logo](img/logo.png)](index.md)"
     = "[![logo](img-logo.png)](index.md)"
  /\ Str.contains "[logo](img/logo.png)"
       (convert_mkdocs_to_wiki_link "[![logo](img/logo.png)](index.md)") = false.
Proof. repeat split; reflexivity. Qed.

End ProtectedLinks.

(** ** Image references *)

Section ImagePaths.

Lemma normalize_stack (l : list string) :
  forall stack,
    List.forallb plain_component l = true ->
    fold_left (fun stack x => if String.eqb x ".." then tl stack else x :: stack)
              l stack
    = (List.rev l ++ stack)%list.
Proof.
  induction l as [|x l IH]; intros stack H; [reflexivity|].
  cbn [List.forallb] in H. apply andb_true_iff in H as [Hx Hl].
  unfold plain_component in Hx. apply negb_true_iff in Hx.
  cbn [fold_left]. rewrite Hx, (IH _ Hl). cbn [List.rev].
  now rewrite <- List.app_assoc.
Qed.

Lemma strip_parts_app (root l : list string) :
  Path.strip_parts root (root ++ l) = Some l.
Proof.
  induction root as [|r root IH]; [now destruct l|].
  cbn [List.app Path.strip_parts]. now rewrite String.eqb_refl.
Qed.

(** From [docs/guide], [../assets/pic.png] is [docs/assets/pic.png] under
    any working directory. *)
Lemma resolve_pic_under (root : list string) :
  List.forallb plain_component root = true ->
  Path.normalize (root ++ ["docs"; "guide"; ".."; "assets"; "pic.png"])
  = (root ++ ["docs"; "assets"; "pic.png"])%list.
Proof.
  intros H. unfold Path.normalize.
  rewrite List.fold_left_app, (normalize_stack _ _ H).
  cbn [fold_left String.eqb Ascii.eqb Bool.eqb tl].
  rewrite List.app_nil_r. cbn [List.rev].
  rewrite List.rev_involutive, <- !List.app_assoc. reflexivity.
Qed.

(** C6.  With the repository [alice/docs], the working directory at the
    root of the checkout and no symbolic link on the way, the reference
    [![x](../assets/pic.png)] of [docs/guide/page.md] becomes the raw URL of
    [docs/assets/pic.png] on the branch [main], and nothing is printed. *)
Theorem image_reference_resolved (w : World) (root : Path.t) :
  lookup_github_repo w "../assets/pic.png" = Ok (inl "alice/docs") ->
  cwd w = Ok root ->
  Path.is_absolute root = true ->
  List.forallb plain_component (Path.parts root) = true ->
  resolve w (Path.of_string "docs/guide/../assets/pic.png")
    = Ok (Path.lexical_resolve root (Path.of_string "docs/guide/../assets/pic.png")) ->
  convert_image_paths w "![x](../assets/pic.png)" (Path.of_string "docs/guide/page.md")
  = IO (Ok "![x](https://raw.githubusercontent.com/alice/docs/main/docs/assets/pic.png)")
       [] [].
Proof.
  intros Hrepo Hcwd Habs Hroot Hres.
  unfold convert_image_paths.
  replace (pieces image_re 0 "![x](../assets/pic.png)")
    with [Hit {| m_start := 0; m_group0 := "![x](../assets/pic.png)";
                 m_groups := ["x"; "../assets/pic.png"] |}] by reflexivity.
  cbn [sub_io]. unfold replace_image. cbn [group m_groups m_group0 nth].
  replace (is_external_image "../assets/pic.png") with false by reflexivity.
  rewrite Hrepo. unfold wiki_image_path.
  replace (Path.join (Path.parent (Path.of_string "docs/guide/page.md"))
                     "../assets/pic.png")
    with (Path.of_string "docs/guide/../assets/pic.png") by reflexivity.
  rewrite Hres, Hcwd. cbn [result_bind].
  unfold Path.lexical_resolve, Path.relative_to.
  replace (Path.is_absolute (Path.of_string "docs/guide/../assets/pic.png"))
    with false by reflexivity.
  replace (Path.parts (Path.of_string "docs/guide/../assets/pic.png"))
    with ["docs"; "guide"; ".."; "assets"; "pic.png"] by reflexivity.
  rewrite (resolve_pic_under _ Hroot).
  cbn [Path.is_absolute Path.parts]. rewrite Habs. cbn [Bool.eqb].
  rewrite strip_parts_app. cbn [result_bind].
  reflexivity.
Qed.

Lemma image_reference_resolved_witness :
  lookup_github_repo remote_checkout "../assets/pic.png" = Ok (inl "alice/docs")
  /\ cwd remote_checkout = Ok (Path.of_string "/home/runner/work/docs")
  /\ convert_image_paths remote_checkout "![x](../assets/pic.png)"
       (Path.of_string "docs/guide/page.md")
     = IO (Ok "![x](https://raw.githubusercontent.com/alice/docs/main/docs/assets/pic.png)")
          [] [].
Proof.
  split; [reflexivity|]. split; [reflexivity|].
  apply (image_reference_resolved remote_checkout
           (Path.of_string "/home/runner/work/docs")); reflexivity.
Defined.

(** The repository is taken from the environment when it is set there, and
    else from the three shapes of the remote's URL. *)
Example repo_of_remote_urls :
  repo_of_remote_url "git@github.com:alice/docs.git" = Some "alice/docs"
  /\ repo_of_remote_url "https://github.com/alice/docs.git" = Some "alice/docs"
  /\ repo_of_remote_url "http://github.com/alice/docs/" = Some "alice/docs"
  /\ repo_of_remote_url "https://gitlab.com/alice/docs.git" = None.
Proof. repeat split; reflexivity. Qed.

End ImagePaths.

(** ** Image references that cannot be resolved *)

Section UnresolvedImages.

Lemma lookup_from_git (w : World) (image_path : string) :
  environ_unset w ->
  lookup_github_repo w image_path =
  match git_remote_origin_url w with
  | Ok stdout =>
      match repo_of_remote_url (str_strip_space stdout) with
      | Some repo => Ok (inl repo)
      | None => Ok (inr (NotGitHubUrl image_path))
      end
  | Raise CalledProcessError => Ok (inr (NoRepositoryName image_path CalledProcessError))
  | Raise TimeoutExpired => Ok (inr (NoRepositoryName image_path TimeoutExpired))
  | Raise e => Raise e
  end.
Proof. unfold lookup_github_repo. intros [-> | ->]; reflexivity. Qed.

(** C7, as the code has it.  When the repository cannot be determined or
    the path cannot be resolved, [replace_image] returns the reference as it
    was, prints one warning and raises nothing. *)
Theorem unresolved_image_kept (w : World) (source_file : Path.t) (m : Match)
    (warning : warning) :
  is_external_image (group m 2) = false ->
  unresolved w source_file (group m 2) warning ->
  replace_image w source_file m = IO (Ok (group m 0)) [] [warning].
Proof.
  intros Hext H. unfold replace_image. rewrite Hext.
  destruct H as [Henv Hgit | Henv Hgit | stdout Henv Hgit Hrepo
                 | repo e Hrepo Hres He | repo p Hrepo Hres Hcwd
                 | repo p root Hrepo Hres Hcwd Hout].
  - rewrite (lookup_from_git _ _ Henv), Hgit. reflexivity.
  - rewrite (lookup_from_git _ _ Henv), Hgit. reflexivity.
  - rewrite (lookup_from_git _ _ Henv), Hgit, Hrepo. reflexivity.
  - rewrite Hrepo. unfold wiki_image_path. rewrite Hres.
    destruct He as [-> | ->]; reflexivity.
  - rewrite Hrepo. unfold wiki_image_path. rewrite Hres, Hcwd. reflexivity.
  - rewrite Hrepo. unfold wiki_image_path. rewrite Hres, Hcwd.
    cbn [result_bind]. unfold Path.relative_to.
    destruct Hout as [Habs | Hout].
    + apply Bool.eqb_false_iff in Habs. now rewrite Habs.
    + rewrite Hout. now destruct (Bool.eqb _ _).
Qed.

Lemma unresolved_image_kept_witness :
  let m := {| m_start := 0; m_group0 := "![logo](../../../logo.png)";
              m_groups := ["logo"; "../../../logo.png"] |} in
  let source_file := Path.of_string "docs/guide/page.md" in
  is_external_image (group m 2) = false
  /\ Path.strip_parts ["home"; "runner"; "work"; "docs"] ["home"; "runner"; "work"; "logo.png"]
     = None
  /\ replace_image remote_checkout source_file m
     = IO (Ok "![logo](../../../logo.png)") []
          [NoImagePath "../../../logo.png" source_file ValueError].
Proof.
  cbv zeta. split; [reflexivity|]. split; [reflexivity|].
  apply (unresolved_image_kept remote_checkout); [reflexivity|].
  apply (outside_root remote_checkout _ _ "alice/docs"
           (Path.of_string "/home/runner/work/logo.png")
           (Path.of_string "/home/runner/work/docs"));
    try reflexivity.
  right. reflexivity.
Defined.

(** C7, as it is stated, fails on a file that does not exist: nothing in
    [replace_image] looks for the file, the reference is rewritten and no
    warning is printed. *)
Lemma missing_image_is_rewritten :
  read_file remote_checkout (Path.of_string "docs/guide/missing.png") = None
  /\ convert_image_paths remote_checkout "![x](missing.png)"
       (Path.of_string "docs/guide/page.md")
     = IO (Ok "![x](https://raw.githubusercontent.com/alice/docs/main/docs/guide/missing.png)")
          [] [].
Proof. split; reflexivity. Qed.

(** An exception the first [try] does not name is not caught: when [git]
    cannot be started the conversion of the document ends with it. *)
Example git_not_started_raises :
  value (convert_image_paths
           {| DOCS_DIR := Path.of_string "docs";
              mkdocs_yml := None;
              environ_GITHUB_REPOSITORY := None;
              git_remote_origin_url := Raise OSError;
              cwd := Ok (Path.of_string "/work/docs");
              resolve := fun p => Ok p;
              read_file := fun _ => None;
              docs_md_files := [] |}
           "![x](pic.png)" (Path.of_string "docs/page.md"))
  = Raise OSError.
Proof. reflexivity. Qed.

End UnresolvedImages.

(** ** Page names the normalization leaves alone *)

Section Clean.

Lemma forallb_all (q : ascii -> bool) (s : string) :
  (forall c, q c = true) -> Str.forallb q s = true.
Proof. intros H. induction s as [|c s IH]; simpl; [reflexivity|]. now rewrite H, IH. Qed.

Lemma dashed_map (value : string) :
  dashed value
  = Str.map (fun c => if Ascii.eqb "_" c then "-"%char else c)
      (Str.map (fun c => if Ascii.eqb "/" c then "-"%char else c)
         (str_replace value ".md" "")).
Proof. unfold dashed. now rewrite !str_replace_char. Qed.

Lemma dashed_length (value : string) :
  length (dashed value) = length (str_replace value ".md" "").
Proof. now rewrite dashed_map, !length_map. Qed.

(** After the replacements no separator and no underscore is left. *)
Lemma dashed_flat (value : string) : Str.forallb flat_char (dashed value) = true.
Proof.
  rewrite dashed_map, !forallb_map. apply forallb_all. intros c.
  unfold flat_char.
  destruct (Ascii.eqb_spec "/" c) as [<-|H1]; [reflexivity|].
  destruct (Ascii.eqb_spec "_" c) as [<-|H2]; [reflexivity|].
  apply Ascii.eqb_neq in H1, H2. now rewrite H1, H2.
Qed.

Lemma wiki_page_flat (link_path : string) :
  Str.forallb flat_char (wiki_page link_path) = true.
Proof.
  rewrite wiki_page_steps. apply str_remove_forallb; [reflexivity|].
  unfold str_strip. apply rstrip_forallb, lstrip_forallb, lstrip_forallb.
  apply dashed_flat.
Qed.

Lemma flat_no_separator (s : string) :
  Str.forallb flat_char s = true ->
  Str.contains "/" s = false /\ Str.contains "_" s = false.
Proof.
  intros H. rewrite !contains_char. split; apply negb_false_iff.
  - revert H. apply forallb_impl. unfold flat_char. intros c Hc.
    now apply andb_true_iff in Hc as [-> _].
  - revert H. apply forallb_impl. unfold flat_char. intros c Hc.
    now apply andb_true_iff in Hc as [_ ->].
Qed.

Lemma dashed_absent (value : string) :
  Str.contains ".md" value = false -> Str.contains "/" value = false ->
  Str.contains "_" value = false -> dashed value = value.
Proof.
  intros H1 H2 H3. unfold dashed.
  rewrite (str_replace_absent ".md" "" eq_refl _ H1).
  rewrite (str_replace_absent "/" "-" eq_refl _ H2).
  now rewrite (str_replace_absent "_" "-" eq_refl _ H3).
Qed.

Lemma first_in_split (s : string) :
  first_in (char_in ".-") s = false ->
  first_in (one_of "./") s = false \/ Str.contains "/" s = true.
Proof.
  destruct s as [|c s]; [now left|]. unfold first_in, one_of.
  cbn [Str.first char_in]. rewrite !orb_false_r. intros H.
  apply orb_false_iff in H as [H1 H2]. rewrite H1. cbn [orb].
  destruct (Ascii.eqb_spec c "/") as [->|]; [right; reflexivity | now left].
Qed.

Lemma first_in_dash (s : string) :
  first_in (char_in ".-") s = false -> first_in (char_in "-") s = false.
Proof.
  destruct s as [|c s]; [reflexivity|]. unfold first_in.
  cbn [Str.first char_in]. rewrite !orb_false_r. intros H.
  now apply orb_false_iff in H as [_ H].
Qed.

Lemma first_in_join (s : string) :
  first_in (one_of "./") s = false -> first_in (char_in "-") s = false ->
  first_in (char_in ".-") s = false.
Proof.
  destruct s as [|c s]; [reflexivity|]. unfold first_in, one_of.
  cbn [Str.first char_in]. rewrite !orb_false_r. intros H1 H2.
  apply orb_false_iff in H1 as [H1 _]. now rewrite H1, H2.
Qed.

(** On a trimmed name only the removal of [-index] is left to do. *)
Lemma wiki_page_trimmed (s : string) :
  trimmed s = true -> wiki_page s = str_replace s "-index" "".
Proof.
  unfold trimmed. intros H.
  repeat (apply andb_true_iff in H as [H ?]).
  repeat match goal with X : negb _ = true |- _ => apply negb_true_iff in X end.
  rewrite wiki_page_steps, dashed_absent by assumption.
  assert (F1 : first_in (one_of "./") s = false).
  { match goal with X : first_in (char_in ".-") s = false |- _ =>
      destruct (first_in_split _ X) as [F|F]; [exact F | congruence] end. }
  rewrite (proj2 (lstrip_fixed _ _) F1). unfold str_strip.
  rewrite (proj2 (lstrip_fixed _ _) (first_in_dash _ ltac:(eassumption))).
  now rewrite (proj2 (rstrip_fixed _ _) ltac:(eassumption)).
Qed.

(** The normalization returns a clean name as it is ... *)
Lemma wiki_page_of_clean (s : string) : clean s = true -> wiki_page s = s.
Proof.
  unfold clean. intros H. apply andb_true_iff in H as [Ht Hidx].
  apply negb_true_iff in Hidx.
  rewrite (wiki_page_trimmed _ Ht). now apply str_replace_absent.
Qed.

(** ... and returns nothing else as it is. *)
Lemma wiki_page_fixed_is_clean (s : string) : wiki_page s = s -> clean s = true.
Proof.
  intros H.
  pose proof (wiki_page_flat s) as Hflat. rewrite H in Hflat.
  destruct (flat_no_separator _ Hflat) as [Hslash Hunder].
  pose proof (f_equal length H) as L. rewrite wiki_page_steps in L, H.
  unfold str_strip in L, H.
  pose proof (str_remove_length ".md" eq_refl s) as P1.
  pose proof (dashed_length s) as P2.
  pose proof (lstrip_length (one_of "./") (dashed s)) as P3.
  pose proof (lstrip_length (char_in "-")
                (lstrip_while (one_of "./") (dashed s))) as P4.
  pose proof (rstrip_length (char_in "-")
                (lstrip_while (char_in "-")
                   (lstrip_while (one_of "./") (dashed s)))) as P5.
  pose proof (str_remove_length "-index" eq_refl
                (rstrip_while (char_in "-")
                   (lstrip_while (char_in "-")
                      (lstrip_while (one_of "./") (dashed s))))) as P6.
  assert (Hmd : Str.contains ".md" s = false)
    by (apply str_remove_same_length; [reflexivity | lia]).
  rewrite (dashed_absent _ Hmd Hslash Hunder) in *.
  assert (F1 : first_in (one_of "./") s = false)
    by (apply lstrip_same_length; lia).
  rewrite (proj2 (lstrip_fixed _ _) F1) in *.
  assert (F2 : first_in (char_in "-") s = false)
    by (apply lstrip_same_length; lia).
  rewrite (proj2 (lstrip_fixed _ _) F2) in *.
  assert (R : rstrip_while (char_in "-") s = s)
    by (apply rstrip_same_length; lia).
  rewrite R in *.
  assert (Hidx : Str.contains "-index" s = false)
    by (apply str_remove_same_length; [reflexivity | lia]).
  unfold clean, trimmed.
  rewrite Hmd, Hslash, Hunder, Hidx, (first_in_join _ F1 F2),
    (proj1 (rstrip_fixed _ _) R).
  reflexivity.
Qed.

(** C2, as the code has it.  The normalization returns a name unchanged
    exactly when the name is clean; so applying it twice gives the same as
    applying it once exactly when the first result is clean. *)
Theorem wiki_page_idempotent_iff_clean (link_path : string) :
  (wiki_page link_path = link_path <-> clean link_path = true)
  /\ (wiki_page (wiki_page link_path) = wiki_page link_path
      <-> clean (wiki_page link_path) = true).
Proof.
  split; split;
    (apply wiki_page_fixed_is_clean || apply wiki_page_of_clean).
Qed.

Lemma wiki_page_idempotent_iff_clean_witness :
  clean (wiki_page "../other/page.md") = true
  /\ wiki_page (wiki_page "../other/page.md") = wiki_page "../other/page.md".
Proof.
  split; [reflexivity|].
  apply (proj2 (proj2 (wiki_page_idempotent_iff_clean "../other/page.md"))).
  reflexivity.
Defined.

(** C2, as it is stated, fails: a second pass strips the dash that the
    removal of [-index] has left at the end. *)
Lemma wiki_page_not_idempotent :
  wiki_page "api_/index.md" = "api-"
  /\ wiki_page (wiki_page "api_/index.md") = "api"
  /\ wiki_page (wiki_page "api_/index.md") <> wiki_page "api_/index.md".
Proof.
  split; [reflexivity|]. split; [reflexivity|].
  intros H. vm_compute in H. discriminate H.
Qed.

(** The examples of the specification. *)
Example wiki_page_examples :
  wiki_page "chapter/page.md" = "chapter-page"
  /\ wiki_page "../other/page.md" = "other-page"
  /\ wiki_page "guide/index.md" = "guide".
Proof. repeat split; reflexivity. Qed.

End Clean.

(** ** What the normalization removes *)

Section Words.


Lemma no_char_app (o : ascii) (a b : string) :
  no_char o (a ++ b) = no_char o a && no_char o b.
Proof. apply forallb_app. Qed.



Lemma last_app (a b : string) :
  Str.last (a ++ b) = match Str.last b with Some c => Some c | None => Str.last a end.
Proof.
  induction a as [|x a IH]; cbn [append Str.last].
  - now destruct (Str.last b).
  - rewrite IH. destruct (Str.last b); [reflexivity|]. now destruct (Str.last a).
Qed.





End Words.

Section Removal.






Lemma map_app (f : ascii -> ascii) (a b : string) :
  Str.map f (a ++ b) = Str.map f a ++ Str.map f b.
Proof. induction a as [|c a IH]; simpl; congruence. Qed.








End Removal.

Section Ends.

Lemma map_map (f g : ascii -> ascii) (s : string) :
  Str.map g (Str.map f s) = Str.map (fun c => g (f c)) s.
Proof. induction s as [|c s IH]; simpl; congruence. Qed.

Lemma map_ext (f g : ascii -> ascii) (s : string) :
  (forall c, f c = g c) -> Str.map f s = Str.map g s.
Proof. intros H. induction s as [|c s IH]; simpl; congruence. Qed.

Lemma dashed_to_dash (value : string) :
  dashed value = Str.map to_dash (str_replace value ".md" "").
Proof.
  rewrite dashed_map, map_map. apply map_ext. intros c. unfold to_dash.
  destruct (Ascii.eqb "/" c); [reflexivity|]. now destruct (Ascii.eqb "_" c).
Qed.


Lemma to_dash_other (c : ascii) :
  Ascii.eqb "/" c = false -> Ascii.eqb "_" c = false -> to_dash c = c.
Proof. unfold to_dash. intros -> ->. reflexivity. Qed.




End Ends.

(** ** Links the scan finds *)

Section FoundLinks.

Lemma star_greedy_run {R} (cls : ascii -> bool)
    (k : bool -> option string -> string -> option R) (x s : string) :
  forall bol g r,
    Str.forallb cls x = true -> first_in cls s = false ->
    k (if Str.nonempty x then false else bol) (Some (g ++ x)) s = Some r ->
    star_greedy cls k bol (Some g) (x ++ s) = Some r.
Proof.
  induction x as [|c x IH]; intros bol g r Hx Hs Hk.
  - cbn [append]. rewrite app_nil_r in Hk. cbn [Str.nonempty] in Hk.
    destruct s as [|c s]; [exact Hk|]. cbn [star_greedy].
    unfold first_in in Hs. cbn [Str.first] in Hs. now rewrite Hs.
  - cbn [Str.forallb] in Hx. apply andb_true_iff in Hx as [Hc Hx].
    cbn [append star_greedy]. rewrite Hc. cbn [push].
    rewrite (IH false (g ++ String c "") r Hx Hs); [reflexivity|].
    rewrite app_assoc. cbn [append]. cbn [Str.nonempty] in Hk.
    now destruct (Str.nonempty x).
Qed.

(** The pattern of links matches a label without [\]] followed by a
    target without [)], and captures the two. *)
Lemma link_re_matches (label target post : string) (bol : bool) :
  Str.nonempty label = true -> no_char "]" label = true ->
  Str.nonempty target = true -> no_char ")" target = true ->
  match_here link_re [] bol None ("[" ++ label ++ "](" ++ target ++ ")" ++ post)
  = Some ([label; target], post).
Proof.
  intros Hl1 Hl2 Ht1 Ht2.
  assert (Cl : forall c, negb (Ascii.eqb "]" c) = true -> none_of "]" c = true).
  { intros c H. unfold none_of. cbn [char_in]. rewrite orb_false_r, Ascii.eqb_sym.
    exact H. }
  assert (Ct : forall c, negb (Ascii.eqb ")" c) = true -> none_of ")" c = true).
  { intros c H. unfold none_of. cbn [char_in]. rewrite orb_false_r, Ascii.eqb_sym.
    exact H. }
  destruct label as [|l0 label]; [discriminate|].
  destruct target as [|t0 target]; [discriminate|].
  unfold no_char in Hl2, Ht2. cbn [Str.forallb] in Hl2, Ht2.
  apply andb_true_iff in Hl2 as [Hl0 Hl2]. apply andb_true_iff in Ht2 as [Ht0 Ht2].
  unfold link_re. cbn [lit List.app append match_here push].
  rewrite Ascii.eqb_refl, (Cl _ Hl0).
  apply star_greedy_run.
  - revert Hl2. apply forallb_impl. exact Cl.
  - reflexivity.
  - cbn [append match_here push List.app]. rewrite !Ascii.eqb_refl, (Ct _ Ht0).
    apply star_greedy_run.
    + revert Ht2. apply forallb_impl. exact Ct.
    + reflexivity.
    + cbn [append match_here push List.app]. now rewrite Ascii.eqb_refl.
Qed.

(** Before the first bracket nothing is found. *)
Lemma pieces_before_bracket (pre t : string) :
  forall pos,
    no_char "[" pre = true ->
    pieces link_re pos (pre ++ t)
    = (gaps pre ++ pieces link_re (pos + length pre) t)%list.
Proof.
  induction pre as [|c pre IH]; intros pos H.
  - cbn [append gaps List.app length]. now rewrite Nat.add_0_r.
  - unfold no_char in H. cbn [Str.forallb] in H.
    apply andb_true_iff in H as [Hc H].
    cbn [append]. rewrite pieces_cons.
    unfold try_at, link_re. cbn [lit List.app match_here].
    apply negb_true_iff in Hc. rewrite Hc.
    rewrite (IH _ H). cbn [gaps List.app length].
    now rewrite Nat.add_succ_r.
Qed.

(** The first link of a text is found where it stands. *)
Lemma first_link_found (pre label target post : string) :
  no_char "[" pre = true ->
  Str.nonempty label = true -> no_char "]" label = true ->
  Str.nonempty target = true -> no_char ")" target = true ->
  pieces link_re 0 (pre ++ ("[" ++ label ++ "](" ++ target ++ ")") ++ post)
  = (gaps pre
     ++ Hit {| m_start := length pre;
               m_group0 := "[" ++ label ++ "](" ++ target ++ ")";
               m_groups := [label; target] |}
     :: pieces link_re (length pre + length ("[" ++ label ++ "](" ++ target ++ ")"))
          post)%list.
Proof.
  intros Hpre Hl1 Hl2 Ht1 Ht2.
  rewrite (pieces_before_bracket _ _ _ Hpre). f_equal. cbn [Nat.add].
  pose proof (link_re_matches label target post (Nat.eqb (length pre) 0)
                Hl1 Hl2 Ht1 Ht2) as M.
  remember ("[" ++ label ++ "](" ++ target ++ ")") as span eqn:Espan.
  assert (E : "[" ++ label ++ "](" ++ target ++ ")" ++ post = span ++ post).
  { subst span. repeat (rewrite !app_assoc || cbn [append]). reflexivity. }
  rewrite E in M.
  destruct (span ++ post) as [|c s] eqn:Es.
  - subst span. discriminate.
  - rewrite pieces_cons. unfold try_at. rewrite M.
    assert (L : length (String c s) = length span + length post)
      by (rewrite <- Es; apply length_app).
    assert (0 < length span) by (subst span; cbn [append length]; lia).
    cbn [length] in L.
    destruct (Nat.ltb_spec (length post) (S (length s))) as [_|]; [|lia].
    replace (S (length s) - length post) with (length span) by lia.
    rewrite <- Es, take_app_length. reflexivity.
Qed.

Lemma get_last (pre t : string) (c : ascii) :
  Str.last pre = Some c ->
  0 < length pre /\ get (length pre - 1) (pre ++ t) = Some c.
Proof.
  induction pre as [|x pre IH]; [discriminate|]. cbn [Str.last length append].
  intros H. split; [lia|].
  replace (S (length pre) - 1) with (length pre) by lia.
  destruct (Str.last pre) as [d|] eqn:L.
  - destruct (IH H) as [Hpos Hget]. destruct (length pre) as [|n]; [lia|].
    cbn [get]. replace (S n - 1) with n in Hget by lia. exact Hget.
  - injection H as <-. destruct pre as [|y pre]; [reflexivity|].
    cbn [Str.last] in L. destruct (Str.last pre); discriminate.
Qed.

(** So the first link of a text, when it stands after a [!] or points
    outside, is in the output as it was, after the text before it. *)
Lemma first_protected_link_kept (pre label target post : string) :
  no_char "[" pre = true ->
  Str.nonempty label = true -> no_char "]" label = true ->
  Str.nonempty target = true -> no_char ")" target = true ->
  Str.last pre = Some "!"%char \/ is_external_link target = true ->
  exists rest,
    convert_mkdocs_to_wiki_link
      (pre ++ ("[" ++ label ++ "](" ++ target ++ ")") ++ post)
    = pre ++ ("[" ++ label ++ "](" ++ target ++ ")") ++ rest.
Proof.
  intros Hpre Hl1 Hl2 Ht1 Ht2 Hprot.
  pose proof (first_link_found pre label target post Hpre Hl1 Hl2 Ht1 Ht2) as F.
  remember (pre ++ ("[" ++ label ++ "](" ++ target ++ ")") ++ post) as text.
  destruct (found_match_in_place link_re (replace_link text) _ _ _ _ F)
    as (_ & _ & Hsub).
  eexists. unfold convert_mkdocs_to_wiki_link. rewrite Hsub, join_out_gaps.
  rewrite replace_link_protected; [reflexivity|].
  destruct Hprot as [Hbang | Hext]; [left | right; exact Hext].
  unfold preceded_by_bang. cbn [m_start]. subst text.
  destruct (get_last pre (("[" ++ label ++ "](" ++ target ++ ")") ++ post) _ Hbang)
    as [Hpos Hget].
  rewrite Hget. apply Nat.ltb_lt in Hpos. now rewrite Hpos.
Qed.

End FoundLinks.

(** ** Rewriting the links of a text, part by part *)

Section LinksByParts.

Lemma try_at_link_anywhere (pos : nat) (s : string) :
  try_at link_re pos s = try_at link_re 0 s.
Proof. unfold try_at, link_re. now destruct s. Qed.

Lemma shift_shift (a b : nat) (pc : piece) : shift a (shift b pc) = shift (a + b) pc.
Proof. destruct pc as [c|m]; cbn [shift m_start m_group0 m_groups]; [reflexivity|].
  now rewrite Nat.add_assoc. Qed.

Lemma shift_zero (l : list piece) : List.map (shift 0) l = l.
Proof.
  induction l as [|pc l IH]; [reflexivity|]. cbn [List.map]. rewrite IH.
  now destruct pc as [c|[a b c]].
Qed.

(** The pattern of links has no anchor: a scan that starts further on finds
    the same pieces, further on. *)
Lemma pieces_link_shift (s : string) :
  forall pos, pieces link_re pos s = List.map (shift pos) (pieces link_re 0 s).
Proof.
  induction s as [s IH] using string_length_ind.
  intros pos. destruct s as [|c s].
  - rewrite !pieces_nil. unfold try_at, link_re. reflexivity.
  - rewrite !pieces_cons, (try_at_link_anywhere pos).
    destruct (try_at link_re 0 (String c s)) as [[caps rest]|] eqn:E.
    + apply match_here_suffix in E. apply suffix_of_length in E.
      destruct (Nat.ltb_spec (length rest) (S (length s))) as [Hlt|Hge].
      * cbn [List.map shift m_start m_group0 m_groups].
        rewrite Nat.add_0_r. f_equal.
        rewrite (IH rest) by (cbn [length]; lia).
        rewrite (IH rest ltac:(cbn [length]; lia) (0 + _)).
        rewrite List.map_map. apply List.map_ext. intros pc.
        now rewrite shift_shift.
      * cbn [List.map shift m_start m_group0 m_groups].
        rewrite Nat.add_0_r. do 2 f_equal.
        rewrite (IH s) by (cbn [length]; lia).
        rewrite (IH s ltac:(cbn [length]; lia) 1).
        rewrite List.map_map. apply List.map_ext. intros pc.
        rewrite shift_shift. now rewrite Nat.add_1_r.
    + cbn [List.map shift]. f_equal.
      rewrite (IH s) by (cbn [length]; lia).
      rewrite (IH s ltac:(cbn [length]; lia) 1).
      rewrite List.map_map. apply List.map_ext. intros pc.
      rewrite shift_shift. now rewrite Nat.add_1_r.
Qed.

Lemma get_app_right (a post : string) (n : nat) :
  get (length a + n) (a ++ post) = get n post.
Proof. induction a as [|x a IH]; [reflexivity|]. exact IH. Qed.

Lemma preceded_shift (a post : string) (m : Match) :
  last_in (Ascii.eqb "!") a = false ->
  preceded_by_bang (a ++ post)
    {| m_start := length a + m_start m; m_group0 := m_group0 m;
       m_groups := m_groups m |}
  = preceded_by_bang post m.
Proof.
  intros Ha. unfold preceded_by_bang. cbn [m_start].
  destruct (m_start m) as [|n].
  - rewrite Nat.add_0_r. cbn [Nat.ltb Nat.leb andb].
    destruct (Str.last a) as [c|] eqn:L.
    + destruct (get_last a post c L) as [Hpos Hget]. rewrite Hget.
      unfold last_in in Ha. rewrite L in Ha. cbn [char_eq_opt].
      rewrite Ascii.eqb_sym, Ha. apply andb_false_r.
    + destruct a as [|x a]; [reflexivity|].
      cbn [Str.last] in L. destruct (Str.last a); discriminate.
  - replace (length a + S n - 1) with (length a + n) by lia.
    replace (S n - 1) with n by lia. rewrite get_app_right.
    replace (Nat.ltb 0 (length a + S n)) with true
      by (symmetry; apply Nat.ltb_lt; lia).
    reflexivity.
Qed.

(** After a text that does not end with [!], what follows is rewritten as
    it would be on its own. *)
Lemma sub_link_suffix (a post : string) :
  last_in (Ascii.eqb "!") a = false ->
  Str.join (List.map (out (replace_link (a ++ post)))
                     (pieces link_re (length a) post))
  = convert_mkdocs_to_wiki_link post.
Proof.
  intros Ha. unfold convert_mkdocs_to_wiki_link, Re.sub.
  rewrite pieces_link_shift, List.map_map. f_equal.
  apply List.map_ext. intros [c|m]; cbn [shift out]; [reflexivity|].
  unfold replace_link. rewrite (preceded_shift a post m Ha).
  reflexivity.
Qed.

Lemma bang_before (pre t : string) :
  Nat.ltb 0 (length pre) && char_eq_opt (get (length pre - 1) (pre ++ t)) "!"
  = last_in (Ascii.eqb "!") pre.
Proof.
  unfold last_in. destruct (Str.last pre) as [c|] eqn:L.
  - destruct (get_last pre t c L) as [Hpos Hget]. rewrite Hget.
    apply Nat.ltb_lt in Hpos. rewrite Hpos. cbn [andb char_eq_opt].
    apply Ascii.eqb_sym.
  - destruct pre as [|x pre]; [reflexivity|].
    cbn [Str.last] in L. destruct (Str.last pre); discriminate.
Qed.

Lemma last_in_app_char (p : ascii -> bool) (a : string) (c : ascii) :
  last_in p (a ++ String c "") = p c.
Proof. unfold last_in. now rewrite last_app. Qed.

(** X1.  The first link of a text is rewritten on its own and the text
    after it as if it stood alone: the text before the link stays, the link
    keeps its label and gets the page name of its target (or stays as it is
    after a [!] or with a target that points outside), and the rest is the
    conversion of the rest. *)
Theorem convert_first_link (pre label target post : string) :
  no_char "[" pre = true ->
  Str.nonempty label = true -> no_char "]" label = true ->
  Str.nonempty target = true -> no_char ")" target = true ->
  convert_mkdocs_to_wiki_link
    (pre ++ ("[" ++ label ++ "](" ++ target ++ ")") ++ post)
  = pre
    ++ (if last_in (Ascii.eqb "!") pre || is_external_link target
        then "[" ++ label ++ "](" ++ target ++ ")"
        else "[" ++ label ++ "](" ++ wiki_page target ++ ")")
    ++ convert_mkdocs_to_wiki_link post.
Proof.
  intros Hpre Hl1 Hl2 Ht1 Ht2.
  pose proof (first_link_found pre label target post Hpre Hl1 Hl2 Ht1 Ht2) as F.
  remember ("[" ++ label ++ "](" ++ target ++ ")") as span eqn:Espan.
  destruct (found_match_in_place link_re
              (replace_link (pre ++ span ++ post)) _ _ _ _ F) as (_ & _ & Hsub).
  unfold convert_mkdocs_to_wiki_link at 1. rewrite Hsub, join_out_gaps.
  f_equal. f_equal.
  - unfold replace_link, preceded_by_bang.
    cbn [m_start group m_groups m_group0 nth].
    rewrite bang_before.
    destruct (last_in (Ascii.eqb "!") pre); [reflexivity|].
    cbn [orb]. now destruct (is_external_link target).
  - rewrite <- length_app, <- app_assoc.
    apply sub_link_suffix.
    subst span. rewrite <- !app_assoc.
    replace (pre ++ "[" ++ label ++ "](" ++ target ++ ")")
      with ((pre ++ "[" ++ label ++ "](" ++ target) ++ ")")
      by (now rewrite !app_assoc).
    now rewrite last_in_app_char.
Qed.

Lemma convert_first_link_witness :
  no_char "[" "See " = true
  /\ convert_mkdocs_to_wiki_link
       ("See " ++ ("[" ++ "the guide" ++ "](" ++ "../guide/index.md" ++ ")")
        ++ " and ![map](img/map.png).")
     = "See [the guide](guide) and ![map](img/map.png).".
Proof.
  split; [reflexivity|].
  rewrite (convert_first_link "See " "the guide" "../guide/index.md"
             " and ![map](img/map.png)."); reflexivity.
Defined.

(** X2.  A text without an opening bracket has no link: it is returned as
    it is. *)
Theorem convert_without_bracket (text : string) :
  no_char "[" text = true -> convert_mkdocs_to_wiki_link text = text.
Proof.
  intros H. unfold convert_mkdocs_to_wiki_link, Re.sub.
  rewrite <- (app_nil_r text) at 2.
  rewrite (pieces_before_bracket text "" 0 H), pieces_nil.
  unfold try_at, link_re. cbn [lit List.app match_here].
  rewrite List.app_nil_r. apply join_out_gaps.
Qed.

Lemma convert_without_bracket_witness :
  no_char "[" "Plain text, with an address: docs/page.md" = true
  /\ convert_mkdocs_to_wiki_link "Plain text, with an address: docs/page.md"
     = "Plain text, with an address: docs/page.md".
Proof.
  split; [reflexivity|]. apply convert_without_bracket. reflexivity.
Defined.

End LinksByParts.

(** ** Image references and the world *)

Section ImagesAndWorld.

Lemma sub_io_ext (f g : Match -> io string) (l : list piece) :
  (forall m, In (Hit m) l -> f m = g m) -> sub_io f l = sub_io g l.
Proof.
  induction l as [|pc l IH]; intros H; [reflexivity|].
  destruct pc as [c|m]; cbn [sub_io].
  - rewrite IH; [reflexivity|]. intros m Hm. apply H. now right.
  - rewrite (H m) by now left. rewrite IH; [reflexivity|].
    intros m' Hm. apply H. now right.
Qed.

Lemma sub_io_pure (l : list piece) :
  sub_io (fun m => ret (m_group0 m)) l = ret (Str.join (List.map src l)).
Proof.
  induction l as [|pc l IH]; [reflexivity|].
  destruct pc as [c|m]; cbn [sub_io]; rewrite IH; reflexivity.
Qed.

(** X3.  A text whose image references all point to [http://] or
    [https://] comes back as it is, with no warning, whatever the
    environment, [git] and the file system answer. *)
Theorem external_images_untouched (w : World) (text : string) (source_file : Path.t) :
  (forall m, In (Hit m) (pieces image_re 0 text) ->
             is_external_image (group m 2) = true) ->
  convert_image_paths w text source_file = IO (Ok text) [] [].
Proof.
  intros H. unfold convert_image_paths.
  rewrite (sub_io_ext _ (fun m => ret (m_group0 m))).
  - rewrite sub_io_pure, pieces_src. reflexivity.
  - intros m Hm. unfold replace_image. now rewrite (H m Hm).
Qed.

Lemma external_images_untouched_witness :
  convert_image_paths (with_git remote_checkout (Raise OSError))
    "![build](https://ci.example.org/badge.svg) passing"
    (Path.of_string "docs/page.md")
  = IO (Ok "![build](https://ci.example.org/badge.svg) passing") [] [].
Proof.
  apply external_images_untouched. intros m Hm. vm_compute in Hm.
  repeat (destruct Hm as [Hm|Hm]; [try discriminate Hm|]); [|contradiction].
  injection Hm as <-. reflexivity.
Defined.

(** X4.  When [GITHUB_REPOSITORY] is set, [git] is not asked: the
    conversion of a text is the same whatever [git] would answer, also
    when it could not be started. *)
Theorem environ_repository_overrides_git (w : World) (answer : result string)
    (text : string) (source_file : Path.t) :
  environ_set w = true ->
  convert_image_paths (with_git w answer) text source_file
  = convert_image_paths w text source_file.
Proof.
  intros H. unfold convert_image_paths. apply sub_io_ext. intros m _.
  unfold replace_image, lookup_github_repo, wiki_image_path, environ_set in *.
  cbn [with_git environ_GITHUB_REPOSITORY resolve cwd].
  destruct (environ_GITHUB_REPOSITORY w) as [repo|]; [|discriminate].
  now rewrite H.
Qed.

Lemma environ_repository_overrides_git_witness :
  environ_set bare_checkout = true
  /\ convert_image_paths (with_git bare_checkout (Raise OSError))
       "![map](assets/map.png)" (Path.of_string "docs/page.md")
     = IO (Ok "![map](https://raw.githubusercontent.com/alice/docs/main/docs/assets/map.png)")
          [] [].
Proof.
  split; [reflexivity|].
  rewrite (environ_repository_overrides_git bare_checkout (Raise OSError));
    reflexivity.
Defined.

End ImagesAndWorld.

(** ** Images below the working directory *)

Section ImagesBelowRoot.

Lemma normalize_plain (l : list string) :
  List.forallb plain_component l = true -> Path.normalize l = l.
Proof.
  intros H. unfold Path.normalize. rewrite (normalize_stack _ _ H).
  now rewrite List.app_nil_r, List.rev_involutive.
Qed.

(** X5.  For a document and an image path without [..], neither of them
    absolute, under a working directory on which the resolution meets no
    symbolic link, the URL of the image is the raw URL of the repository
    followed by the directory of the document and the path of the image,
    backslashes turned into slashes. *)
Theorem image_below_document_resolved (w : World) (root source_file : Path.t)
    (github_repo image_path : string) :
  cwd w = Ok root ->
  Path.is_absolute root = true ->
  List.forallb plain_component (Path.parts root) = true ->
  Path.is_absolute source_file = false ->
  List.forallb plain_component (Path.parts (Path.parent source_file)) = true ->
  Path.is_absolute (Path.of_string image_path) = false ->
  List.forallb plain_component (Path.parts (Path.of_string image_path)) = true ->
  resolve w (Path.join (Path.parent source_file) image_path)
    = Ok (Path.lexical_resolve root (Path.join (Path.parent source_file) image_path)) ->
  wiki_image_path w source_file github_repo image_path
  = Ok ("https://raw.githubusercontent.com/" ++ github_repo ++ "/main/"
        ++ str_replace
             (Path.to_string
                {| Path.is_absolute := false;
                   Path.parts := (Path.parts (Path.parent source_file)
                                  ++ Path.parts (Path.of_string image_path))%list |})
             "\" "/").
Proof.
  intros Hcwd Habs Hroot Hsrc Hdir Himg Hparts Hres.
  unfold wiki_image_path. rewrite Hres, Hcwd. cbn [result_bind].
  unfold Path.lexical_resolve, Path.join. rewrite Himg.
  cbn [Path.is_absolute Path.parts Path.parent]. rewrite Hsrc.
  rewrite normalize_plain.
  2:{ rewrite !List.forallb_app, Hroot, Hparts.
      cbn [Path.parent Path.parts] in Hdir. now rewrite Hdir. }
  unfold Path.relative_to. cbn [Path.is_absolute Path.parts].
  rewrite Habs. cbn [Bool.eqb]. rewrite strip_parts_app. reflexivity.
Qed.

Lemma image_below_document_resolved_witness :
  cwd bare_checkout = Ok (Path.of_string "/work/docs")
  /\ wiki_image_path bare_checkout (Path.of_string "docs/guide/page.md")
       "alice/docs" "img/dia\gram.png"
     = Ok "https://raw.githubusercontent.com/alice/docs/main/docs/guide/img/dia/gram.png".
Proof.
  split; [reflexivity|].
  rewrite (image_below_document_resolved bare_checkout (Path.of_string "/work/docs"));
    reflexivity.
Defined.

End ImagesBelowRoot.

(** ** The repository of a remote *)

Section RemoteUrl.

(** A prefix found in front of [p ++ t] lies within [p], or is [p] and the
    beginning of [t]. *)
Lemma strip_prefix_across (p : string) :
  forall old t r,
    Str.strip_prefix old (p ++ t) = Some r ->
    (exists r', Str.strip_prefix old p = Some r')
    \/ (exists b, Str.nonempty b = true /\ old = p ++ b
                  /\ Str.strip_prefix b t = Some r).
Proof.
  induction p as [|c p IH]; intros old t r H.
  - destruct old as [|o old]; [left; now exists "" | right].
    exists (String o old). auto.
  - destruct old as [|o old]; [left; now exists (String c p)|].
    cbn [append Str.strip_prefix] in *.
    destruct (Ascii.eqb_spec o c) as [->|]; [|discriminate].
    destruct (IH _ _ _ H) as [[r' Hr] | (b & Hb & -> & Hr)].
    + left. now exists r'.
    + right. exists b. auto.
Qed.

(** Removing [old] from a text that ends with it and holds it nowhere else
    cuts the ending off. *)
Lemma str_remove_suffix (o : ascii) (old' p : string) :
  no_char o old' = true ->
  Str.contains (String o old') p = false ->
  str_replace (p ++ String o old') (String o old') "" = p.
Proof.
  intros Hold. induction p as [|c p IH]; intros Hp.
  - cbn [append]. rewrite <- (app_nil_r (String o old')) at 1.
    rewrite (str_replace_here (String o old') "" eq_refl "").
    now rewrite str_replace_nil.
  - destruct (contains_tail (String o old') c p Hp) as [Hhere Htail].
    cbn [append]. rewrite str_replace_cons by reflexivity.
    destruct (Str.strip_prefix (String o old') (String c (p ++ String o old')))
      as [r|] eqn:E.
    + exfalso.
      destruct (strip_prefix_across (String c p) _ _ _ E)
        as [[r' Hr] | (b & Hb & Hsplit & Hr)]; [congruence|].
      destruct b as [|x b]; [discriminate|].
      cbn [Str.strip_prefix] in Hr.
      destruct (Ascii.eqb_spec x o) as [->|]; [|discriminate].
      cbn [append] in Hsplit. injection Hsplit as _ Hsplit.
      rewrite Hsplit in Hold. unfold no_char in Hold.
      rewrite forallb_app in Hold. cbn [Str.forallb] in Hold.
      rewrite Ascii.eqb_refl in Hold. cbn [negb andb] in Hold.
      now rewrite andb_false_r in Hold.
    + now rewrite (IH Htail).
Qed.

Lemma first_in_app (p : ascii -> bool) (a b : string) :
  Str.nonempty a = true -> first_in p (a ++ b) = first_in p a.
Proof. now destruct a. Qed.

(** X6.  From the URL of a GitHub remote in any of the three shapes, with
    or without the ending [.git], the repository is what follows the
    prefix, when that neither starts nor ends with a slash and holds no
    [.git] of its own. *)
Theorem repo_of_remote_url_shapes (prefix repo : string) :
  In prefix [GITHUB_HTTPS_PREFIX; GITHUB_HTTP_PREFIX; GITHUB_GIT_PREFIX] ->
  Str.nonempty repo = true ->
  first_in (char_in "/") repo = false -> last_in (char_in "/") repo = false ->
  Str.contains ".git" repo = false ->
  repo_of_remote_url (prefix ++ repo ++ ".git") = Some repo
  /\ repo_of_remote_url (prefix ++ repo) = Some repo.
Proof.
  intros Hprefix Hne Hfirst Hlast Hgit.
  assert (Hpart : forall tail,
    Str.nonempty tail = true ->
    repo_of_remote_url (prefix ++ tail)
    = Some (str_replace (str_strip tail "/") ".git" "")).
  { intros tail Ht. unfold repo_of_remote_url.
    destruct Hprefix as [<- | [<- | [<- | []]]].
    - rewrite (proj2 (strip_prefix_app _ _ tail) eq_refl). now rewrite Ht.
    - replace (Str.strip_prefix GITHUB_HTTPS_PREFIX (GITHUB_HTTP_PREFIX ++ tail))
        with (@None string) by reflexivity.
      rewrite (proj2 (strip_prefix_app _ _ tail) eq_refl). now rewrite Ht.
    - replace (Str.strip_prefix GITHUB_HTTPS_PREFIX (GITHUB_GIT_PREFIX ++ tail))
        with (@None string) by reflexivity.
      replace (Str.strip_prefix GITHUB_HTTP_PREFIX (GITHUB_GIT_PREFIX ++ tail))
        with (@None string) by reflexivity.
      rewrite (proj2 (strip_prefix_app _ _ tail) eq_refl). now rewrite Ht. }
  split.
  - rewrite Hpart by now destruct repo.
    unfold str_strip.
    rewrite (proj2 (lstrip_fixed _ _)) by now rewrite first_in_app.
    rewrite (proj2 (rstrip_fixed _ _)) by (unfold last_in; now rewrite last_app).
    now rewrite (str_remove_suffix "." "git" repo eq_refl Hgit).
  - rewrite Hpart by assumption. unfold str_strip.
    rewrite (proj2 (lstrip_fixed _ _) Hfirst), (proj2 (rstrip_fixed _ _) Hlast).
    now rewrite (str_replace_absent ".git" "" eq_refl _ Hgit).
Qed.

Lemma repo_of_remote_url_shapes_witness :
  In GITHUB_GIT_PREFIX [GITHUB_HTTPS_PREFIX; GITHUB_HTTP_PREFIX; GITHUB_GIT_PREFIX]
  /\ repo_of_remote_url (GITHUB_GIT_PREFIX ++ "alice/docs.wiki" ++ ".git")
     = Some "alice/docs.wiki"
  /\ repo_of_remote_url (GITHUB_GIT_PREFIX ++ "alice/docs.wiki") = Some "alice/docs.wiki".
Proof.
  split; [right; right; left; reflexivity|].
  apply (repo_of_remote_url_shapes GITHUB_GIT_PREFIX "alice/docs.wiki");
    try reflexivity.
  right; right; left; reflexivity.
Defined.

(** [strip()] takes the white space of Unicode off the answer of [git], a
    no-break space as well as the newline. *)
Example remote_url_stripped :
  str_strip_space (no_break_space ++ "git@github.com:alice/docs.git" ++ " " ++ nl)
  = "git@github.com:alice/docs.git"
  /\ repo_of_remote_url
       (str_strip_space (no_break_space ++ "git@github.com:alice/docs.git" ++ nl))
     = Some "alice/docs".
Proof. split; vm_compute; reflexivity. Qed.

End RemoteUrl.

(** ** Where file names and link targets agree *)

Section Agreement.

Lemma first_map (f : ascii -> ascii) (s : string) :
  Str.first (Str.map f s) = option_map f (Str.first s).
Proof. now destruct s. Qed.

Lemma last_map (f : ascii -> ascii) (s : string) :
  Str.last (Str.map f s) = option_map f (Str.last s).
Proof.
  induction s as [|c s IH]; [reflexivity|]. cbn [Str.map Str.last].
  rewrite IH. now destruct (Str.last s).
Qed.

(** The page name of [stem ++ ".md"] before and after the strips, for a
    stem that begins with none of [./_-], ends with none of [/_-] and holds
    no [.md]. *)
Lemma dashed_stem (stem : string) :
  Str.contains ".md" stem = false ->
  first_in (char_in "./_-") stem = false ->
  last_in (char_in "/_-") stem = false ->
  dashed (stem ++ ".md") = Str.map to_dash stem
  /\ wiki_page (stem ++ ".md") = str_replace (Str.map to_dash stem) "-index" "".
Proof.
  intros Hmd Hfirst Hlast.
  assert (D : dashed (stem ++ ".md") = Str.map to_dash stem).
  { rewrite dashed_to_dash. now rewrite (str_remove_suffix "." "md" stem eq_refl Hmd). }
  split; [exact D|].
  rewrite wiki_page_steps, D.
  assert (F1 : first_in (one_of "./") (Str.map to_dash stem) = false
               /\ first_in (char_in "-") (Str.map to_dash stem) = false).
  { unfold first_in in *. rewrite first_map.
    destruct (Str.first stem) as [c|]; [|now split]. cbn [option_map].
    unfold one_of. cbn [char_in] in *.
    repeat (apply orb_false_iff in Hfirst as [? Hfirst]).
    rewrite to_dash_other by (rewrite Ascii.eqb_sym; assumption).
    split; repeat (apply orb_false_iff; split); assumption. }
  assert (L1 : last_in (char_in "-") (Str.map to_dash stem) = false).
  { unfold last_in in *. rewrite last_map.
    destruct (Str.last stem) as [c|]; [|reflexivity]. cbn [option_map].
    cbn [char_in] in *.
    repeat (apply orb_false_iff in Hlast as [? Hlast]).
    rewrite to_dash_other by (rewrite Ascii.eqb_sym; assumption).
    repeat (apply orb_false_iff; split); assumption. }
  destruct F1 as [F1 F2].
  rewrite (proj2 (lstrip_fixed _ _) F1). unfold str_strip.
  now rewrite (proj2 (lstrip_fixed _ _) F2), (proj2 (rstrip_fixed _ _) L1).
Qed.

(** X7.  For a path [stem.md] of the navigation whose stem begins with none
    of [./_-], ends with none of [/_-] and holds no [.md], the name the walk
    gives the file is the page name the link rewriting computes for the
    same string as a target. *)
Theorem nav_name_is_link_target (stem : string) :
  Str.contains ".md" stem = false ->
  first_in (char_in "./_-") stem = false ->
  last_in (char_in "/_-") stem = false ->
  nav_wiki_name (stem ++ ".md") = wiki_page (stem ++ ".md").
Proof.
  intros Hmd Hfirst Hlast.
  destruct (dashed_stem stem Hmd Hfirst Hlast) as [D W].
  rewrite W, <- D. reflexivity.
Qed.

Lemma nav_name_is_link_target_witness :
  Str.contains ".md" "user_guide/getting-started/index" = false
  /\ nav_wiki_name ("user_guide/getting-started/index" ++ ".md")
     = wiki_page ("user_guide/getting-started/index" ++ ".md").
Proof.
  split; [reflexivity|].
  apply (nav_name_is_link_target "user_guide/getting-started/index"); reflexivity.
Defined.

(** X8.  In the fallback the same holds for a file [stem.md] when, with its
    separators and underscores turned into dashes, the stem holds no
    [-index]: the file is written under the name links to it are rewritten
    to. *)
Theorem fallback_name_is_link_target (rel_path : Path.t) (stem : string) :
  Path.to_string rel_path = stem ++ ".md" ->
  Str.contains ".md" stem = false ->
  first_in (char_in "./_-") stem = false ->
  last_in (char_in "/_-") stem = false ->
  Str.contains "-index" (Str.map to_dash stem) = false ->
  fallback_wiki_name rel_path = wiki_page (Path.to_string rel_path).
Proof.
  intros Hpath Hmd Hfirst Hlast Hidx.
  destruct (dashed_stem stem Hmd Hfirst Hlast) as [D W].
  unfold fallback_wiki_name. fold (dashed (Path.to_string rel_path)).
  rewrite Hpath, W, D.
  now rewrite (str_replace_absent "-index" "" eq_refl _ Hidx).
Qed.

Lemma fallback_name_is_link_target_witness :
  Path.to_string (Path.of_string "api/v2/client_setup.md") = "api/v2/client_setup" ++ ".md"
  /\ fallback_wiki_name (Path.of_string "api/v2/client_setup.md")
     = wiki_page (Path.to_string (Path.of_string "api/v2/client_setup.md")).
Proof.
  split; [reflexivity|].
  apply (fallback_name_is_link_target _ "api/v2/client_setup"); reflexivity.
Defined.

End Agreement.

(** ** What the normalization does to a path *)

Section Normalizer.





End Normalizer.

(** ** The pages of a navigation *)

Section NavigationPages.

Lemma parse_nav_dict_cons (w : World) (key : string) (value : nav)
    (kvs : list (string * nav)) (prefix : string) :
  parse_nav_item w (NDict ((key, value) :: kvs)) prefix
  = (pages <-
       match value with
       | NStr value =>
           create_wiki_page w (full_title prefix key)
             (Path.join (DOCS_DIR w) value) (nav_wiki_name value) ;;;
           ret [(full_title prefix key, nav_wiki_name value)]
       | NList sub_items => each_of (fun sub_item => parse_nav_item w sub_item key) sub_items
       | _ => ret []
       end ;;
     more <- parse_nav_item w (NDict kvs) prefix ;;
     ret (pages ++ more)%list).
Proof.
  cbn [parse_nav_item]. f_equal.
  destruct value as [v|sub_items|items|]; try reflexivity.
  induction sub_items as [|x l IH]; [reflexivity|].
  cbn [each_of]. rewrite <- IH. reflexivity.
Qed.

Lemma nav_entries_dict_cons (key : string) (value : nav)
    (kvs : list (string * nav)) (prefix : string) :
  nav_entries (NDict ((key, value) :: kvs)) prefix
  = (match value with
     | NStr value => [(full_title prefix key, nav_wiki_name value)]
     | NList sub_items => flat_map (fun sub_item => nav_entries sub_item key) sub_items
     | _ => []
     end ++ nav_entries (NDict kvs) prefix)%list.
Proof. reflexivity. Qed.

Lemma list_sum_cons (x : nat) (l : list nat) : list_sum (x :: l) = x + list_sum l.
Proof. reflexivity. Qed.

Lemma nav_size_pos (item : nav) : 0 < nav_size item.
Proof. destruct item; cbn [nav_size]; lia. Qed.

Lemma nav_size_in (x : nav) (l : list nav) :
  In x l -> nav_size x <= list_sum (List.map nav_size l).
Proof.
  induction l as [|y l IH]; intros H; [contradiction|].
  cbn [List.map]. rewrite list_sum_cons.
  destruct H as [->|H]; [lia|]. specialize (IH H). lia.
Qed.

Lemma value_each_of (f : nav -> io (list page)) (g : nav -> list page)
    (l : list nav) :
  (forall x pages, In x l -> value (f x) = Ok pages -> pages = g x) ->
  forall pages, value (each_of f l) = Ok pages -> pages = flat_map g l.
Proof.
  induction l as [|x l IH]; intros Hf pages H.
  - now injection H as <-.
  - cbn [each_of] in H.
    apply value_bind in H as (a & Ha & H).
    apply value_bind in H as (b & Hb & H).
    apply value_ret in H as <-. cbn [flat_map].
    rewrite (Hf x a (or_introl eq_refl) Ha).
    rewrite (IH (fun y p Hy => Hf y p (or_intror Hy)) b Hb). reflexivity.
Qed.

Lemma nav_pages_each (w : World) (nav : list nav) :
  nav_pages w nav = each_of (fun item => parse_nav_item w item "") nav.
Proof. induction nav as [|x l IH]; [reflexivity|]. cbn [nav_pages each_of]. now rewrite IH. Qed.

(** The entries [parse_nav_item] returns are those of the item. *)
Lemma parse_nav_item_entries (w : World) (n : nat) :
  forall item prefix pages,
    nav_size item < n ->
    value (parse_nav_item w item prefix) = Ok pages ->
    pages = nav_entries item prefix.
Proof.
  induction n as [|n IH]; intros item prefix pages Hn H; [lia|].
  destruct item as [s|l|kvs|].
  - cbn [parse_nav_item] in H. apply value_bind in H as (u & _ & H).
    now apply value_ret in H as <-.
  - now injection H as <-.
  - destruct kvs as [|[key v] kvs]; [now injection H as <-|].
    rewrite parse_nav_dict_cons in H. rewrite nav_entries_dict_cons.
    apply value_bind in H as (here & Hhere & H).
    apply value_bind in H as (more & Hmore & H).
    apply value_ret in H as <-.
    cbn [nav_size List.map snd] in Hn. rewrite list_sum_cons in Hn.
    assert (Hsmall : nav_size (NDict kvs) < n).
    { pose proof (nav_size_pos v). cbn [nav_size]. lia. }
    rewrite (IH (NDict kvs) prefix more Hsmall Hmore).
    f_equal.
    destruct v as [v|sub_items|items|].
    + apply value_bind in Hhere as (u & _ & Hhere).
      now apply value_ret in Hhere as <-.
    + apply (value_each_of _ (fun sub_item => nav_entries sub_item key) _) in Hhere;
        [exact Hhere|].
      intros x p Hx Hp. apply (IH x key p); [|exact Hp].
      pose proof (nav_size_in x sub_items Hx) as Hx'.
      cbn [nav_size] in Hn. lia.
    + now injection Hhere as <-.
    + now injection Hhere as <-.
  - now injection H as <-.
Qed.

(** X9.  The pages the walk over the navigation returns are read off the
    navigation alone: which documents exist and what they hold changes the
    files written and the warnings, not the entries of the sidebar. *)
Theorem pages_depend_on_navigation_only (w : World) (nav : list nav)
    (pages : list page) :
  value (nav_pages w nav) = Ok pages ->
  pages = flat_map (fun item => nav_entries item "") nav.
Proof.
  rewrite nav_pages_each. apply value_each_of.
  intros item p _ Hp.
  exact (parse_nav_item_entries w (S (nav_size item)) item "" p (Nat.lt_succ_diag_r _) Hp).
Qed.

Lemma pages_depend_on_navigation_only_witness :
  value (nav_pages nested_checkout nested_nav)
  = Ok [("Home", "index"); ("Guide Start", "guide-start");
        ("Advanced Tuning", "guide-adv-tuning"); ("", "guide-notes")]
  /\ [("Home", "index"); ("Guide Start", "guide-start");
      ("Advanced Tuning", "guide-adv-tuning"); ("", "guide-notes")]
     = flat_map (fun item => nav_entries item "") nested_nav.
Proof.
  split; [reflexivity|].
  apply (pages_depend_on_navigation_only nested_checkout nested_nav). reflexivity.
Defined.

(** X10.  The title of a page carries the key of the section it stands in
    and of no section further out: on a mapping that holds sections only,
    the walk does the same whatever prefix it is given. *)
Theorem section_prefix_not_inherited (w : World) (kvs : list (string * nav))
    (prefix prefix' : string) :
  sections_only kvs = true ->
  parse_nav_item w (NDict kvs) prefix = parse_nav_item w (NDict kvs) prefix'.
Proof.
  induction kvs as [|[key v] kvs IH]; intros H; [reflexivity|].
  cbn [sections_only List.forallb snd] in H. apply andb_true_iff in H as [Hv H].
  rewrite !parse_nav_dict_cons, (IH H).
  destruct v; [discriminate | reflexivity | reflexivity | reflexivity].
Qed.

Lemma section_prefix_not_inherited_witness :
  sections_only [("Advanced", NList [NDict [("Tuning", NStr "guide/adv/tuning.md")]])] = true
  /\ parse_nav_item nested_checkout
       (NDict [("Advanced", NList [NDict [("Tuning", NStr "guide/adv/tuning.md")]])])
       "Guide"
     = IO (Ok [("Advanced Tuning", "guide-adv-tuning")]) []
          [FileMissing (Path.of_string "docs/guide/adv/tuning.md")].
Proof.
  split; [reflexivity|].
  rewrite (section_prefix_not_inherited nested_checkout _ "Guide" ""); reflexivity.
Defined.

End NavigationPages.

(** ** Image conversions that do not raise *)

Section CalmRuns.

Lemma returns_ret {A} (a : A) : returns (ret a).
Proof. now exists a. Qed.

Lemma returns_bind {A B} (m : io A) (k : A -> io B) :
  returns m -> (forall a, returns (k a)) -> returns (bind m k).
Proof.
  intros [a Ha] Hk. destruct (Hk a) as [b Hb]. exists b.
  apply value_bind. eauto.
Qed.

Lemma returns_warn (x : warning) : returns (warn x).
Proof. now exists tt. Qed.

Lemma returns_sub_io (repl : Match -> io string) (l : list piece) :
  (forall m, returns (repl m)) -> returns (sub_io repl l).
Proof.
  intros H. induction l as [|[c|m] l IH]; cbn [sub_io].
  - apply returns_ret.
  - apply returns_bind; [exact IH | intros; apply returns_ret].
  - apply returns_bind; [apply H|]. intros s.
    apply returns_bind; [exact IH | intros; apply returns_ret].
Qed.

Lemma replace_image_returns (w : World) (source_file : Path.t) (m : Match) :
  calm w -> returns (replace_image w source_file m).
Proof.
  intros (Hrepo & Hcwd & Hres). unfold replace_image.
  destruct (is_external_image (group m 2)); [apply returns_ret|].
  assert (L : exists r, lookup_github_repo w (group m 2) = Ok r).
  { unfold lookup_github_repo, environ_set in *.
    destruct (environ_GITHUB_REPOSITORY w) as [repo|].
    - destruct (Str.nonempty repo); [eauto|].
      destruct Hrepo as [|Hgit]; [discriminate|].
      destruct (git_remote_origin_url w) as [out|[]]; try discriminate; eauto.
      destruct (repo_of_remote_url _); eauto.
    - destruct Hrepo as [|Hgit]; [discriminate|].
      destruct (git_remote_origin_url w) as [out|[]]; try discriminate; eauto.
      destruct (repo_of_remote_url _); eauto. }
  destruct L as [r ->].
  apply returns_bind; [now exists r|]. intros [repo|warning].
  - assert (S : settled (wiki_image_path w source_file repo (group m 2)) = true).
    { unfold wiki_image_path.
      specialize (Hres (Path.join (Path.parent source_file) (group m 2))).
      destruct (resolve w _) as [p|e]; [|exact Hres]. cbn [result_bind].
      destruct (cwd w) as [root|e]; [|exact Hcwd]. cbn [result_bind].
      unfold Path.relative_to.
      destruct (Bool.eqb _ _); [|reflexivity].
      now destruct (Path.strip_parts _ _). }
    destruct (wiki_image_path w source_file repo (group m 2)) as [url|[]];
      try discriminate; try apply returns_ret;
      (apply returns_bind; [apply returns_warn | intros; apply returns_ret]).
  - apply returns_bind; [apply returns_warn | intros; apply returns_ret].
Qed.

(** X11.  In a calm world the image conversion of a document raises
    nothing, whatever the text: a repository that cannot be found and a
    path that cannot be resolved leave a warning and the reference as it
    was, and the conversion comes to its end. *)
Theorem image_conversion_returns_in_calm_world (w : World) (text : string)
    (source_file : Path.t) :
  calm w ->
  exists converted, value (convert_image_paths w text source_file) = Ok converted.
Proof.
  intros Hw. apply returns_sub_io. intros m. now apply replace_image_returns.
Qed.

Lemma image_conversion_returns_in_calm_world_witness :
  calm rough_checkout
  /\ (exists converted,
        value (convert_image_paths rough_checkout
                 "See ![fig](../img/fig.png) and ![ci](https://ci.example/b.svg)"
                 (Path.of_string "docs/guide/start.md"))
        = Ok converted)
  /\ convert_image_paths rough_checkout
       "See ![fig](../img/fig.png) and ![ci](https://ci.example/b.svg)"
       (Path.of_string "docs/guide/start.md")
     = IO (Ok "See ![fig](../img/fig.png) and ![ci](https://ci.example/b.svg)")
          [] [NoRepositoryName "../img/fig.png" TimeoutExpired].
Proof.
  assert (C : calm rough_checkout).
  { split; [right; reflexivity|]. split; [reflexivity|]. intros p. reflexivity. }
  split; [exact C|]. split; [|reflexivity].
  apply image_conversion_returns_in_calm_world. exact C.
Defined.

End CalmRuns.

(** ** The files of a run *)

Section FilesWritten.

Lemma written_bind {A B} (m : io A) (k : A -> io B) :
  written (bind m k)
  = (written m ++ match value m with Ok a => written (k a) | Raise _ => [] end)%list.
Proof.
  unfold bind. destruct (value m) as [a|e]; simpl; [reflexivity|].
  now rewrite List.app_nil_r.
Qed.

Lemma in_written_bind {A B} (m : io A) (k : A -> io B) (f : string * string) :
  In f (written (bind m k)) ->
  In f (written m) \/ exists a, In f (written (k a)).
Proof.
  rewrite written_bind. intros H. apply in_app_or in H as [H|H]; [now left|].
  destruct (value m) as [a|e]; [right; now exists a | contradiction].
Qed.

Lemma written_sub_io (repl : Match -> io string) (l : list piece) :
  (forall m, written (repl m) = []) -> written (sub_io repl l) = [].
Proof.
  intros H. induction l as [|[c|m] l IH]; cbn [sub_io]; [reflexivity| |].
  - rewrite written_bind, IH. now destruct (value _).
  - rewrite written_bind, H. destruct (value (repl m)); [|reflexivity].
    rewrite written_bind, IH. now destruct (value _).
Qed.

(** Resolving an image writes nothing. *)
Lemma written_replace_image (w : World) (source_file : Path.t) (m : Match) :
  written (replace_image w source_file m) = [].
Proof.
  unfold replace_image.
  destruct (is_external_image _); [reflexivity|].
  rewrite written_bind. cbn [lift written value List.app].
  destruct (lookup_github_repo w _) as [[repo|warning]|e]; try reflexivity.
  destruct (wiki_image_path w source_file repo _) as [url|[]]; reflexivity.
Qed.

Lemma split_slash_flat (s : string) :
  no_char "/" s = true -> Path.split_slash s = [s].
Proof.
  induction s as [|c s IH]; intros H; [reflexivity|].
  cbn [no_char Str.forallb] in H. apply andb_true_iff in H as [Hc H].
  apply negb_true_iff in Hc. rewrite Ascii.eqb_sym in Hc.
  cbn [Path.split_slash]. rewrite Hc, (IH H). reflexivity.
Qed.

Lemma no_char_app_md (s : string) :
  no_char "/" s = true -> no_char "/" (s ++ ".md") = true.
Proof. intros H. rewrite no_char_app, H. reflexivity. Qed.

(** The path of the file of a page whose name has no separator. *)
Lemma output_path_flat (wiki_name : string) :
  no_char "/" wiki_name = true ->
  Path.to_string (Path.join WIKI_DIR (wiki_name ++ ".md"))
  = "wiki/" ++ wiki_name ++ ".md".
Proof.
  intros H. unfold Path.join, Path.of_string.
  rewrite (split_slash_flat _ (no_char_app_md _ H)).
  assert (S : Str.startswith (wiki_name ++ ".md") "/" = false).
  { destruct wiki_name as [|c s]; [reflexivity|].
    cbn [no_char Str.forallb] in H. apply andb_true_iff in H as [Hc _].
    apply negb_true_iff in Hc.
    unfold Str.startswith. cbn [append Str.strip_prefix]. now rewrite Hc. }
  cbn [Path.is_absolute Path.parts]. rewrite S.
  assert (K : Path.keep (wiki_name ++ ".md") = true).
  { unfold Path.keep. apply negb_true_iff, orb_false_iff. split.
    - apply String.eqb_neq. intros E. apply (f_equal length) in E.
      rewrite length_app in E. cbn [length] in E. lia.
    - apply String.eqb_neq. intros E. apply (f_equal length) in E.
      rewrite length_app in E. cbn [length] in E. lia. }
  cbn [filter]. rewrite K. reflexivity.
Qed.

(** A page is written to its file, or not at all. *)
Lemma create_wiki_page_file (w : World) (title : string) (file_path : Path.t)
    (wiki_name : string) (f : string * string) :
  no_char "/" wiki_name = true ->
  In f (written (create_wiki_page w title file_path wiki_name)) ->
  fst f = "wiki/" ++ wiki_name ++ ".md" /\ read_file w file_path <> None.
Proof.
  intros Hn. unfold create_wiki_page.
  destruct (read_file w file_path) as [content|] eqn:E; [|contradiction].
  rewrite (output_path_flat _ Hn).
  unfold process_markdown_file, open_read. rewrite E.
  rewrite written_bind. cbn [lift written value List.app].
  rewrite written_bind. unfold convert_image_paths.
  rewrite (written_sub_io _ _ (written_replace_image w file_path)).
  cbn [List.app]. destruct (value _) as [c|e]; [|contradiction].
  intros [<-|[]]. split; [reflexivity | discriminate].
Qed.

Lemma flat_no_slash (s : string) :
  Str.forallb flat_char s = true -> no_char "/" s = true.
Proof.
  apply forallb_impl. unfold flat_char. intros c Hc.
  now apply andb_true_iff in Hc as [-> _].
Qed.

Lemma nav_wiki_name_flat (value : string) : no_char "/" (nav_wiki_name value) = true.
Proof.
  apply flat_no_slash. unfold nav_wiki_name.
  apply str_remove_forallb; [reflexivity|]. apply dashed_flat.
Qed.

Lemma fallback_wiki_name_flat (rel_path : Path.t) :
  no_char "/" (fallback_wiki_name rel_path) = true.
Proof. apply flat_no_slash, dashed_flat. Qed.

Lemma in_written_each_of (g : nav -> io (list page)) (l : list nav)
    (f : string * string) :
  In f (written (each_of g l)) -> exists x, In x l /\ In f (written (g x)).
Proof.
  induction l as [|x l IH]; [contradiction|]. cbn [each_of]. intros H.
  apply in_written_bind in H as [H|[a H]].
  - exists x. split; [now left | exact H].
  - apply in_written_bind in H as [H|[b []]].
    destruct (IH H) as (y & Hy & Hf). exists y. split; [now right | exact Hf].
Qed.

(** A file the walk writes is the file of an entry of the item. *)
Lemma parse_nav_item_files (w : World) (f : string * string) (n : nat) :
  forall item prefix,
    nav_size item < n ->
    In f (written (parse_nav_item w item prefix)) ->
    exists p, In p (nav_entries item prefix)
              /\ fst f = page_file p /\ no_char "/" (snd p) = true.
Proof.
  induction n as [|n IH]; intros item prefix Hn H; [lia|].
  destruct item as [s|l|kvs|]; try contradiction.
  - cbn [parse_nav_item] in H. apply in_written_bind in H as [H|[a []]].
    apply create_wiki_page_file in H as [H _]; [|apply nav_wiki_name_flat].
    exists ("", nav_wiki_name s). split; [now left|].
    split; [exact H | apply nav_wiki_name_flat].
  - destruct kvs as [|[key v] kvs]; [contradiction|].
    rewrite parse_nav_dict_cons in H. rewrite nav_entries_dict_cons.
    cbn [nav_size List.map snd] in Hn. rewrite list_sum_cons in Hn.
    pose proof (nav_size_pos v) as Hv.
    apply in_written_bind in H as [H|[here H]].
    + destruct v as [v|sub_items|items|]; try contradiction.
      * apply in_written_bind in H as [H|[a []]].
        apply create_wiki_page_file in H as [H _]; [|apply nav_wiki_name_flat].
        exists (full_title prefix key, nav_wiki_name v).
        split; [apply in_or_app; left; now left|].
        split; [exact H | apply nav_wiki_name_flat].
      * apply in_written_each_of in H as (x & Hx & H).
        apply (IH x key) in H.
        -- destruct H as (p & Hp & Hf). exists p. split; [|exact Hf].
           apply in_or_app. left. apply in_flat_map. now exists x.
        -- pose proof (nav_size_in x sub_items Hx). cbn [nav_size] in Hn. lia.
    + apply in_written_bind in H as [H|[more []]].
      apply (IH (NDict kvs) prefix) in H; [|cbn [nav_size]; lia].
      destruct H as (p & Hp & Hf). exists p. split; [|exact Hf].
      apply in_or_app. now right.
Qed.

Lemma fallback_pages_files (w : World) (found : list (Path.t * bool))
    (f : string * string) :
  In f (written (fallback_pages w found)) ->
  exists p, In p (List.map (fun n => (n, n)) (fallback_names found))
            /\ fst f = page_file p /\ no_char "/" (snd p) = true.
Proof.
  induction found as [|[rel_path is_file] found IH]; [contradiction|].
  cbn [fallback_pages]. intros H. unfold fallback_names. cbn [filter snd].
  apply in_written_bind in H as [H|[here H]].
  - destruct is_file; [|contradiction].
    apply in_written_bind in H as [H|[a []]].
    apply create_wiki_page_file in H as [H _]; [|apply fallback_wiki_name_flat].
    exists (fallback_wiki_name rel_path, fallback_wiki_name rel_path).
    split; [now left|]. split; [exact H | apply fallback_wiki_name_flat].
  - apply in_written_bind in H as [H|[more []]].
    destruct (IH H) as (p & Hp & Hf). exists p. split; [|exact Hf].
    destruct is_file; [now right | exact Hp].
Qed.

(** X12.  Whatever the navigation or the scan holds, and whether or not the
    run comes to its end, every document written is the file of a page that
    [main] collects, directly in the wiki directory: [wiki/<name>.md] with
    no separator in the name. *)
Theorem documents_written_as_flat_pages (w : World) (name content : string) :
  In (name, content) (written (collect_pages w)) ->
  exists p, In p (site_entries w)
            /\ name = page_file p /\ no_char "/" (snd p) = true.
Proof.
  unfold collect_pages, site_entries. destruct (mkdocs_yml w) as [config|].
  - rewrite nav_pages_each. intros H.
    apply in_written_each_of in H as (item & Hitem & H).
    apply (parse_nav_item_files w _ (S (nav_size item)) item "" (Nat.lt_succ_diag_r _))
      in H as (p & Hp & Hf).
    exists p. split; [|exact Hf]. apply in_flat_map. now exists item.
  - apply fallback_pages_files.
Qed.

Lemma documents_written_as_flat_pages_witness :
  In ("wiki/guide-start.md",
      "See [tuning](adv-tuning) and ![fig](https://raw.githubusercontent.com/alice/docs/main/docs/img/fig.png)")
     (written (collect_pages nested_checkout))
  /\ exists p, In p (site_entries nested_checkout)
               /\ "wiki/guide-start.md" = page_file p /\ no_char "/" (snd p) = true.
Proof.
  assert (H : In ("wiki/guide-start.md",
      "See [tuning](adv-tuning) and ![fig](https://raw.githubusercontent.com/alice/docs/main/docs/img/fig.png)")
     (written (collect_pages nested_checkout))).
  { vm_compute. right. left. reflexivity. }
  split; [exact H|].
  exact (documents_written_as_flat_pages nested_checkout _ _ H).
Defined.

Lemma collect_pages_value (w : World) (pages : list page) :
  value (collect_pages w) = Ok pages -> pages = site_entries w.
Proof.
  unfold collect_pages, site_entries. destruct (mkdocs_yml w) as [config|].
  - rewrite nav_pages_each. apply value_each_of. intros item p _ Hp.
    exact (parse_nav_item_entries w (S (nav_size item)) item "" p
             (Nat.lt_succ_diag_r _) Hp).
  - apply fallback_pages_value.
Qed.

(** X13.  A run that comes to its end has written the home page first,
    then the documents, then the sidebar; and the sidebar is that of the
    entries read off the configuration (or the scan), so that no document's
    content or absence changes it. *)
Theorem main_writes_home_documents_sidebar (w : World) :
  value (main w) = Ok tt ->
  written (main w)
  = (("wiki/Home.md", convert_mkdocs_to_wiki_link (home_content w))
     :: written (collect_pages w)
     ++ [("wiki/_Sidebar.md",
          sidebar_content (config_site_name w) (site_entries w))])%list.
Proof.
  unfold main. intros H.
  apply value_bind in H as (u & _ & H).
  apply value_bind in H as (pages & Hpages & _).
  rewrite !written_bind. cbn [create_home_page write_file value written List.app].
  rewrite Hpages, (collect_pages_value w pages Hpages). reflexivity.
Qed.

Lemma main_writes_home_documents_sidebar_witness :
  value (main nested_checkout) = Ok tt
  /\ List.map fst (written (main nested_checkout))
     = ["wiki/Home.md"; "wiki/index.md"; "wiki/guide-start.md"; "wiki/_Sidebar.md"].
Proof.
  split; [reflexivity|].
  rewrite (main_writes_home_documents_sidebar nested_checkout eq_refl). reflexivity.
Defined.

End FilesWritten.

(** ** Before the run *)

Section BeforeTheRun.

(** X14.  The directory [get_docs_directory] returns is [docs], or it is
    the one [mkdocs.yml] names and it exists. *)
Theorem docs_directory_default_or_exists (s : Startup) (d : string)
    (notes : list notice) :
  get_docs_directory s = (Ok d, notes) ->
  d = "docs"
  \/ (load_mkdocs_yml s = Loaded (Mapping (Some (YStr d)))
      /\ path_exists s d = true /\ notes = []).
Proof.
  unfold get_docs_directory.
  destruct (mkdocs_yml_exists s); [|intros [= <- _]; now left].
  destruct (load_mkdocs_yml s) as [[[[c|]|]|]| |e].
  - destruct (path_exists s c) eqn:E.
    + intros [= <- <-]. right. repeat split. exact E.
    + destruct (path_exists s "docs"); intros [= <- _]; now left.
  - discriminate.
  - destruct (path_exists s "docs"); intros [= <- _]; now left.
  - discriminate.
  - intros [= <- _]; now left.
  - destruct e; try discriminate. intros [= <- _]; now left.
Qed.

Lemma docs_directory_default_or_exists_witness :
  get_docs_directory stale_startup = (Ok "docs", [UsingDocs "manual"])
  /\ ("docs" = "docs"
      \/ (load_mkdocs_yml stale_startup = Loaded (Mapping (Some (YStr "docs")))
          /\ path_exists stale_startup "docs" = true
          /\ [UsingDocs "manual"] = [])).
Proof.
  split; [reflexivity|].
  apply (docs_directory_default_or_exists stale_startup). reflexivity.
Defined.

(** An empty [mkdocs.yml] loads as [None], and the script ends on it. *)
Example empty_mkdocs_yml_raises (s : Startup) :
  mkdocs_yml_exists s = true -> load_mkdocs_yml s = Loaded NotMapping ->
  get_docs_directory s = (Raise AttributeError, []).
Proof. unfold get_docs_directory. now intros -> ->. Qed.

Lemma filter_filter {A} (p q : A -> bool) (l : list A) :
  filter p (filter q l) = filter (fun x => q x && p x) l.
Proof.
  induction l as [|x l IH]; [reflexivity|]. cbn [filter].
  destruct (q x); cbn [filter andb]; [destruct (p x)|]; now rewrite IH.
Qed.

(** What the loop removes is never named [.git], and the entries of that
    name stay as they are. *)
Lemma clean_items_keeps_git (items : list entry) :
  forall dir r dir' done,
    clean_items items dir = (r, dir', done) ->
    filter is_git dir' = filter is_git dir
    /\ Forall (fun x => removed_name x <> ".git") done.
Proof.
  induction items as [|item items IH]; intros dir r dir' done H.
  - injection H as <- <- <-. split; [reflexivity | constructor].
  - cbn [clean_items] in H.
    destruct (String.eqb (entry_name item) ".git") eqn:G; cbn [negb] in H.
    + exact (IH _ _ _ _ H).
    + destruct (removable item).
      * destruct (clean_items items (without (entry_name item) dir))
          as [[r1 dir1] done1] eqn:E.
        injection H as <- <- <-. destruct (IH _ _ _ _ E) as [K D]. split.
        -- rewrite K. unfold without. rewrite filter_filter.
           apply filter_ext. intros e. unfold is_git.
           destruct (String.eqb_spec (entry_name e) ".git") as [->|];
             [|now rewrite andb_false_r].
           rewrite String.eqb_sym, G. reflexivity.
        -- constructor; [|exact D].
           apply String.eqb_neq in G. now destruct (is_dir item).
      * injection H as <- <- <-. split; [reflexivity | constructor].
Qed.

(** X15.  Whether the cleaning comes to its end or a removal is refused,
    the entry named [.git] is left as it was, and neither [rmtree] nor
    [unlink] is called on it. *)
Theorem clean_wiki_dir_keeps_git (dir dir' : list entry) (r : result unit)
    (done : list removal) :
  clean_wiki_dir (Some dir) = (r, Some dir', done) ->
  filter is_git dir' = filter is_git dir
  /\ Forall (fun x => removed_name x <> ".git") done.
Proof.
  cbn [clean_wiki_dir].
  destruct (clean_items dir dir) as [[r1 dir1] done1] eqn:E.
  intros [= <- <- <-]. exact (clean_items_keeps_git _ _ _ _ _ E).
Qed.

Lemma clean_wiki_dir_keeps_git_witness :
  clean_wiki_dir (Some locked_wiki)
  = (Raise OSError, Some (tl locked_wiki), [Unlink "Home.md"])
  /\ filter is_git (tl locked_wiki) = filter is_git locked_wiki
  /\ Forall (fun x => removed_name x <> ".git") [Unlink "Home.md"].
Proof.
  split; [reflexivity|].
  apply (clean_wiki_dir_keeps_git locked_wiki (tl locked_wiki) (Raise OSError)).
  reflexivity.
Defined.

(** A loop that comes to its end leaves what it was not to remove, and has
    removed the rest in the order of the listing. *)
Lemma clean_items_done (items : list entry) :
  forall dir dir' done,
    clean_items items dir = (Ok tt, dir', done) ->
    dir' = filter (fun e => negb (gone items e)) dir
    /\ done = List.map removal_of (filter (fun e => negb (is_git e)) items).
Proof.
  induction items as [|item items IH]; intros dir dir' done H.
  - injection H as <- <-. split; [|reflexivity].
    cbn [gone existsb negb]. induction dir as [|e dir IHd]; [reflexivity|].
    cbn [filter]. now rewrite <- IHd.
  - cbn [clean_items] in H. cbn [filter]. fold (is_git item) in H.
    destruct (is_git item) eqn:G; cbn [negb] in H |- *.
    + destruct (IH _ _ _ H) as [K D]. split; [|exact D].
      rewrite K. apply filter_ext. intros e.
      unfold gone. cbn [existsb]. now rewrite G.
    + destruct (removable item); [|discriminate].
      destruct (clean_items items (without (entry_name item) dir))
        as [[r1 dir1] done1] eqn:E.
      injection H as -> <- <-. destruct (IH _ _ _ E) as [K D]. split.
      * rewrite K. unfold without. rewrite filter_filter.
        apply filter_ext. intros e. unfold gone. cbn [existsb].
        rewrite G. cbn [negb andb]. now rewrite negb_orb.
      * cbn [List.map]. now rewrite D.
Qed.

Lemma gone_self (dir : list entry) (e : entry) :
  In e dir -> gone dir e = negb (is_git e).
Proof.
  intros H. unfold gone. destruct (is_git e) eqn:G; cbn [negb].
  - apply not_true_is_false. intros K.
    apply existsb_exists in K as (item & _ & K).
    apply andb_true_iff in K as [Ki Kn]. apply String.eqb_eq in Kn.
    unfold is_git in *. rewrite <- Kn, G in Ki. discriminate.
  - apply existsb_exists. exists e. split; [exact H|].
    now rewrite G, String.eqb_refl.
Qed.

(** X16.  When the cleaning comes to its end, the entries named [.git] are
    all that is left of the directory, and every other entry has been
    removed, in the order of the listing: directories by [rmtree], the
    others by [unlink]. *)
Theorem clean_wiki_dir_leaves_git_only (dir dir' : list entry)
    (done : list removal) :
  clean_wiki_dir (Some dir) = (Ok tt, Some dir', done) ->
  dir' = filter is_git dir
  /\ done = List.map removal_of (filter (fun e => negb (is_git e)) dir).
Proof.
  cbn [clean_wiki_dir].
  destruct (clean_items dir dir) as [[r1 dir1] done1] eqn:E.
  intros [= -> <- <-]. destruct (clean_items_done _ _ _ _ E) as [K D].
  split; [|exact D]. rewrite K. apply filter_ext_in. intros e He.
  rewrite (gone_self dir e He). apply negb_involutive.
Qed.

Lemma clean_wiki_dir_leaves_git_only_witness :
  clean_wiki_dir (Some old_wiki)
  = (Ok tt, Some [ {| entry_name := ".git"; is_dir := true; removable := false |} ],
     [Unlink "Home.md"; Rmtree "images"; Unlink "_Sidebar.md"])
  /\ [ {| entry_name := ".git"; is_dir := true; removable := false |} ]
     = filter is_git old_wiki
  /\ [Unlink "Home.md"; Rmtree "images"; Unlink "_Sidebar.md"]
     = List.map removal_of (filter (fun e => negb (is_git e)) old_wiki).
Proof.
  split; [reflexivity|].
  apply (clean_wiki_dir_leaves_git_only old_wiki). reflexivity.
Defined.

End BeforeTheRun.

(** ** Front matter that is there *)

Section FrontMatterCut.

Lemma star_greedy_complete {R} (cls : ascii -> bool)
    (k : bool -> option string -> string -> option R) (x s : string) :
  (forall bol cur, exists r, k bol cur s = Some r) ->
  Str.forallb cls x = true ->
  forall bol cur, exists r, star_greedy cls k bol cur (x ++ s) = Some r.
Proof.
  intros Hk. induction x as [|a x IH]; intros Hx bol cur.
  - cbn [append]. destruct s as [|c s]; [apply Hk|]. cbn [star_greedy].
    destruct (cls c); [|apply Hk].
    destruct (star_greedy cls k false (push cur c) s) as [r|]; [eauto | apply Hk].
  - cbn [Str.forallb] in Hx. apply andb_true_iff in Hx as [Ha Hx].
    cbn [append star_greedy]. rewrite Ha.
    destruct (IH Hx false (push cur a)) as [r ->]. eauto.
Qed.

Lemma star_lazy_complete {R} (cls : ascii -> bool)
    (k : bool -> option string -> string -> option R) (x s : string) :
  (forall bol cur, exists r, k bol cur s = Some r) ->
  Str.forallb cls x = true ->
  forall bol cur, exists r, star_lazy cls k bol cur (x ++ s) = Some r.
Proof.
  intros Hk. induction x as [|a x IH]; intros Hx bol cur.
  - cbn [append]. destruct (Hk bol cur) as [r Hr].
    exists r. destruct s; cbn [star_lazy]; now rewrite Hr.
  - cbn [Str.forallb] in Hx. apply andb_true_iff in Hx as [Ha Hx].
    cbn [append star_lazy]. rewrite Ha.
    destruct (k bol cur (String a (x ++ s))) as [r|]; [eauto|].
    apply (IH Hx).
Qed.

Lemma spaces_greedy_complete {R}
    (k : bool -> option string -> string -> option R) (x s : string) :
  (forall bol cur, exists r, k bol cur s = Some r) ->
  white x = true ->
  forall bol cur, exists r, spaces_greedy k bol cur (x ++ s) = Some r.
Proof.
  intros Hk Hx. revert x Hx.
  apply (white_ind (fun x => forall bol cur,
                      exists r, spaces_greedy k bol cur (x ++ s) = Some r)).
  - intros bol cur. cbn [append]. rewrite spaces_greedy_eq.
    destruct (space_width s) as [|n]; [apply Hk|].
    destruct (spaces_greedy k false _ _) as [r|]; [eauto | apply Hk].
  - intros t w Hin _ IH bol cur. rewrite app_assoc.
    destruct (space_width_token t (w ++ s) Hin) as [W L].
    rewrite spaces_greedy_eq, W. destruct (length t) as [|n] eqn:E; [lia|].
    rewrite <- E, drop_app_length.
    destruct (IH false (pushes cur (Str.take (length t) (t ++ w ++ s)))) as [r ->].
    eauto.
Qed.

(** The matcher tries every way to match: on a text of the pattern's shape
    it finds a match, whatever follows the text. *)
Lemma match_here_complete (p : pattern) (m : string) :
  derive p m -> anchor_free p = true ->
  forall caps bol cur rest,
    exists r, match_here p caps bol cur (m ++ rest) = Some r.
Proof.
  induction 1 as [|a p m H IH|p m H IH|g cls p x m Hx H IH|cls p x m Hn Hx H IH
                  |p x m Hx H IH|p m H IH|p m H IH];
    intros Hp caps bol cur rest; cbn [anchor_free List.forallb andb] in Hp.
  - eexists. reflexivity.
  - cbn [append match_here]. rewrite Ascii.eqb_refl. apply (IH Hp).
  - discriminate.
  - rewrite app_assoc. destruct g; cbn [match_here].
    + apply star_greedy_complete; [|exact Hx]. intros b c. apply (IH Hp).
    + apply star_lazy_complete; [|exact Hx]. intros b c. apply (IH Hp).
  - destruct x as [|c x]; [discriminate|].
    cbn [Str.forallb] in Hx. apply andb_true_iff in Hx as [Hc Hx].
    rewrite app_assoc. cbn [append match_here]. rewrite Hc.
    apply star_greedy_complete; [|exact Hx]. intros b c'. apply (IH Hp).
  - rewrite app_assoc. cbn [match_here].
    apply spaces_greedy_complete; [|exact Hx]. intros b c. apply (IH Hp).
  - cbn [match_here]. apply (IH Hp).
  - cbn [match_here]. apply (IH Hp).
Qed.

Lemma derive_lit (l : string) (p : pattern) (m : string) :
  derive p m -> derive (lit l ++ p)%list (l ++ m).
Proof.
  intros H. induction l as [|c l IH]; [exact H|].
  cbn [lit List.app append]. now constructor.
Qed.

Lemma front_matter_derive (w1 x w2 : string) :
  white w1 = true -> white w2 = true ->
  derive (tl front_matter_re) ("---" ++ w1 ++ nl ++ x ++ nl ++ "---" ++ w2 ++ nl).
Proof.
  intros H1 H2. unfold front_matter_re. cbn [tl List.app].
  apply (derive_lit "---"). apply derive_spaces; [exact H1|].
  apply derive_chr. apply derive_star; [now apply forallb_all|].
  apply derive_chr. apply (derive_lit "---").
  apply derive_spaces; [exact H2|]. apply derive_chr. constructor.
Qed.

(** X17.  From a document that begins with a front-matter block (three
    dashes, white space, a newline; a body; a newline, three dashes,
    white space, a newline) a block of that shape is cut, and what is
    returned is the text after it.  White space is what Python's [\s]
    takes in a [str] pattern: the ASCII white space and the separators
    U+001C to U+001F, and also U+0085, U+00A0, U+1680, U+2000 to U+200A,
    U+2028, U+2029, U+202F, U+205F and U+3000. *)
Theorem front_matter_block_is_cut (w1 x w2 b : string) :
  white w1 = true -> white w2 = true ->
  exists w1' x' w2',
    "---" ++ w1 ++ nl ++ x ++ nl ++ "---" ++ w2 ++ nl ++ b
    = ("---" ++ w1' ++ nl ++ x' ++ nl ++ "---" ++ w2' ++ nl)
      ++ remove_front_matter
           ("---" ++ w1 ++ nl ++ x ++ nl ++ "---" ++ w2 ++ nl ++ b)
    /\ white w1' = true /\ white w2' = true.
Proof.
  intros H1 H2. unfold remove_front_matter.
  change front_matter_re with (Bol :: tl front_matter_re).
  rewrite sub_bol_empty.
  destruct (match_here_complete _ _ (front_matter_derive w1 x w2 H1 H2) eq_refl
              [] true None b) as [[caps rest] E].
  replace (("---" ++ w1 ++ nl ++ x ++ nl ++ "---" ++ w2 ++ nl) ++ b)
    with ("---" ++ w1 ++ nl ++ x ++ nl ++ "---" ++ w2 ++ nl ++ b) in E
    by (repeat (rewrite !app_assoc || cbn [append]); reflexivity).
  rewrite E.
  apply match_here_sound in E as (m & E & Hm).
  apply front_matter_shape in Hm as (w1' & x' & w2' & -> & K1 & K2).
  exists w1', x', w2'. auto.
Qed.

Lemma front_matter_block_is_cut_witness :
  white (" " ++ no_break_space) = true /\ white line_separator = true
  /\ exists w1' x' w2',
       "---" ++ (" " ++ no_break_space) ++ nl ++ "a: 1" ++ nl
             ++ "---" ++ line_separator ++ nl ++ "# Home"
       = ("---" ++ w1' ++ nl ++ x' ++ nl ++ "---" ++ w2' ++ nl)
         ++ remove_front_matter
              ("---" ++ (" " ++ no_break_space) ++ nl ++ "a: 1" ++ nl
                     ++ "---" ++ line_separator ++ nl ++ "# Home")
       /\ white w1' = true /\ white w2' = true.
Proof.
  assert (H1 : white (" " ++ no_break_space) = true) by (vm_compute; reflexivity).
  assert (H2 : white line_separator = true) by (vm_compute; reflexivity).
  split; [exact H1|]. split; [exact H2|].
  exact (front_matter_block_is_cut (" " ++ no_break_space) "a: 1" line_separator
           "# Home" H1 H2).
Defined.

(** The greedy repetition of white space gives back its last newline when
    what follows needs it. *)
Lemma spaces_greedy_back {R} (k : bool -> option string -> string -> option R)
    (w s : string) (r : R) :
  white w = true -> space_width s = 0 ->
  (forall b, k b None s = None) ->
  (forall b, k b None (nl ++ s) = Some r) ->
  forall bol, spaces_greedy k bol None (w ++ nl ++ s) = Some r.
Proof.
  intros Hw Hs Hfail Hk. revert w Hw.
  apply (white_ind (fun w => forall bol,
                      spaces_greedy k bol None (w ++ nl ++ s) = Some r)).
  - intros bol. cbn [append]. rewrite spaces_greedy_eq.
    destruct (space_width_token nl s newline_token) as [W _]. rewrite W.
    cbn [length nl pushes]. change 1 with (length nl). rewrite drop_app_length.
    rewrite (spaces_greedy_eq k false None s), Hs, Hfail. apply Hk.
  - intros t w Hin _ IH bol. rewrite app_assoc.
    destruct (space_width_token t (w ++ nl ++ s) Hin) as [W L].
    rewrite spaces_greedy_eq, W. destruct (length t) as [|n] eqn:E; [lia|].
    rewrite <- E, drop_app_length. cbn [pushes]. now rewrite IH.
Qed.

(** The lazy repetition goes on as long as what follows fails. *)
Lemma star_lazy_skip {R} (k : bool -> option string -> string -> option R)
    (x t : string) (r : R) :
  (forall a b, x = a ++ b -> Str.nonempty b = true -> k false None (b ++ t) = None) ->
  k false None t = Some r ->
  star_lazy any k false None (x ++ t) = Some r.
Proof.
  intros Hfail Hk. induction x as [|c x IH].
  - cbn [append]. destruct t; cbn [star_lazy]; now rewrite Hk.
  - cbn [append star_lazy].
    rewrite (Hfail "" (String c x) eq_refl eq_refl : k false None (String c (x ++ t)) = None).
    cbn [any push]. apply IH. intros a b -> Hb.
    apply (Hfail (String c a) b eq_refl Hb).
Qed.

(** A closing delimiter does not begin inside a body that holds none, not
    even with its end in the delimiter that follows. *)
Lemma no_delimiter_across (b t : string) :
  Str.nonempty b = true ->
  Str.strip_prefix (nl ++ "---") b = None ->
  Str.strip_prefix (nl ++ "---") (b ++ nl ++ "---" ++ t) = None.
Proof.
  intros Hb H.
  destruct b as [|c1 [|c2 [|c3 [|c4 b]]]]; [discriminate| | | |];
    cbn [append nl Str.strip_prefix] in H |- *;
    repeat match goal with
           | |- context [Ascii.eqb ?a ?b] =>
               destruct (Ascii.eqb_spec a b); try subst; try discriminate;
               try reflexivity; cbn [Str.strip_prefix] in *
           end.
Qed.

Lemma match_lit_none (l : string) (q : pattern) :
  forall caps bol cur s,
    Str.strip_prefix l s = None ->
    match_here (lit l ++ q)%list caps bol cur s = None.
Proof.
  induction l as [|a l IH]; intros caps bol cur s H; [discriminate|].
  cbn [lit List.app match_here]. destruct s as [|c s]; [reflexivity|].
  cbn [Str.strip_prefix] in H. destruct (Ascii.eqb a c); [|reflexivity].
  now apply IH.
Qed.

Lemma match_lit_some (l : string) (q : pattern) :
  forall caps bol s,
    match_here (lit l ++ q)%list caps bol None (l ++ s)
    = match_here q caps (if Str.nonempty l then false else bol) None s.
Proof.
  induction l as [|a l IH]; intros caps bol s; [reflexivity|].
  cbn [lit List.app append match_here push Str.nonempty].
  rewrite Ascii.eqb_refl, IH. now destruct (Str.nonempty l).
Qed.

Lemma match_chr (a : ascii) (q : pattern) (caps : list string) (b : bool) (s : string) :
  match_here (Chr a :: q) caps b None (String a s) = match_here q caps false None s.
Proof. cbn [match_here push]. now rewrite Ascii.eqb_refl. Qed.

Lemma match_star (g : bool) (cls : ascii -> bool) (q : pattern) (caps : list string)
    (b : bool) (cur : option string) (s : string) :
  match_here (Star g cls :: q) caps b cur s
  = (if g then star_greedy cls (match_here q caps) b cur s
     else star_lazy cls (match_here q caps) b cur s).
Proof. now destruct g. Qed.

Lemma match_spaces (q : pattern) (caps : list string) (b : bool)
    (cur : option string) (s : string) :
  match_here (Spaces :: q) caps b cur s = spaces_greedy (match_here q caps) b cur s.
Proof. reflexivity. Qed.

Lemma not_space_not_newline (s : string) (q : pattern) (caps : list string) (b : bool) :
  space_width s = 0 -> match_here (Chr newline :: q) caps b None s = None.
Proof.
  intros H. destruct s as [|c s]; [reflexivity|]. cbn [match_here].
  now rewrite (space_width_newline c s H).
Qed.

(** A text that does not begin with white space does not either before a
    newline: no code point of white space holds a newline after its first
    byte. *)
Lemma space_width_before_newline (b r : string) :
  Str.nonempty b = true -> space_width b = 0 -> space_width (b ++ nl ++ r) = 0.
Proof.
  intros Hb H. unfold space_width in *.
  destruct (find (Str.startswith b) space_tokens) as [t|] eqn:E; [|clear H].
  { apply find_some in E as [Hin Hs]. apply startswith_app in Hs as [x ->].
    destruct (space_width_token t x Hin) as [_ L]. lia. }
  destruct (find (Str.startswith (b ++ nl ++ r)) space_tokens) as [t|] eqn:E2;
    [|reflexivity].
  exfalso. apply find_some in E2 as [Hin Hs].
  pose proof (find_none _ _ E t Hin) as F. revert Hs F. simpl in Hin.
  repeat (destruct Hin as [<-|Hin];
          [destruct b as [|c1 [|c2 [|c3 b]]]; [discriminate| | |];
           unfold Str.startswith; cbn [append nl Str.strip_prefix];
           repeat match goal with
                  | |- context [Ascii.eqb ?a ?b] =>
                      destruct (Ascii.eqb_spec a b); try subst; try discriminate;
                      cbn [Str.strip_prefix] in *
                  end; congruence|]).
  contradiction.
Qed.

(** The closing delimiter, where it stands: the white space after the
    dashes is taken up to its last newline. *)
Lemma closing_delimiter_matches (w2 rest : string) (b : bool) :
  white w2 = true -> space_width rest = 0 ->
  match_here (lit (nl ++ "---") ++ [Spaces; Chr newline])%list [] b None
    ((nl ++ "---") ++ w2 ++ nl ++ rest)
  = Some ([], rest).
Proof.
  intros H2 Hrest. rewrite match_lit_some, match_spaces.
  apply (spaces_greedy_back (match_here [Chr newline] []) w2 rest);
    [exact H2 | exact Hrest | |].
  - intros b'. now apply not_space_not_newline.
  - intros b'. apply match_chr.
Qed.

(** X18.  When the body of the block is not empty, does not begin with
    white space and holds no newline followed by three dashes, and the text
    after the block does not begin with white space, the block is cut just
    after its closing delimiter: the blank lines between the closing dashes
    and the text go with it.  White space is that of Python's [\s], the
    no-break space and the line separator among it. *)
Theorem front_matter_cut_exactly (w1 body w2 rest : string) :
  white w1 = true -> white w2 = true ->
  Str.nonempty body = true -> space_width body = 0 ->
  Str.contains (nl ++ "---") body = false ->
  space_width rest = 0 ->
  remove_front_matter
    ("---" ++ w1 ++ nl ++ body ++ nl ++ "---" ++ w2 ++ nl ++ rest)
  = rest.
Proof.
  intros H1 H2 Hb Hfirst Hin Hrest. unfold remove_front_matter.
  change front_matter_re with (Bol :: tl front_matter_re).
  rewrite sub_bol_empty.
  replace (match_here (tl front_matter_re) [] true None
             ("---" ++ w1 ++ nl ++ body ++ nl ++ "---" ++ w2 ++ nl ++ rest))
    with (Some (@nil string, rest)); [reflexivity|].
  symmetry. unfold front_matter_re. cbn [tl List.app].
  rewrite (match_lit_some "---"), match_spaces.
  assert (Hfirst' : space_width (body ++ (nl ++ "---") ++ w2 ++ nl ++ rest) = 0).
  { rewrite app_assoc. now apply space_width_before_newline. }
  apply (spaces_greedy_back _ w1 (body ++ (nl ++ "---") ++ w2 ++ nl ++ rest));
    [exact H1 | exact Hfirst' | |].
  - intros b. now apply not_space_not_newline.
  - intros b. change (nl ++ body ++ (nl ++ "---") ++ w2 ++ nl ++ rest)
      with (String newline (body ++ (nl ++ "---") ++ w2 ++ nl ++ rest)).
    rewrite match_chr, (match_star false).
    apply (star_lazy_skip
             (match_here (lit (nl ++ "---") ++ [Spaces; Chr newline])%list [])).
    + intros a t -> Ht. apply match_lit_none.
      apply no_delimiter_across; [exact Ht|].
      destruct (Str.strip_prefix (nl ++ "---") t) as [r|] eqn:E; [|reflexivity].
      apply strip_prefix_app in E. subst t.
      assert (K : Str.contains (nl ++ "---") (a ++ (nl ++ "---") ++ r) = true)
        by (apply contains_app; eauto).
      congruence.
    + now apply closing_delimiter_matches.
Qed.

Lemma front_matter_cut_exactly_witness :
  remove_front_matter
    ("---" ++ (" " ++ no_break_space) ++ nl
     ++ ("title: Home" ++ nl ++ "tags:" ++ nl ++ "- a")
     ++ nl ++ "---" ++ (line_separator ++ nl) ++ nl ++ "# Home")
  = "# Home".
Proof.
  apply (front_matter_cut_exactly (" " ++ no_break_space)
           ("title: Home" ++ nl ++ "tags:" ++ nl ++ "- a")
           (line_separator ++ nl) "# Home"); vm_compute; reflexivity.
Defined.

(** The first closing line ends the block, also when a no-break space
    follows its dashes; and a line of no-break space after the block goes
    with the blank lines. *)
Example front_matter_cut_at_first_closing_line :
  remove_front_matter
    ("---" ++ nl ++ "body" ++ nl ++ "---" ++ no_break_space ++ nl
     ++ "more" ++ nl ++ "---" ++ nl ++ "rest")
  = "more" ++ nl ++ "---" ++ nl ++ "rest"
  /\ remove_front_matter
       ("---" ++ nl ++ "body" ++ nl ++ "---" ++ nl
        ++ no_break_space ++ nl ++ "# Home")
     = "# Home"
  /\ space_width (no_break_space ++ nl ++ "# Home") = 2.
Proof. repeat split; vm_compute; reflexivity. Qed.

End FrontMatterCut.

(** ** What the link rewriter leaves alone *)

Section LinkTargets.

Lemma match_chr_inv (a : ascii) (q : pattern) (caps : list string) (b : bool)
    (cur : option string) (s : string) (r : list string * string) :
  match_here (Chr a :: q) caps b cur s = Some r ->
  exists s', s = String a s' /\ match_here q caps false (push cur a) s' = Some r.
Proof.
  cbn [match_here]. destruct s as [|c s]; [discriminate|].
  destruct (Ascii.eqb_spec a c) as [<-|]; [|discriminate]. eauto.
Qed.

(** What a greedy repetition in an open group has taken is what the group
    has grown by. *)
Lemma star_greedy_captures {R} (cls : ascii -> bool)
    (k : bool -> option string -> string -> option R) (s : string) :
  forall bol g r,
    star_greedy cls k bol (Some g) s = Some r ->
    exists x s' bol',
      s = x ++ s' /\ Str.forallb cls x = true /\ k bol' (Some (g ++ x)) s' = Some r.
Proof.
  induction s as [|c s IH]; intros bol g r H; cbn [star_greedy] in H.
  - exists "", "", bol. rewrite (app_nil_r g). auto.
  - assert (Stop : k bol (Some g) (String c s) = Some r ->
                   exists x s' bol', String c s = x ++ s'
                     /\ Str.forallb cls x = true /\ k bol' (Some (g ++ x)) s' = Some r).
    { intros K. exists "", (String c s), bol. rewrite (app_nil_r g). auto. }
    destruct (cls c) eqn:Hc; [|auto].
    destruct (star_greedy cls k false (push (Some g) c) s) as [r'|] eqn:E; [|auto].
    injection H as ->. cbn [push] in E.
    destruct (IH _ _ _ E) as (x & s' & bol' & -> & Hx & K).
    exists (String c x), s', bol'. cbn [append Str.forallb]. rewrite Hc, Hx.
    rewrite app_assoc in K. auto.
Qed.

Lemma match_group_inv (cls : ascii -> bool) (q : pattern) (caps : list string)
    (b : bool) (cur : option string) (s : string) (r : list string * string) :
  match_here (GOpen :: Plus cls :: GClose :: q) caps b cur s = Some r ->
  exists x s' b',
    s = x ++ s' /\ Str.nonempty x = true /\ Str.forallb cls x = true
    /\ match_here q (caps ++ [x]) b' None s' = Some r.
Proof.
  cbn [match_here]. destruct s as [|c s]; [discriminate|].
  destruct (cls c) eqn:Hc; [|discriminate]. cbn [push append].
  intros H. apply star_greedy_captures in H as (x & s' & b' & -> & Hx & H).
  exists (String c x), s', b'. cbn [append Str.forallb Str.nonempty].
  rewrite Hc, Hx. auto.
Qed.

(** What the pattern of links matches, and what it captures. *)
Lemma link_re_captures (b : bool) (s : string) (caps : list string) (rest : string) :
  match_here link_re [] b None s = Some (caps, rest) ->
  exists label target,
    caps = [label; target] /\ s = "[" ++ label ++ "](" ++ target ++ ")" ++ rest.
Proof.
  unfold link_re. cbn [lit List.app]. intros H.
  apply match_chr_inv in H as (s1 & -> & H).
  apply match_group_inv in H as (label & s2 & b2 & -> & _ & _ & H).
  apply match_chr_inv in H as (s3 & -> & H).
  apply match_chr_inv in H as (s4 & -> & H).
  apply match_group_inv in H as (target & s5 & b5 & -> & _ & _ & H).
  apply match_chr_inv in H as (s6 & -> & H).
  injection H as <- <-. exists label, target. split; reflexivity.
Qed.

(** Every match of the scan was found by the matcher, on a text that
    begins with it. *)
Lemma pieces_hit (p : pattern) (s : string) :
  forall pos m,
    In (Hit m) (pieces p pos s) ->
    exists b rest,
      match_here p [] b None (m_group0 m ++ rest) = Some (m_groups m, rest).
Proof.
  induction s as [s IH] using string_length_ind.
  intros pos m H. destruct s as [|c s].
  - rewrite pieces_nil in H.
    destruct (try_at p pos "") as [[caps rest]|] eqn:E; [|contradiction].
    destruct H as [[= <-]|[]]. cbn [m_group0 m_groups append].
    pose proof (match_here_suffix _ _ _ _ _ _ _ E) as [x Hx].
    destruct x; [|discriminate]. cbn [append] in Hx. subst rest. eauto.
  - rewrite pieces_cons in H.
    destruct (try_at p pos (String c s)) as [[caps rest]|] eqn:E.
    + pose proof (match_here_suffix _ _ _ _ _ _ _ E) as Hsuf.
      destruct (Nat.ltb_spec (length rest) (S (length s))) as [Hlt|Hge].
      * destruct Hsuf as [x Hx].
        assert (N : S (length s) - length rest = length x).
        { apply (f_equal length) in Hx. rewrite length_app in Hx.
          cbn [length] in Hx. lia. }
        rewrite N in H.
        destruct H as [[= <-]|H]; [|apply (IH rest) in H; [exact H|cbn [length]; lia]].
        cbn [m_group0 m_groups]. exists (Nat.eqb pos 0), rest.
        rewrite Hx, take_app_length. rewrite Hx in E. exact E.
      * destruct H as [[= <-]|[[=]|H]];
          [|apply (IH s) in H; [exact H|cbn [length]; lia]].
        cbn [m_group0 m_groups append]. exists (Nat.eqb pos 0), rest.
        assert (R : rest = String c s)
          by (apply (suffix_of_same_length _ _ Hsuf); cbn [length]; lia).
        rewrite R in E |- *. exact E.
    + destruct H as [[=]|H]. apply (IH s) in H; [exact H|cbn [length]; lia].
Qed.

Lemma segment_of_hit (text : string) (l : list piece) :
  (forall m, In (Hit m) l ->
     m_group0 m = "[" ++ group m 1 ++ "](" ++ group m 2 ++ ")") ->
  Str.join (List.map src l) = Str.join (List.map seg_source (List.map (segment_of text) l))
  /\ Str.join (List.map (out (replace_link text)) l)
     = Str.join (List.map seg_result (List.map (segment_of text) l))
  /\ Forall kept_or_named (List.map (segment_of text) l).
Proof.
  induction l as [|pc l IH]; intros H.
  - repeat split. constructor.
  - destruct IH as (I1 & I2 & I3); [intros m Hm; apply H; now right|].
    cbn [List.map Str.join fold_right].
    fold (Str.join (List.map src l)).
    fold (Str.join (List.map (out (replace_link text)) l)).
    fold (Str.join (List.map seg_source (List.map (segment_of text) l))).
    fold (Str.join (List.map seg_result (List.map (segment_of text) l))).
    rewrite I1, I2. destruct pc as [c|m].
    + repeat split. constructor; [exact I|exact I3].
    + specialize (H m (or_introl eq_refl)).
      cbn [src out segment_of seg_source seg_result]. unfold replace_link.
      cbn [group] in *. rewrite H at 1.
      destruct (preceded_by_bang text m); cbn [orb].
      * rewrite H at 1. repeat split. constructor; [now left | exact I3].
      * destruct (is_external_link (nth 1 (m_groups m) "")) eqn:X.
        -- rewrite H at 1. repeat split. constructor; [now left | exact I3].
        -- repeat split. constructor; [right; auto | exact I3].
Qed.

Lemma app_cancel_r (a b r : string) : a ++ r = b ++ r -> a = b.
Proof.
  intros H.
  assert (L : length a = length b).
  { apply (f_equal length) in H. rewrite !length_app in H. lia. }
  rewrite <- (take_app_length a r), H, L. apply take_app_length.
Qed.

(** A match of the scan for links is a link, and its groups are the label
    and the target. *)
Lemma link_hit (text : string) (m : Match) :
  In (Hit m) (pieces link_re 0 text) ->
  m_group0 m = "[" ++ group m 1 ++ "](" ++ group m 2 ++ ")".
Proof.
  intros H. apply pieces_hit in H as (b & rest & H).
  apply link_re_captures in H as (label & target & Hcaps & H).
  cbn [group]. rewrite Hcaps. cbn [nth].
  apply (app_cancel_r _ _ rest). rewrite H.
  repeat (rewrite !app_assoc || cbn [append]). reflexivity.
Qed.

Lemma convert_segments (text : string) :
  text
  = Str.join (List.map seg_source
                (List.map (segment_of text) (pieces link_re 0 text)))
  /\ convert_mkdocs_to_wiki_link text
     = Str.join (List.map seg_result
                   (List.map (segment_of text) (pieces link_re 0 text)))
  /\ Forall kept_or_named (List.map (segment_of text) (pieces link_re 0 text)).
Proof.
  destruct (segment_of_hit text (pieces link_re 0 text) (link_hit text))
    as (H1 & H2 & H3).
  rewrite pieces_src in H1. auto.
Qed.

(** X19.  The link rewriter changes the targets of links and nothing
    else: the text is a sequence of characters and of links
    [[label](target)], and the result is the same sequence with each
    target either kept or, when it is not external, replaced by its page
    name.  Labels, brackets and all text outside the links stay. *)
Theorem links_change_in_target_only (text : string) :
  exists segments,
    text = Str.join (List.map seg_source segments)
    /\ convert_mkdocs_to_wiki_link text = Str.join (List.map seg_result segments)
    /\ Forall kept_or_named segments.
Proof.
  exists (List.map (segment_of text) (pieces link_re 0 text)).
  apply convert_segments.
Qed.

Lemma wiki_page_length (link_path : string) :
  length (wiki_page link_path) <= length link_path.
Proof.
  rewrite wiki_page_steps.
  pose proof (str_remove_length "-index" eq_refl
                (str_strip (lstrip_while (one_of "./") (dashed link_path)) "-")) as A.
  unfold str_strip in *.
  pose proof (rstrip_length (char_in "-")
                (lstrip_while (char_in "-")
                   (lstrip_while (one_of "./") (dashed link_path)))) as B.
  pose proof (lstrip_length (char_in "-")
                (lstrip_while (one_of "./") (dashed link_path))) as C.
  pose proof (lstrip_length (one_of "./") (dashed link_path)) as D.
  pose proof (str_remove_length ".md" eq_refl link_path) as E.
  rewrite dashed_length in D. lia.
Qed.

Lemma segments_length (l : list segment) :
  Forall kept_or_named l ->
  length (Str.join (List.map seg_result l)) <= length (Str.join (List.map seg_source l)).
Proof.
  induction 1 as [|g l Hg _ IH]; [reflexivity|].
  cbn [List.map Str.join fold_right].
  fold (Str.join (List.map seg_result l)). fold (Str.join (List.map seg_source l)).
  rewrite !length_app.
  assert (G : length (seg_result g) <= length (seg_source g)).
  { destruct g as [c|label target new]; [reflexivity|].
    cbn [seg_result seg_source kept_or_named] in *.
    assert (N : length new <= length target).
    { destruct Hg as [->|[_ ->]]; [reflexivity | apply wiki_page_length]. }
    cbn [append length]. rewrite !length_app. cbn [length]. rewrite !length_app.
    cbn [length]. lia. }
  lia.
Qed.

(** X20.  The link rewriter never makes a text longer. *)
Theorem convert_never_lengthens (text : string) :
  length (convert_mkdocs_to_wiki_link text) <= length text.
Proof.
  destruct (convert_segments text) as (H1 & H2 & H3).
  pose proof (segments_length _ H3) as L.
  rewrite <- H1, <- H2 in L. exact L.
Qed.

End LinkTargets.

(** ** The home page *)

Section HomePage.

Lemma join_cons (x : string) (l : list string) :
  Str.join (x :: l) = x ++ Str.join l.
Proof. reflexivity. Qed.

Lemma app_cancel_l (a b c : string) : a ++ b = a ++ c -> b = c.
Proof.
  induction a as [|x a IH]; [auto|]. cbn [append]. intros [= H]. auto.
Qed.

(** A match of the pattern of links is not empty. *)
Lemma link_match_shorter (b : bool) (s : string) (caps : list string) (rest : string) :
  match_here link_re [] b None s = Some (caps, rest) ->
  exists x, s = x ++ rest /\ 0 < length x.
Proof.
  intros H. apply link_re_captures in H as (label & target & _ & ->).
  exists ("[" ++ label ++ "](" ++ target ++ ")"). split.
  - repeat (rewrite !app_assoc || cbn [append]). reflexivity.
  - cbn [append length]. lia.
Qed.

(** The scan of the links goes on after any of its pieces as it would from
    there: the pieces that are left are those of the text that is left. *)
Lemma pieces_link_cut (before : list piece) :
  forall s pos after,
    pieces link_re pos s = (before ++ after)%list ->
    exists t,
      s = Str.join (List.map src before) ++ t
      /\ after = pieces link_re (pos + length (Str.join (List.map src before))) t.
Proof.
  induction before as [|pc before IH]; intros s pos after H.
  - exists s. cbn [List.map Str.join fold_right append length].
    rewrite Nat.add_0_r. auto.
  - destruct s as [|c s].
    + rewrite pieces_nil in H. discriminate.
    + rewrite pieces_cons in H. cbn [List.map]. rewrite join_cons, length_app.
      destruct (try_at link_re pos (String c s)) as [[caps rest]|] eqn:E.
      * apply link_match_shorter in E as (x & Ex & Lx).
        assert (L : length rest < S (length s)).
        { apply (f_equal length) in Ex. rewrite length_app in Ex.
          cbn [length] in Ex. lia. }
        assert (N : S (length s) - length rest = length x).
        { apply (f_equal length) in Ex. rewrite length_app in Ex.
          cbn [length] in Ex. lia. }
        apply Nat.ltb_lt in L. rewrite L, N, Ex, take_app_length in H.
        cbn [List.app] in H. injection H as <- H.
        apply IH in H as (t & -> & ->). exists t. cbn [src m_group0].
        rewrite Ex, app_assoc. split; [reflexivity|]. f_equal. lia.
      * cbn [List.app] in H. injection H as <- H.
        apply IH in H as (t & -> & ->). exists t.
        split; [reflexivity|]. f_equal. cbn [src length]. lia.
Qed.

(** A link is found wherever it stands, when the scan comes to it. *)
Lemma link_found_at (pos : nat) (label target post : string) :
  Str.nonempty label = true -> no_char "]" label = true ->
  Str.nonempty target = true -> no_char ")" target = true ->
  pieces link_re pos (("[" ++ label ++ "](" ++ target ++ ")") ++ post)
  = Hit {| m_start := pos;
           m_group0 := "[" ++ label ++ "](" ++ target ++ ")";
           m_groups := [label; target] |}
    :: pieces link_re (pos + length ("[" ++ label ++ "](" ++ target ++ ")")) post.
Proof.
  intros Hl1 Hl2 Ht1 Ht2.
  pose proof (link_re_matches label target post (Nat.eqb pos 0)
                Hl1 Hl2 Ht1 Ht2) as M.
  remember ("[" ++ label ++ "](" ++ target ++ ")") as span eqn:Espan.
  assert (E : "[" ++ label ++ "](" ++ target ++ ")" ++ post = span ++ post).
  { subst span. repeat (rewrite !app_assoc || cbn [append]). reflexivity. }
  rewrite E in M.
  destruct (span ++ post) as [|c s] eqn:Es.
  - subst span. discriminate.
  - rewrite pieces_cons. unfold try_at. rewrite M.
    assert (L : length (String c s) = length span + length post)
      by (rewrite <- Es; apply length_app).
    assert (0 < length span) by (subst span; cbn [append length]; lia).
    cbn [length] in L.
    destruct (Nat.ltb_spec (length post) (S (length s))) as [_|]; [|lia].
    replace (S (length s) - length post) with (length span) by lia.
    rewrite <- Es, take_app_length. reflexivity.
Qed.

(** An image reference the scan of the links comes to: with an
    alternative text its brackets are a match that stands after a [!],
    without one they are no match at all. *)
Lemma image_after_bang (text a alt path b : string) :
  text = a ++ "![" ++ alt ++ "](" ++ path ++ ")" ++ b ->
  no_char "]" alt = true ->
  Str.nonempty path = true -> no_char ")" path = true ->
  (Str.nonempty alt = false -> no_char "[" path = true) ->
  Str.join (List.map (out (replace_link text))
              (pieces link_re (length (a ++ "!"))
                 ("[" ++ alt ++ "](" ++ path ++ ")" ++ b)))
  = "[" ++ alt ++ "](" ++ path ++ ")" ++ convert_mkdocs_to_wiki_link b.
Proof.
  intros Htext Ha Hp1 Hp2 Hempty.
  set (span := "[" ++ alt ++ "](" ++ path ++ ")").
  assert (T : text = (a ++ "!" ++ span) ++ b).
  { subst text span. repeat (rewrite !app_assoc || cbn [append]). reflexivity. }
  assert (Hs : "[" ++ alt ++ "](" ++ path ++ ")" ++ b = span ++ b).
  { subst span. repeat (rewrite !app_assoc || cbn [append]). reflexivity. }
  assert (N : length (a ++ "!") + length span = length (a ++ "!" ++ span)).
  { rewrite !length_app. lia. }
  assert (Rest : Str.join (List.map (out (replace_link text))
                             (pieces link_re (length (a ++ "!") + length span) b))
                 = convert_mkdocs_to_wiki_link b).
  { rewrite N, T. apply sub_link_suffix.
    replace (a ++ "!" ++ span) with ((a ++ "![" ++ alt ++ "](" ++ path) ++ ")").
    - now rewrite last_in_app_char.
    - subst span. repeat (rewrite !app_assoc || cbn [append]). reflexivity. }
  rewrite Hs. destruct (Str.nonempty alt) eqn:Hne.
  - unfold span at 1. rewrite (link_found_at _ alt path b Hne Ha Hp1 Hp2).
    fold span. cbn [List.map out]. rewrite join_cons, Rest.
    unfold replace_link, preceded_by_bang. cbn [m_start].
    rewrite Htext at 1.
    replace (a ++ "![" ++ alt ++ "](" ++ path ++ ")" ++ b)
      with ((a ++ "!") ++ "[" ++ alt ++ "](" ++ path ++ ")" ++ b)
      by (repeat (rewrite !app_assoc || cbn [append]); reflexivity).
    rewrite bang_before, last_in_app_char, Ascii.eqb_refl. cbn [group m_group0].
    subst span. repeat (rewrite !app_assoc || cbn [append]). reflexivity.
  - destruct alt as [|c alt]; [|discriminate]. specialize (Hempty eq_refl).
    assert (Hpre : no_char "[" ("](" ++ path ++ ")") = true).
    { change ("](" ++ path ++ ")") with ("](" ++ (path ++ ")")).
      rewrite !no_char_app, Hempty. reflexivity. }
    subst span. cbn [append].
    change (String "[" (String "]" (String "(" ((path ++ ")") ++ b))))
      with (String "[" (("](" ++ path ++ ")") ++ b)).
    rewrite pieces_cons.
    change (try_at link_re (length (a ++ "!")) (String "[" (("](" ++ path ++ ")") ++ b)))
      with (@None (list string * string)).
    cbv iota. rewrite (pieces_before_bracket _ _ _ Hpre).
    cbn [List.map out]. rewrite join_cons, List.map_app, join_app, join_out_gaps.
    replace (S (length (a ++ "!")) + length ("](" ++ path ++ ")"))
      with (length (a ++ "!") + length ("[" ++ "" ++ "](" ++ path ++ ")"))
      by (cbn [append length]; lia).
    rewrite Rest. repeat (rewrite !app_assoc || cbn [append]). reflexivity.
Qed.

Lemma gaps_app (a b : string) : gaps (a ++ b) = (gaps a ++ gaps b)%list.
Proof. induction a as [|c a IH]; [reflexivity|]. cbn [append gaps List.app]. now rewrite IH. Qed.

(** An image reference the scan of the links comes to is in the rewritten
    text as it was, between what the rewriter makes of the text before it
    and of the text after it. *)
Lemma reached_image_kept (text a alt path b : string) (before after : list piece) :
  text = a ++ "![" ++ alt ++ "](" ++ path ++ ")" ++ b ->
  no_char "]" alt = true ->
  Str.nonempty path = true -> no_char ")" path = true ->
  (Str.nonempty alt = false -> no_char "[" path = true) ->
  pieces link_re 0 text = (before ++ Gap "!" :: after)%list ->
  Str.join (List.map src before) = a ->
  convert_mkdocs_to_wiki_link text
  = Str.join (List.map (out (replace_link text)) before)
    ++ "![" ++ alt ++ "](" ++ path ++ ")" ++ convert_mkdocs_to_wiki_link b.
Proof.
  intros Htext Ha Hp1 Hp2 Hempty Hscan Hbefore.
  assert (Hcut : pieces link_re 0 text = ((before ++ [Gap "!"]) ++ after)%list)
    by (now rewrite <- List.app_assoc).
  apply pieces_link_cut in Hcut as (t & Ht & Hafter).
  rewrite List.map_app, join_app, Hbefore in Ht, Hafter.
  cbn [List.map src Str.join fold_right] in Ht, Hafter.
  rewrite (app_nil_r "!") in Ht, Hafter. cbn [Nat.add] in Hafter.
  assert (E : t = "[" ++ alt ++ "](" ++ path ++ ")" ++ b).
  { apply (app_cancel_l (a ++ "!")). rewrite <- Ht, Htext.
    repeat (rewrite !app_assoc || cbn [append]). reflexivity. }
  subst t. unfold convert_mkdocs_to_wiki_link at 1, Re.sub.
  rewrite Hscan, List.map_app, join_app. f_equal.
  cbn [List.map out]. rewrite join_cons, Hafter.
  rewrite (image_after_bang text a alt path b Htext Ha Hp1 Hp2 Hempty).
  reflexivity.
Qed.

(** The first image reference of a text without bracket before it. *)
Lemma first_image_kept (text a alt path b : string) :
  text = a ++ "![" ++ alt ++ "](" ++ path ++ ")" ++ b ->
  no_char "[" a = true -> no_char "]" alt = true ->
  Str.nonempty path = true -> no_char ")" path = true ->
  (Str.nonempty alt = false -> no_char "[" path = true) ->
  convert_mkdocs_to_wiki_link text
  = a ++ "![" ++ alt ++ "](" ++ path ++ ")" ++ convert_mkdocs_to_wiki_link b.
Proof.
  intros Htext Hpre Ha Hp1 Hp2 Hempty.
  assert (Hscan : pieces link_re 0 text
                  = (gaps a ++ Gap "!"
                     :: pieces link_re (length (a ++ "!"))
                          ("[" ++ alt ++ "](" ++ path ++ ")" ++ b))%list).
  { replace text with ((a ++ "!") ++ "[" ++ alt ++ "](" ++ path ++ ")" ++ b)
      by (rewrite Htext; repeat (rewrite !app_assoc || cbn [append]); reflexivity).
    rewrite pieces_before_bracket
      by (rewrite no_char_app, Hpre; reflexivity).
    rewrite gaps_app, <- List.app_assoc. reflexivity. }
  rewrite (reached_image_kept text a alt path b _ _ Htext Ha Hp1 Hp2 Hempty Hscan).
  - now rewrite join_out_gaps.
  - clear. induction a as [|c a IH]; [reflexivity|].
    cbn [gaps List.map src]. rewrite join_cons, IH. reflexivity.
Qed.

(** C9, as the code has it.  The home page is the chosen content with its
    links rewritten and nothing else done to it: no image path is resolved.
    A match of the scan of the links that is protected (it stands right
    after a [!], or its target points outside) is in the written page as it
    was in the content.  An image reference [![alt](path)] whose [!] the
    scan comes to (the [!] is a piece of its own, not a part of a match
    that began before it) is in the written page as it was in the content,
    between the rewritten text before it and the rewritten text after it,
    with an alternative text or, without one, with a path that holds no
    opening bracket; so is the first image reference of the content when no
    bracket stands before it. *)
Theorem home_page_keeps_found_images (w : World) :
  create_home_page w
  = IO (Ok tt) [("wiki/Home.md", convert_mkdocs_to_wiki_link (home_content w))] []
  /\ (forall (before after : list piece) (m : Match),
        pieces link_re 0 (home_content w) = (before ++ Hit m :: after)%list ->
        preceded_by_bang (home_content w) m = true
        \/ is_external_link (group m 2) = true ->
        home_content w
        = Str.join (List.map src before) ++ m_group0 m
          ++ Str.join (List.map src after)
        /\ m_start m = length (Str.join (List.map src before))
        /\ create_home_page w
           = IO (Ok tt)
                [("wiki/Home.md",
                  Str.join (List.map (out (replace_link (home_content w))) before)
                  ++ m_group0 m
                  ++ Str.join (List.map (out (replace_link (home_content w))) after))]
                [])
  /\ (forall (a alt path b : string) (before after : list piece),
        home_content w = a ++ "![" ++ alt ++ "](" ++ path ++ ")" ++ b ->
        no_char "]" alt = true ->
        Str.nonempty path = true -> no_char ")" path = true ->
        (Str.nonempty alt = false -> no_char "[" path = true) ->
        pieces link_re 0 (home_content w) = (before ++ Gap "!" :: after)%list ->
        Str.join (List.map src before) = a ->
        create_home_page w
        = IO (Ok tt)
             [("wiki/Home.md",
               Str.join (List.map (out (replace_link (home_content w))) before)
               ++ "![" ++ alt ++ "](" ++ path ++ ")"
               ++ convert_mkdocs_to_wiki_link b)]
             [])
  /\ (forall (a alt path b : string),
        home_content w = a ++ "![" ++ alt ++ "](" ++ path ++ ")" ++ b ->
        no_char "[" a = true -> no_char "]" alt = true ->
        Str.nonempty path = true -> no_char ")" path = true ->
        (Str.nonempty alt = false -> no_char "[" path = true) ->
        create_home_page w
        = IO (Ok tt)
             [("wiki/Home.md",
               a ++ "![" ++ alt ++ "](" ++ path ++ ")"
               ++ convert_mkdocs_to_wiki_link b)]
             []).
Proof.
  split; [reflexivity|]. split; [|split].
  - intros before after m Hfound Hprot.
    destruct (found_match_in_place link_re (replace_link (home_content w))
                _ _ _ _ Hfound) as (Htext & Hstart & Hsub).
    repeat split; try assumption.
    unfold create_home_page, convert_mkdocs_to_wiki_link. rewrite Hsub.
    now rewrite (replace_link_protected _ _ Hprot).
  - intros a alt path b before after Htext Ha Hp1 Hp2 Hempty Hscan Hbefore.
    unfold create_home_page.
    now rewrite (reached_image_kept _ a alt path b before after
                   Htext Ha Hp1 Hp2 Hempty Hscan Hbefore).
  - intros a alt path b Htext Hpre Ha Hp1 Hp2 Hempty.
    unfold create_home_page.
    now rewrite (first_image_kept _ a alt path b Htext Hpre Ha Hp1 Hp2 Hempty).
Qed.

Lemma home_page_keeps_found_images_witness :
  (home_content picture_checkout
   = "Welcome " ++ "![" ++ "map" ++ "](" ++ "assets/map.png" ++ ")"
     ++ " to the [guide](guide/start.md)"
   /\ no_char "[" "Welcome " = true
   /\ create_home_page picture_checkout
      = IO (Ok tt)
           [("wiki/Home.md",
             "Welcome " ++ "![" ++ "map" ++ "](" ++ "assets/map.png" ++ ")"
             ++ convert_mkdocs_to_wiki_link " to the [guide](guide/start.md)")]
           [])
  /\ (home_content gallery_checkout
      = "See [x] " ++ "![" ++ "" ++ "](" ++ "shots/first_run.png" ++ ")"
        ++ " and [notes](dev_notes.md)"
      /\ pieces link_re 0 (home_content gallery_checkout)
         = (gaps "See [x] " ++ Gap "!"
            :: pieces link_re 9 "[](shots/first_run.png) and [notes](dev_notes.md)")%list
      /\ create_home_page gallery_checkout
         = IO (Ok tt)
              [("wiki/Home.md",
                Str.join (List.map (out (replace_link (home_content gallery_checkout)))
                            (gaps "See [x] "))
                ++ "![" ++ "" ++ "](" ++ "shots/first_run.png" ++ ")"
                ++ convert_mkdocs_to_wiki_link " and [notes](dev_notes.md)")]
              []).
Proof.
  assert (P : home_content picture_checkout
              = "Welcome " ++ "![" ++ "map" ++ "](" ++ "assets/map.png" ++ ")"
                ++ " to the [guide](guide/start.md)") by (vm_compute; reflexivity).
  assert (G : home_content gallery_checkout
              = "See [x] " ++ "![" ++ "" ++ "](" ++ "shots/first_run.png" ++ ")"
                ++ " and [notes](dev_notes.md)") by (vm_compute; reflexivity).
  assert (Hs : pieces link_re 0 (home_content gallery_checkout)
              = (gaps "See [x] " ++ Gap "!"
                 :: pieces link_re 9 "[](shots/first_run.png) and [notes](dev_notes.md)")%list)
    by (vm_compute; reflexivity).
  split.
  - split; [exact P|]. split; [reflexivity|].
    destruct (home_page_keeps_found_images picture_checkout) as (_ & _ & _ & H).
    exact (H "Welcome " "map" "assets/map.png" " to the [guide](guide/start.md)"
             P eq_refl eq_refl eq_refl eq_refl (fun _ => eq_refl)).
  - split; [exact G|]. split; [exact Hs|].
    destruct (home_page_keeps_found_images gallery_checkout) as (_ & _ & H & _).
    exact (H "See [x] " "" "shots/first_run.png" " and [notes](dev_notes.md)"
             (gaps "See [x] ")
             (pieces link_re 9 "[](shots/first_run.png) and [notes](dev_notes.md)")
             G eq_refl eq_refl eq_refl (fun _ => eq_refl) Hs eq_refl).
Defined.

(** What the two pages are. *)
Example home_pages_written :
  written (create_home_page picture_checkout)
  = [("wiki/Home.md", "Welcome ![map](assets/map.png) to the [guide](guide-start)")]
  /\ written (create_home_page gallery_checkout)
     = [("wiki/Home.md", "See [x] ![](shots/first_run.png) and [notes](dev-notes)")].
Proof. split; vm_compute; reflexivity. Qed.

(** C9, as it is stated, fails on a badge that is a link: the image
    reference the image pattern finds in the content is not in the home
    page, its path has been rewritten with the link around it. *)
Lemma home_page_rewrites_linked_badge :
  home_content badge_checkout = "[![CI](badges/ci.svg)](ci.md)"
  /\ List.map m_group0 (Re.finditer image_re (home_content badge_checkout))
     = ["![CI](badges/ci.svg)"]
  /\ written (create_home_page badge_checkout)
     = [("wiki/Home.md", "[![CI](badges-ci.svg)](ci.md)")]
  /\ Str.contains "![CI](badges/ci.svg)" "[![CI](badges-ci.svg)](ci.md)" = false.
Proof. repeat split; reflexivity. Qed.

(** Without alternative text the brackets of an image reference are no
    match, and a link in its path is rewritten. *)
Example image_path_with_link_rewritten :
  convert_mkdocs_to_wiki_link "![](a[b](c_d.md)" = "![](a[b](c-d)".
Proof. vm_compute. reflexivity. Qed.

(** A badge whose picture lies outside is kept: the match that begins at
    the outer bracket has the address of the picture for its target. *)
Example outside_badge_kept :
  convert_mkdocs_to_wiki_link "[![CI](https://ci.example/b.svg)](ci_x.md)"
  = "[![CI](https://ci.example/b.svg)](ci_x.md)".
Proof. vm_compute. reflexivity. Qed.

(** The same picture in a document of the navigation is resolved. *)
Example document_image_resolved :
  written (create_wiki_page picture_checkout "" (Path.of_string "docs/index.md") "index")
  = [("wiki/index.md",
      "Welcome ![map](https://raw.githubusercontent.com/alice/docs/main/docs/assets/map.png) to the [guide](guide-start)")].
Proof. reflexivity. Qed.

End HomePage.

(** ** What the image conversion leaves alone *)

Section ImagePathsOnly.

Lemma match_star_group_inv (cls : ascii -> bool) (q : pattern) (caps : list string)
    (b : bool) (cur : option string) (s : string) (r : list string * string) :
  match_here (GOpen :: Star true cls :: GClose :: q) caps b cur s = Some r ->
  exists x s' b',
    s = x ++ s' /\ Str.forallb cls x = true
    /\ match_here q (caps ++ [x]) b' None s' = Some r.
Proof.
  cbn [match_here]. intros H.
  apply star_greedy_captures in H as (x & s' & b' & -> & Hx & H).
  exists x, s', b'. auto.
Qed.

Lemma image_re_captures (b : bool) (s : string) (caps : list string) (rest : string) :
  match_here image_re [] b None s = Some (caps, rest) ->
  exists alt_text image_path,
    caps = [alt_text; image_path]
    /\ s = "![" ++ alt_text ++ "](" ++ image_path ++ ")" ++ rest.
Proof.
  unfold image_re. cbn [lit List.app]. intros H.
  apply match_chr_inv in H as (s0 & -> & H).
  apply match_chr_inv in H as (s1 & -> & H).
  apply match_star_group_inv in H as (alt_text & s2 & b2 & -> & _ & H).
  apply match_chr_inv in H as (s3 & -> & H).
  apply match_chr_inv in H as (s4 & -> & H).
  apply match_group_inv in H as (image_path & s5 & b5 & -> & _ & _ & H).
  apply match_chr_inv in H as (s6 & -> & H).
  injection H as <- <-. exists alt_text, image_path. split; reflexivity.
Qed.

Lemma image_hit (text : string) (m : Match) :
  In (Hit m) (pieces image_re 0 text) ->
  m_group0 m = "![" ++ group m 1 ++ "](" ++ group m 2 ++ ")".
Proof.
  intros H. apply pieces_hit in H as (b & rest & H).
  apply image_re_captures in H as (alt_text & image_path & Hcaps & H).
  cbn [group]. rewrite Hcaps. cbn [nth].
  apply (app_cancel_r _ _ rest). rewrite H.
  repeat (rewrite !app_assoc || cbn [append]). reflexivity.
Qed.

(** What [replace_image] returns when it returns. *)
Lemma replace_image_value (w : World) (source_file : Path.t) (m : Match)
    (new : string) :
  value (replace_image w source_file m) = Ok new ->
  new = group m 0
  \/ (is_external_image (group m 2) = false
      /\ exists url, raw_url url /\ new = "![" ++ group m 1 ++ "](" ++ url ++ ")").
Proof.
  unfold replace_image.
  destruct (is_external_image (group m 2)) eqn:X; [intros [= <-]; now left|].
  intros H. apply value_bind in H as (r & Hr & H). destruct r as [repo|warning].
  - destruct (wiki_image_path w source_file repo (group m 2)) as [url|e] eqn:U.
    + injection H as <-. right. split; [reflexivity|]. exists url.
      split; [|reflexivity].
      unfold wiki_image_path in U.
      destruct (resolve w _) as [p|]; [|discriminate]. cbn [result_bind] in U.
      destruct (cwd w) as [root|]; [|discriminate]. cbn [result_bind] in U.
      destruct (Path.relative_to p root) as [rel|]; [|discriminate].
      cbn [result_bind] in U. injection U as <-.
      exists repo, (str_replace (Path.to_string rel) "\" "/").
      split; [reflexivity|].
      rewrite str_replace_char. unfold no_char. rewrite forallb_map.
      apply forallb_all. intros c.
      destruct (Ascii.eqb_spec "\" c) as [<-|Hc]; [reflexivity|].
      now apply negb_true_iff, Ascii.eqb_neq.
    + destruct e; try discriminate;
        apply value_bind in H as (u & _ & H); injection H as <-; now left.
  - apply value_bind in H as (u & _ & H). injection H as <-. now left.
Qed.

Lemma sub_io_segments (repl : Match -> io string) (l : list piece) :
  (forall m, In (Hit m) l ->
     m_group0 m = "![" ++ group m 1 ++ "](" ++ group m 2 ++ ")") ->
  (forall m new, In (Hit m) l -> value (repl m) = Ok new ->
     new = group m 0
     \/ (is_external_image (group m 2) = false
         /\ exists url, raw_url url /\ new = "![" ++ group m 1 ++ "](" ++ url ++ ")")) ->
  forall converted,
    value (sub_io repl l) = Ok converted ->
    exists segments,
      Str.join (List.map src l) = Str.join (List.map image_source segments)
      /\ converted = Str.join (List.map image_result segments)
      /\ Forall kept_or_resolved segments.
Proof.
  induction l as [|pc l IH]; intros Hhit Hrepl converted H.
  - injection H as <-. exists []. repeat split. constructor.
  - assert (IH' : forall rest, value (sub_io repl l) = Ok rest ->
              exists segments,
                Str.join (List.map src l) = Str.join (List.map image_source segments)
                /\ rest = Str.join (List.map image_result segments)
                /\ Forall kept_or_resolved segments).
    { apply IH; intros; [apply Hhit | apply Hrepl]; auto; now right. }
    destruct pc as [c|m]; cbn [sub_io] in H.
    + apply value_bind in H as (rest & Hrest & H). injection H as <-.
      destruct (IH' _ Hrest) as (segs & S1 & S2 & S3).
      exists (Outside c :: segs).
      cbn [List.map Str.join fold_right image_source image_result src].
      fold (Str.join (List.map src l)).
      fold (Str.join (List.map image_source segs)).
      fold (Str.join (List.map image_result segs)).
      rewrite S1, S2. repeat split. now constructor.
    + apply value_bind in H as (new & Hnew & H).
      apply value_bind in H as (rest & Hrest & H). injection H as <-.
      destruct (IH' _ Hrest) as (segs & S1 & S2 & S3).
      pose proof (Hhit m (or_introl eq_refl)) as G.
      destruct (Hrepl m new (or_introl eq_refl) Hnew) as [->|(X & url & Hurl & ->)].
      * exists (Link (group m 1) (group m 2) (group m 2) :: segs).
        cbn [List.map Str.join fold_right image_source image_result src].
        fold (Str.join (List.map src l)).
        fold (Str.join (List.map image_source segs)).
        fold (Str.join (List.map image_result segs)).
        cbn [group] in *. rewrite S1, S2, G. repeat split.
        constructor; [now left | exact S3].
      * exists (Link (group m 1) (group m 2) url :: segs).
        cbn [List.map Str.join fold_right image_source image_result src].
        fold (Str.join (List.map src l)).
        fold (Str.join (List.map image_source segs)).
        fold (Str.join (List.map image_result segs)).
        cbn [group] in *. rewrite S1, S2, G. repeat split.
        constructor; [right; auto | exact S3].
Qed.

(** X21.  When the image conversion returns, it has changed paths of
    image references and nothing else: the text is a sequence of characters
    and of references [![alt](path)], and the result is the same sequence
    with each path either kept or, when it is not external, replaced by a
    URL [https://raw.githubusercontent.com/<repo>/main/<path>] that holds no
    backslash after the branch. *)
Theorem images_change_in_path_only (w : World) (text : string)
    (source_file : Path.t) (converted : string) :
  value (convert_image_paths w text source_file) = Ok converted ->
  exists segments,
    text = Str.join (List.map image_source segments)
    /\ converted = Str.join (List.map image_result segments)
    /\ Forall kept_or_resolved segments.
Proof.
  unfold convert_image_paths. intros H.
  apply sub_io_segments in H.
  - rewrite pieces_src in H. exact H.
  - apply image_hit.
  - intros m new _. apply replace_image_value.
Qed.

Lemma images_change_in_path_only_witness :
  value (convert_image_paths nested_checkout
           "See ![fig](../img/fig.png) and ![ci](https://ci.example/badge.svg)"
           (Path.of_string "docs/guide/start.md"))
  = Ok "See ![fig](https://raw.githubusercontent.com/alice/docs/main/docs/img/fig.png) and ![ci](https://ci.example/badge.svg)"
  /\ exists segments,
       "See ![fig](../img/fig.png) and ![ci](https://ci.example/badge.svg)"
       = Str.join (List.map image_source segments)
       /\ "See ![fig](https://raw.githubusercontent.com/alice/docs/main/docs/img/fig.png) and ![ci](https://ci.example/badge.svg)"
          = Str.join (List.map image_result segments)
       /\ Forall kept_or_resolved segments.
Proof.
  split; [reflexivity|].
  apply (images_change_in_path_only nested_checkout _
           (Path.of_string "docs/guide/start.md")).
  reflexivity.
Defined.

End ImagePathsOnly.

(** ** One file for every document that is there *)

Section EveryDocument.

Lemma written_names_bind {A B} (m : io A) (k : A -> io B) (a : A) :
  value m = Ok a ->
  written_names (bind m k) = (written_names m ++ written_names (k a))%list.
Proof.
  intros H. unfold written_names. rewrite written_bind, H. apply List.map_app.
Qed.

Lemma written_names_ret {A} (a : A) : written_names (ret a) = [].
Proof. reflexivity. Qed.

Lemma create_wiki_page_names (w : World) (title : string) (file_path : Path.t)
    (wiki_name : string) (u : unit) :
  no_char "/" wiki_name = true ->
  value (create_wiki_page w title file_path wiki_name) = Ok u ->
  written_names (create_wiki_page w title file_path wiki_name)
  = List.map (fun d => "wiki/" ++ fst d ++ ".md")
      (filter (document_exists w) [(wiki_name, file_path)]).
Proof.
  intros Hn. unfold create_wiki_page, document_exists. cbn [filter snd].
  destruct (read_file w file_path) as [content|] eqn:E; [|reflexivity].
  rewrite (output_path_flat _ Hn). unfold process_markdown_file, open_read.
  rewrite E. intros H.
  apply value_bind in H as (c & Hc & H). injection Hc as <-.
  apply value_bind in H as (c' & Hc' & _).
  rewrite (written_names_bind (lift (Ok content)) _ content eq_refl).
  rewrite (written_names_bind _ _ c' Hc').
  unfold written_names, convert_image_paths.
  rewrite (written_sub_io _ _ (written_replace_image w file_path)). reflexivity.
Qed.

Lemma names_each_of (f : nav -> io (list page)) (g : nav -> list string)
    (l : list nav) :
  (forall x pages, In x l -> value (f x) = Ok pages -> written_names (f x) = g x) ->
  forall pages, value (each_of f l) = Ok pages ->
                written_names (each_of f l) = flat_map g l.
Proof.
  induction l as [|x l IH]; intros Hf pages H; [reflexivity|].
  cbn [each_of] in H |- *.
  apply value_bind in H as (a & Ha & H).
  apply value_bind in H as (b & Hb & _).
  rewrite (written_names_bind _ _ a Ha), (written_names_bind _ _ b Hb).
  cbn [flat_map]. rewrite (Hf x a (or_introl eq_refl) Ha).
  rewrite (IH (fun y p Hy => Hf y p (or_intror Hy)) b Hb).
  rewrite written_names_ret. now rewrite List.app_nil_r.
Qed.

Lemma files_of_app (w : World) (a b : list (string * Path.t)) :
  files_of w (a ++ b) = (files_of w a ++ files_of w b)%list.
Proof. unfold files_of. now rewrite filter_app, List.map_app. Qed.

Lemma files_of_flat_map {A} (w : World) (f : A -> list (string * Path.t))
    (l : list A) :
  files_of w (flat_map f l) = flat_map (fun x => files_of w (f x)) l.
Proof.
  induction l as [|x l IH]; [reflexivity|].
  cbn [flat_map]. now rewrite files_of_app, IH.
Qed.

(** A walk that comes to its end has written the files of the documents
    of the item that are there. *)
Lemma parse_nav_item_names (w : World) (n : nat) :
  forall item prefix pages,
    nav_size item < n ->
    value (parse_nav_item w item prefix) = Ok pages ->
    written_names (parse_nav_item w item prefix)
    = files_of w (nav_documents (DOCS_DIR w) item).
Proof.
  induction n as [|n IH]; intros item prefix pages Hn H; [lia|].
  destruct item as [s|l|kvs|]; try reflexivity.
  - cbn [parse_nav_item] in H |- *.
    apply value_bind in H as (u & Hu & _).
    rewrite (written_names_bind _ _ u Hu).
    rewrite (create_wiki_page_names _ _ _ _ u (nav_wiki_name_flat s) Hu).
    rewrite written_names_ret.
    now rewrite List.app_nil_r.
  - destruct kvs as [|[key v] kvs]; [reflexivity|].
    rewrite parse_nav_dict_cons in H |- *.
    apply value_bind in H as (here & Hhere & H).
    apply value_bind in H as (more & Hmore & _).
    rewrite (written_names_bind _ _ here Hhere), (written_names_bind _ _ more Hmore).
    cbn [nav_size List.map snd] in Hn. rewrite list_sum_cons in Hn.
    pose proof (nav_size_pos v) as Hv.
    rewrite (IH (NDict kvs) prefix more) by (cbn [nav_size]; lia || exact Hmore).
    rewrite written_names_ret. rewrite List.app_nil_r.
    cbn [nav_documents flat_map snd]. rewrite files_of_app.
    f_equal.
    destruct v as [v|sub_items|items|]; try reflexivity.
    + apply value_bind in Hhere as (u & Hu & _).
      rewrite (written_names_bind _ _ u Hu).
      rewrite (create_wiki_page_names _ _ _ _ u (nav_wiki_name_flat v) Hu).
      rewrite written_names_ret.
      now rewrite List.app_nil_r.
    + rewrite files_of_flat_map.
      apply (names_each_of _ _ _) with (pages := here); [|exact Hhere].
      intros x p Hx Hp. apply (IH x key p); [|exact Hp].
      pose proof (nav_size_in x sub_items Hx). cbn [nav_size] in Hn. lia.
Qed.

Lemma fallback_pages_names (w : World) (found : list (Path.t * bool)) :
  forall pages,
    value (fallback_pages w found) = Ok pages ->
    written_names (fallback_pages w found)
    = files_of w
        (List.map (fun f : Path.t * bool =>
                     (fallback_wiki_name (fst f),
                      {| Path.is_absolute := Path.is_absolute (DOCS_DIR w);
                         Path.parts := (Path.parts (DOCS_DIR w) ++ Path.parts (fst f))%list |}))
                  (filter snd found)).
Proof.
  induction found as [|[rel_path is_file] found IH]; intros pages H; [reflexivity|].
  cbn [fallback_pages] in H |- *.
  apply value_bind in H as (here & Hhere & H).
  apply value_bind in H as (more & Hmore & _).
  rewrite (written_names_bind _ _ here Hhere), (written_names_bind _ _ more Hmore).
  rewrite (IH more Hmore), written_names_ret, List.app_nil_r.
  cbn [filter snd]. destruct is_file; [|reflexivity].
  apply value_bind in Hhere as (u & Hu & _).
  rewrite (written_names_bind _ _ u Hu), written_names_ret, List.app_nil_r.
  rewrite (create_wiki_page_names _ _ _ _ u (fallback_wiki_name_flat rel_path) Hu).
  exact (eq_sym (files_of_app w [_] _)).
Qed.

(** X22.  A walk or a scan that comes to its end has written one file for
    every document of the site that is there, in the order of the
    navigation (or of the scan), and no other: the page of a document that
    is missing keeps its entry in the sidebar and gets no file. *)
Theorem every_document_gets_its_file (w : World) (pages : list page) :
  value (collect_pages w) = Ok pages ->
  written_names (collect_pages w) = files_of w (site_documents w).
Proof.
  unfold collect_pages, site_documents. destruct (mkdocs_yml w) as [config|].
  - rewrite nav_pages_each, files_of_flat_map. apply names_each_of.
    intros item p _ Hp.
    exact (parse_nav_item_names w (S (nav_size item)) item "" p
             (Nat.lt_succ_diag_r _) Hp).
  - apply fallback_pages_names.
Qed.

Lemma every_document_gets_its_file_witness :
  value (collect_pages nested_checkout)
  = Ok [("Home", "index"); ("Guide Start", "guide-start");
        ("Advanced Tuning", "guide-adv-tuning"); ("", "guide-notes")]
  /\ written_names (collect_pages nested_checkout)
     = files_of nested_checkout (site_documents nested_checkout).
Proof.
  assert (H : value (collect_pages nested_checkout)
              = Ok [("Home", "index"); ("Guide Start", "guide-start");
                    ("Advanced Tuning", "guide-adv-tuning"); ("", "guide-notes")])
    by (vm_compute; reflexivity).
  split; [exact H|].
  exact (every_document_gets_its_file nested_checkout _ H).
Defined.

(** The two documents of the nested navigation that are there. *)
Example nested_checkout_files :
  files_of nested_checkout (site_documents nested_checkout)
  = ["wiki/index.md"; "wiki/guide-start.md"].
Proof. vm_compute. reflexivity. Qed.

End EveryDocument.
